(** * The site upgrade orchestrator of the skupper client

    A shallow embedding of [client/router_update.go]: the function
    [RouterUpdateVersionInNamespace] together with the helpers of the same
    file ([updateStarted], [updateCompleted], [isUpdating], [touch],
    [updateOauthProxyServiceAccount], [usingRoutes], [getTransportHosts],
    [qualifiedServiceName]), and the other entry points of the file:
    [RouterUpdateLogging], [RouterUpdateAnnotations] with
    [updateAnnotationsOnDeployment], and [RouterRestart]. Only
    [RouterUpdateDebugMode] is left out, the environment variables of a
    container not being part of the objects as they are described here.

    The Kubernetes API server is an explicit object store; every request the
    code sends is served against it, counted and logged, and may be failed by
    the environment.  The Go function is written in a state monad with an
    early exit that stands for [return]. *)

From Stdlib Require Import String Ascii List Bool Arith Lia.
From stdpp Require Import base option gmap strings list fin_maps.

(* ===================================================================== *)
(** ** Errors of the API machinery *)
(* ===================================================================== *)

(** [k8s.io/apimachinery/pkg/api/errors]: the two status reasons the code
    tells apart, and everything else. A Go [error] is an [option Err],
    [None] being [nil]. *)
Inductive Err : Type :=
| ErrNotFound
| ErrAlreadyExists
| ErrOther (msg : string).

Definition IsNotFound (e : Err) : bool :=
  match e with ErrNotFound => true | _ => false end.

Definition IsAlreadyExists (e : Err) : bool :=
  match e with ErrAlreadyExists => true | _ => false end.

(* ===================================================================== *)
(** ** Objects of a site *)
(* ===================================================================== *)

Definition OwnerReference := string.

Record ObjectMeta := {
  Name : string;
  OwnerReferences : list OwnerReference;
  Annotations : gmap string string   (* a nil map and an empty one are both ∅ *)
}.

Record ConfigMap := {
  cmMeta : ObjectMeta;
  cmData : gmap string string
}.

Inductive ServiceType := ServiceTypeClusterIP | ServiceTypeNodePort | ServiceTypeLoadBalancer.

Definition ServiceType_eqb (a b : ServiceType) : bool :=
  match a, b with
  | ServiceTypeClusterIP, ServiceTypeClusterIP
  | ServiceTypeNodePort, ServiceTypeNodePort
  | ServiceTypeLoadBalancer, ServiceTypeLoadBalancer => true
  | _, _ => false
  end.

(** [svcIngress] is [Status.LoadBalancer.Ingress] reduced to the one string
    that [kube.GetLoadBalancerHostOrIP] extracts from it: the assigned IP or
    host name, empty while none is assigned. *)
Record Service := {
  svcMeta : ObjectMeta;
  svcType : ServiceType;
  svcSelector : gmap string string;
  svcPorts : list nat;
  svcIngress : string
}.

(** [types.Credential] *)
Record Credential := {
  CA : string;
  credName : string;
  Subject : string;
  Hosts : list string;
  ConnectJson : bool
}.

(** A secret either carries copied data, or was issued for a credential
    request (the certificate itself is not modelled). *)
Record Secret := {
  secMeta : ObjectMeta;
  secData : gmap string string;
  secIssuedFor : option Credential
}.

Record ServiceAccount := { saMeta : ObjectMeta }.

Record Role := {
  roleMeta : ObjectMeta;
  roleRules : list string
}.

Record RoleBinding := {
  rbMeta : ObjectMeta;
  rbSubjects : list (string * string);      (* kind, name *)
  rbRoleRef : string * string               (* kind, name *)
}.

Record Route := {
  routeMeta : ObjectMeta;
  routePath : string;
  routePort : string;
  routeTLS : string;
  routeTo : string * string                 (* kind, name *)
}.

Record Container := {
  cName : string;
  cImage : string;
  cArgs : list string
}.

Record Volume := {
  volName : string;
  volSecretName : option string             (* Some for a secret volume *)
}.

(** The pod template of a deployment. The API server refuses a pod template
    without containers, so [Containers[0]] always exists in an object read
    from it: the first container is a field of its own and [Containers[1:]]
    is [podMoreContainers]. *)
Record PodSpec := {
  podServiceAccountName : string;
  podVolumes : list Volume;
  podContainer0 : Container;
  podMoreContainers : list Container
}.

Record Deployment := {
  depMeta : ObjectMeta;
  depTemplateAnnotations : gmap string string;
  depPodSpec : PodSpec
}.

(* ===================================================================== *)
(** ** The object store *)
(* ===================================================================== *)

Inductive Kind :=
| KConfigMap | KService | KSecret | KServiceAccount
| KRole | KRoleBinding | KRoute | KDeployment.

Inductive Verb := VGet | VCreate | VUpdate | VDelete.

Definition Kind_eqb (a b : Kind) : bool :=
  match a, b with
  | KConfigMap, KConfigMap | KService, KService | KSecret, KSecret
  | KServiceAccount, KServiceAccount | KRole, KRole
  | KRoleBinding, KRoleBinding | KRoute, KRoute
  | KDeployment, KDeployment => true
  | _, _ => false
  end.

Definition Verb_eqb (a b : Verb) : bool :=
  match a, b with
  | VGet, VGet | VCreate, VCreate | VUpdate, VUpdate | VDelete, VDelete => true
  | _, _ => false
  end.

Definition mutating (v : Verb) : bool :=
  match v with VGet => false | _ => true end.

(** The objects of one namespace, by kind and name. *)
Record Store := {
  configmaps : gmap string ConfigMap;
  services : gmap string Service;
  secrets : gmap string Secret;
  serviceaccounts : gmap string ServiceAccount;
  roles : gmap string Role;
  rolebindings : gmap string RoleBinding;
  routes : gmap string Route;
  deployments : gmap string Deployment
}.

(** One typed client of the API ([CoreV1().ConfigMaps(ns)], ...): the kind it
    serves, where its objects live in the store, and the name of an object. *)
Record Client (V : Type) := {
  kindOf : Kind;
  objs : Store -> gmap string V;
  setObjs : gmap string V -> Store -> Store;
  nameOf : V -> string
}.
Arguments kindOf {V}. Arguments objs {V}. Arguments setObjs {V}. Arguments nameOf {V}.

Definition ConfigMaps : Client ConfigMap :=
  {| kindOf := KConfigMap; objs := configmaps; nameOf := fun o => Name (cmMeta o);
     setObjs := fun m s =>
       {| configmaps := m; services := services s; secrets := secrets s;
          serviceaccounts := serviceaccounts s; roles := roles s;
          rolebindings := rolebindings s; routes := routes s;
          deployments := deployments s |} |}.

Definition Services : Client Service :=
  {| kindOf := KService; objs := services; nameOf := fun o => Name (svcMeta o);
     setObjs := fun m s =>
       {| configmaps := configmaps s; services := m; secrets := secrets s;
          serviceaccounts := serviceaccounts s; roles := roles s;
          rolebindings := rolebindings s; routes := routes s;
          deployments := deployments s |} |}.

Definition Secrets : Client Secret :=
  {| kindOf := KSecret; objs := secrets; nameOf := fun o => Name (secMeta o);
     setObjs := fun m s =>
       {| configmaps := configmaps s; services := services s; secrets := m;
          serviceaccounts := serviceaccounts s; roles := roles s;
          rolebindings := rolebindings s; routes := routes s;
          deployments := deployments s |} |}.

Definition ServiceAccounts : Client ServiceAccount :=
  {| kindOf := KServiceAccount; objs := serviceaccounts; nameOf := fun o => Name (saMeta o);
     setObjs := fun m s =>
       {| configmaps := configmaps s; services := services s; secrets := secrets s;
          serviceaccounts := m; roles := roles s;
          rolebindings := rolebindings s; routes := routes s;
          deployments := deployments s |} |}.

Definition Roles : Client Role :=
  {| kindOf := KRole; objs := roles; nameOf := fun o => Name (roleMeta o);
     setObjs := fun m s =>
       {| configmaps := configmaps s; services := services s; secrets := secrets s;
          serviceaccounts := serviceaccounts s; roles := m;
          rolebindings := rolebindings s; routes := routes s;
          deployments := deployments s |} |}.

Definition RoleBindings : Client RoleBinding :=
  {| kindOf := KRoleBinding; objs := rolebindings; nameOf := fun o => Name (rbMeta o);
     setObjs := fun m s =>
       {| configmaps := configmaps s; services := services s; secrets := secrets s;
          serviceaccounts := serviceaccounts s; roles := roles s;
          rolebindings := m; routes := routes s;
          deployments := deployments s |} |}.

Definition Routes : Client Route :=
  {| kindOf := KRoute; objs := routes; nameOf := fun o => Name (routeMeta o);
     setObjs := fun m s =>
       {| configmaps := configmaps s; services := services s; secrets := secrets s;
          serviceaccounts := serviceaccounts s; roles := roles s;
          rolebindings := rolebindings s; routes := m;
          deployments := deployments s |} |}.

Definition Deployments : Client Deployment :=
  {| kindOf := KDeployment; objs := deployments; nameOf := fun o => Name (depMeta o);
     setObjs := fun m s =>
       {| configmaps := configmaps s; services := services s; secrets := secrets s;
          serviceaccounts := serviceaccounts s; roles := roles s;
          rolebindings := rolebindings s; routes := routes s;
          deployments := m |} |}.

(* ===================================================================== *)
(** ** The environment and the world *)
(* ===================================================================== *)

(** What the code does not control. The requests of an invocation are
    numbered from the value of [ticks] it starts with.
    - [fault n]: the message of the unexpected error, if any, with which
      the [n]-th request fails without being served (a timeout, a refused
      connection, a server error); not-found and already-exists are
      answers of the store, never faults;
    - [lbAssign n name]: the load-balancer address that the cloud provider
      has written into the status of service [name] by the time the [n]-th
      request is served, if it wrote one just then;
    - [clock n]: [time.Now().Format(time.RFC1123Z)] read after [n] requests. *)
Record Env := {
  fault : nat -> option string;
  lbAssign : nat -> string -> option string;
  clock : nat -> string
}.

(** One request as the API server saw it: the store it was served against
    and the error it was answered with. *)
Record Event := {
  evVerb : Verb;
  evKind : Kind;
  evName : string;
  evStore : Store;
  evErr : option Err
}.

Record World := {
  store : Store;
  ticks : nat;                 (* requests sent so far *)
  log : list Event;            (* the requests, oldest first *)
  slept : nat;                 (* seconds spent in time.Sleep *)
  stdout : list string         (* lines printed with fmt.Println *)
}.

Definition setIngress (h : string) (s : Service) : Service :=
  {| svcMeta := svcMeta s; svcType := svcType s; svcSelector := svcSelector s;
     svcPorts := svcPorts s; svcIngress := h |}.

(** The only change the environment makes to the store on its own. *)
Definition provision (assign : string -> option string) (s : Store) : Store :=
  setObjs Services
    (map_imap (fun name svc =>
                 Some (match assign name with
                       | Some h => setIngress h svc
                       | None => svc
                       end)) (services s)) s.

(* ===================================================================== *)
(** ** The monad of the translated code *)
(* ===================================================================== *)

(** A computation runs in a world and either goes on with a value ([inl]) or
    leaves the enclosing Go function with its return value ([inr]). *)
Definition M (R A : Type) : Type := World -> World * (A + R).

Definition ret {R A} (a : A) : M R A := fun w => (w, inl a).

Definition bind {R A B} (m : M R A) (f : A -> M R B) : M R B :=
  fun w => match m w with
           | (w', inl a) => f a w'
           | (w', inr r) => (w', inr r)
           end.

Declare Scope go_scope.
Delimit Scope go_scope with go.
Notation "x ← y ; z" := (bind y (fun x => z))
  (at level 20, y at level 100, z at level 200, only parsing) : go_scope.
Notation "' x ← y ; z" := (bind y (fun x => z))
  (at level 20, x pattern, y at level 100, z at level 200, only parsing) : go_scope.
Notation "x ;; z" := (bind x (fun _ => z))
  (at level 100, z at level 200, only parsing, right associativity) : go_scope.
Open Scope go_scope.

(** The Go [return]. *)
Definition Return {R A} (r : R) : M R A := fun w => (w, inr r).

(** [v, err := f(...)] with the error inspected by the caller. *)
Definition catch {R E A} (m : M E A) : M R (E + A) :=
  fun w => match m w with
           | (w', inl a) => (w', inl (inr a))
           | (w', inr e) => (w', inl (inl e))
           end.

(** [v, err := f(...); if err != nil { return flag, err }] *)
Definition orReturn {A} (flag : bool) (m : M Err A) : M (bool * option Err) A :=
  fun w => match m w with
           | (w', inl a) => (w', inl a)
           | (w', inr e) => (w', inr (flag, Some e))
           end.

(** [v, err := f(...); if err != nil && !tolerated(err) { return false, err }];
    the value is [None] (a nil pointer) when the error was tolerated. *)
Definition unless {A} (tolerated : Err -> bool) (m : M Err A)
  : M (bool * option Err) (option A) :=
  fun w => match m w with
           | (w', inl a) => (w', inl (Some a))
           | (w', inr e) =>
               if tolerated e then (w', inl None) else (w', inr (false, Some e))
           end.

(** [for _, x := range l { body }] *)
Fixpoint forRange {R A} (l : list A) (body : A -> M R unit) : M R unit :=
  match l with
  | [] => ret tt
  | x :: l' => body x;; forRange l' body
  end.

Definition Println {R} (line : string) : M R unit :=
  fun w => ({| store := store w; ticks := ticks w; log := log w;
               slept := slept w; stdout := stdout w ++ [line] |}, inl tt).

(** [time.Sleep(time.Second)] *)
Definition SleepSecond {R} : M R unit :=
  fun w => ({| store := store w; ticks := ticks w; log := log w;
               slept := S (slept w); stdout := stdout w |}, inl tt).

(* ===================================================================== *)
(** ** What the file imports from the rest of the repository *)
(* ===================================================================== *)

(** [types.SiteMetadata] and [qdr.RouterConfig], as far as this file reads
    and writes them. *)
Record SiteMetadata := {
  siteId : string;
  siteVersion : string
}.

Record RouterConfig := {
  rcSiteMetadata : SiteMetadata;
  rcRest : string
}.

Definition GetSiteMetadata (config : RouterConfig) : SiteMetadata :=
  rcSiteMetadata config.

Definition SetSiteMetadata (site : SiteMetadata) (config : RouterConfig) : RouterConfig :=
  {| rcSiteMetadata := site; rcRest := rcRest config |}.

(** The packages [api/types], [pkg/utils] and [pkg/qdr], the build-time
    variables of package [client], and [net.ParseIP] are not part of the
    file; the code is translated over an arbitrary implementation of what it
    uses from them. Fields keep the Go names. *)
Class Deps := {
  (* package client *)
  Version : string;
  GetRouterImageName : string;
  GetServiceControllerImageName : string;
  (* pkg/utils *)
  LessRecentThanVersion : string -> string -> bool;
  MoreRecentThanVersion : string -> string -> bool;
  EquivalentVersion : string -> string -> bool;
  (* pkg/qdr *)
  GetRouterConfigFromConfigMap : ConfigMap -> Err + RouterConfig;
  UpdateConfigMap : RouterConfig -> ConfigMap -> Err + ConfigMap;
  (* net: whether ParseIP returns a non-nil address *)
  ParseIP : string -> bool;
  (* api/types *)
  TransportConfigMapName : string;
  TransportDeploymentName : string;
  ControllerDeploymentName : string;
  LocalTransportServiceName : string;
  TransportServiceName : string;
  ControllerServiceName : string;
  RouterConsoleServiceName : string;
  OauthConsoleSecret : string;
  OauthRouterConsoleSecret : string;
  LocalCaSecret : string;
  SiteCaSecret : string;
  LocalServerSecret : string;
  LocalClientSecret : string;
  SiteServerSecret : string;
  TransportServiceAccountName : string;
  ControllerServiceAccountName : string;
  ControllerRoleName : string;
  TransportRoleName : string;
  ControllerRoleBindingName : string;
  TransportRoleBindingName : string;
  ControllerPolicyRule : list string;
  ConsoleRouteName : string;
  EdgeRouteName : string;
  InterRouterRouteName : string;
  UpdatedAnnotation : string
}.

(** [VanClient]: [KubeClient] is the world itself; [RouteClient] is [false]
    for a nil route client (a cluster without routes). *)
Record VanClient := {
  Namespace : string;
  RouteClient : bool
}.

(** [err.Error()] *)
Definition Error (e : Err) : string :=
  match e with
  | ErrNotFound => "not found"
  | ErrAlreadyExists => "already exists"
  | ErrOther msg => msg
  end.

Section Requests.
Context (env : Env).

(** One request to the API server. The cloud provider's writes become
    visible, the request is logged, and unless the environment fails it,
    [serve] answers it from the objects of the client's kind. *)
Definition request {V A} (verb : Verb) (c : Client V) (name : string)
    (serve : gmap string V -> Err + (gmap string V * A)) : M Err A :=
  fun w =>
    let s := provision (lbAssign env (ticks w)) (store w) in
    let answer := match fault env (ticks w) with
                  | Some msg => inl (ErrOther msg)
                  | None => serve (objs c s)
                  end in
    let ev := fun e => {| evVerb := verb; evKind := kindOf c; evName := name;
                          evStore := s; evErr := e |} in
    match answer with
    | inl e =>
        ({| store := s; ticks := S (ticks w); log := log w ++ [ev (Some e)];
            slept := slept w; stdout := stdout w |}, inr e)
    | inr (m, a) =>
        ({| store := setObjs c m s; ticks := S (ticks w); log := log w ++ [ev None];
            slept := slept w; stdout := stdout w |}, inl a)
    end.

Definition Get {V} (c : Client V) (name : string) : M Err V :=
  request VGet c name
    (fun m => match m !! name with
              | Some v => inr (m, v)
              | None => inl ErrNotFound
              end).

Definition Create {V} (c : Client V) (v : V) : M Err V :=
  request VCreate c (nameOf c v)
    (fun m => match m !! nameOf c v with
              | Some _ => inl ErrAlreadyExists
              | None => inr (<[nameOf c v := v]> m, v)
              end).

Definition Update {V} (c : Client V) (v : V) : M Err V :=
  request VUpdate c (nameOf c v)
    (fun m => match m !! nameOf c v with
              | Some _ => inr (<[nameOf c v := v]> m, v)
              | None => inl ErrNotFound
              end).

Definition Delete {V} (c : Client V) (name : string) : M Err unit :=
  request VDelete c name
    (fun m => match m !! name with
              | Some _ => inr (delete name m, tt)
              | None => inl ErrNotFound
              end).

(** [time.Now().Format(time.RFC1123Z)] *)
Definition Now {R} : M R string := fun w => (w, inl (clock env (ticks w))).

End Requests.

(* ===================================================================== *)
(** ** Package [kube] *)
(* ===================================================================== *)

(** The helpers of [pkg/kube] that the file calls are not part of it. Each is
    a read of the legacy object followed by one create (or update) under the
    current name, as the specification describes the copy procedure. *)
Section Kube.
Context (env : Env).

(** Modelled from the spec: [kube.GetService], the lookup of an exposure
    object by name. *)
Definition GetService (name : string) : M Err Service := Get env Services name.

(** Modelled from the spec: [kube.GetLoadBalancerHostOrIP], the "assigned
    host/IP" of an exposure object, empty when there is none. *)
Definition GetLoadBalancerHostOrIP (service : Service) : string := svcIngress service.

(** Modelled from the spec: [kube.GetRoute], the lookup of a routed object
    by name. *)
Definition GetRoute (name : string) : M Err Route := Get env Routes name.

(** Modelled from the spec: [kube.CopyService], "copy the legacy object's
    contents under the current name", with the given annotations added; the
    copy has no load-balancer address yet. *)
Definition CopyService (src dest : string) (annotations : gmap string string)
  : M Err Service :=
  original ← Get env Services src;
  Create env Services
    {| svcMeta := {| Name := dest;
                     OwnerReferences := OwnerReferences (svcMeta original);
                     Annotations := annotations ∪ Annotations (svcMeta original) |};
       svcType := svcType original;
       svcSelector := svcSelector original;
       svcPorts := svcPorts original;
       svcIngress := "" |}.

(** Modelled from the spec: [kube.CopySecret], the verbatim copy of a
    credential under the current name. *)
Definition CopySecret (src dest : string) : M Err unit :=
  original ← Get env Secrets src;
  _ ← Create env Secrets
    {| secMeta := {| Name := dest;
                     OwnerReferences := OwnerReferences (secMeta original);
                     Annotations := Annotations (secMeta original) |};
       secData := secData original;
       secIssuedFor := secIssuedFor original |};
  ret tt.

(** Modelled from the spec: [kube.NewSecret], "issue(Credential)": the
    certificate authority named by the request is read and the credential
    minted from it is created under the requested name. *)
Definition NewSecret (cred : Credential) (owner : option OwnerReference)
  : M Err Secret :=
  _ ← (if String.eqb (CA cred) "" then ret tt else (_ ← Get env Secrets (CA cred); ret tt));
  Create env Secrets
    {| secMeta := {| Name := credName cred;
                     OwnerReferences := match owner with Some o => [o] | None => [] end;
                     Annotations := ∅ |};
       secData := ∅;
       secIssuedFor := Some cred |}.

(** Modelled from the spec: [kube.CopyServiceAccount], the copy of an
    identity under the current name; an annotation of the original whose
    key has a substitution takes the substituted value. *)
Definition CopyServiceAccount (src dest : string)
    (annotationSubstitutions : gmap string string) : M Err unit :=
  original ← Get env ServiceAccounts src;
  _ ← Create env ServiceAccounts
    {| saMeta := {| Name := dest;
                    OwnerReferences := OwnerReferences (saMeta original);
                    Annotations :=
                      map_imap (fun key value =>
                                  Some (default value (annotationSubstitutions !! key)))
                               (Annotations (saMeta original)) |} |};
  ret tt.

(** Modelled from the spec: [kube.CreateRole] and [kube.CreateRoleBinding],
    plain creates. *)
Definition CreateRole (role : Role) : M Err Role := Create env Roles role.

Definition CreateRoleBinding (rb : RoleBinding) : M Err RoleBinding :=
  Create env RoleBindings rb.

(** Modelled from the spec: [kube.CopyRole], the copy of a permission set
    under the current name. *)
Definition CopyRole (src dest : string) : M Err unit :=
  original ← Get env Roles src;
  _ ← Create env Roles
    {| roleMeta := {| Name := dest;
                      OwnerReferences := OwnerReferences (roleMeta original);
                      Annotations := Annotations (roleMeta original) |};
       roleRules := roleRules original |};
  ret tt.

(** Modelled from the spec: [kube.UpdateTargetServiceForRoute], which
    points an existing routed object at another service. *)
Definition UpdateTargetServiceForRoute (routeName serviceName : string) : M Err unit :=
  route ← Get env Routes routeName;
  _ ← Update env Routes
    {| routeMeta := routeMeta route; routePath := routePath route;
       routePort := routePort route; routeTLS := routeTLS route;
       routeTo := (fst (routeTo route), serviceName) |};
  ret tt.

(** Modelled from the spec: [kube.UpdateSecretVolume], which repoints the
    "named secret-volume binding" [oldname] to the secret [name]. *)
Definition UpdateSecretVolume (spec : PodSpec) (oldname name : string) : PodSpec :=
  {| podServiceAccountName := podServiceAccountName spec;
     podVolumes :=
       map (fun v => if String.eqb (volName v) oldname
                     then {| volName := name;
                             volSecretName := match volSecretName v with
                                              | Some _ => Some name
                                              | None => None
                                              end |}
                     else v) (podVolumes spec);
     podContainer0 := podContainer0 spec;
     podMoreContainers := podMoreContainers spec |}.

End Kube.

(* ===================================================================== *)
(** ** [client/router_update.go] *)
(* ===================================================================== *)

Definition liftE {A} (r : Err + A) : M Err A :=
  fun w => (w, match r with inl e => inr e | inr a => inl a end).

Definition setPodSpec (spec : PodSpec) (d : Deployment) : Deployment :=
  {| depMeta := depMeta d; depTemplateAnnotations := depTemplateAnnotations d;
     depPodSpec := spec |}.

Definition setServiceAccountName (name : string) (spec : PodSpec) : PodSpec :=
  {| podServiceAccountName := name; podVolumes := podVolumes spec;
     podContainer0 := podContainer0 spec;
     podMoreContainers := podMoreContainers spec |}.

(** [spec.Containers[0].Image = image] *)
Definition setImage0 (image : string) (spec : PodSpec) : PodSpec :=
  {| podServiceAccountName := podServiceAccountName spec;
     podVolumes := podVolumes spec;
     podContainer0 := {| cName := cName (podContainer0 spec); cImage := image;
                         cArgs := cArgs (podContainer0 spec) |};
     podMoreContainers := podMoreContainers spec |}.

Definition qualifiedServiceName (name namespace : string) : string :=
  name +:+ "." +:+ namespace +:+ ".svc.cluster.local".

(** [len(spec.Containers) > 1] is [podMoreContainers] being non-empty and
    [spec.Containers[1]] its head. *)
Definition updateOauthProxyServiceAccount (spec : PodSpec) (name : string) : PodSpec :=
  match podMoreContainers spec with
  | c1 :: rest =>
      if String.eqb (cName c1) "oauth-proxy" then
        {| podServiceAccountName := podServiceAccountName spec;
           podVolumes := podVolumes spec;
           podContainer0 := podContainer0 spec;
           podMoreContainers :=
             {| cName := cName c1; cImage := cImage c1;
                cArgs := map (fun arg =>
                                if String.prefix "--openshift-service-account" arg
                                then "--openshift-service-account=" +:+ name
                                else arg) (cArgs c1) |} :: rest |}
      else spec
  | [] => spec
  end.

Section Client.
Context `{Deps} (env : Env) (cli : VanClient).

Definition updateStarted (from : string) (ownerrefs : list OwnerReference) : M Err unit :=
  _ ← Create env ConfigMaps
    {| cmMeta := {| Name := "skupper-update-state";
                    OwnerReferences := ownerrefs;
                    Annotations := ∅ |};
       cmData := {[ "from" := from ]} |};
  ret tt.

Definition updateCompleted : M Err unit :=
  Delete env ConfigMaps "skupper-update-state".

Definition isUpdating : M Err (bool * string) :=
  r ← catch (Get env ConfigMaps "skupper-update-state");
  match r with
  | inl err => if IsNotFound err then ret (false, "") else Return err
  | inr cm => ret (true, default "" (cmData cm !! "from"))
  end.

Definition touch {R} (deployment : Deployment) : M R Deployment :=
  now ← Now env;
  ret {| depMeta := depMeta deployment;
          depTemplateAnnotations :=
            <[UpdatedAnnotation := now]> (depTemplateAnnotations deployment);
          depPodSpec := depPodSpec deployment |}.

Definition usingRoutes : M Err bool :=
  if RouteClient cli then
    r ← catch (GetRoute env InterRouterRouteName);
    match r with
    | inr _ => ret true
    | inl err => if IsNotFound err then ret false else Return err
    end
  else ret false.

(** The polling loop of [getTransportHosts] from iteration [i] on, with
    [n] iterations left ([i + n = 120]); the result is the host that ended
    the loop, empty if none did. *)
Fixpoint pollTransportHost (n i : nat) : M Err string :=
  match n with
  | 0 => ret ""
  | S n' =>
      (if (0 <? i)%nat then SleepSecond else ret tt);;
      service ← GetService env TransportServiceName;
      let host := GetLoadBalancerHostOrIP service in
      if negb (String.eqb host "") then ret host
      else pollTransportHost n' (S i)
  end.

Definition getTransportHosts (namespace : string) : M Err (list string) :=
  let hosts := [] in
  oldService ← GetService env "skupper-internal";
  hosts ←
    (if ServiceType_eqb (svcType oldService) ServiceTypeLoadBalancer then
       host ← pollTransportHost 120 0;
       let hosts := if negb (String.eqb host "") then hosts ++ [host] else hosts in
       let host := GetLoadBalancerHostOrIP oldService in
       ret (if negb (String.eqb host "") then hosts ++ [host] else hosts)
     else ret hosts);
  let hosts := hosts ++ [TransportServiceName] in
  let hosts := hosts ++ [qualifiedServiceName TransportServiceName namespace] in
  let hosts := hosts ++ [qualifiedServiceName "skupper-internal" namespace] in
  ret hosts.

(** [for _, host := range hosts { if len(host) < 64 { subject = host; break } }] *)
Fixpoint firstShortHost (subject : string) (hosts : list string) : string :=
  match hosts with
  | [] => subject
  | host :: rest =>
      if (String.length host <? 64)%nat then host else firstShortHost subject rest
  end.

End Client.

(** The double quote of the Go string literals. *)
Definition dq : string := String (ascii_of_nat 34) EmptyString.

(** [{"kind":"OAuthRedirectReference","apiVersion":"v1","reference":{"kind":"Route","name":"<name>"}}],
    the annotation value of lines 224-226. *)
Definition oauthRedirectReference (name : string) : string :=
  "{" +:+ dq +:+ "kind" +:+ dq +:+ ":" +:+ dq +:+ "OAuthRedirectReference" +:+ dq +:+
  "," +:+ dq +:+ "apiVersion" +:+ dq +:+ ":" +:+ dq +:+ "v1" +:+ dq +:+
  "," +:+ dq +:+ "reference" +:+ dq +:+ ":{" +:+ dq +:+ "kind" +:+ dq +:+ ":" +:+
  dq +:+ "Route" +:+ dq +:+ "," +:+ dq +:+ "name" +:+ dq +:+ ":" +:+ dq +:+
  name +:+ dq +:+ "}}".

Section Upgrade.
Context `{Deps} (env : Env) (cli : VanClient).

(** The two results of the Go function: [(updated, err)]. *)
Abbreviation Ret := (bool * option Err)%type.

(** Lines 65-112: the version check, the marker lookup, the [rename]
    decision, the marker creation and the metadata bump. The result is
    [(configmap, rename, inprogress, updateSite)]. *)
Definition checkVersion : M Ret (ConfigMap * bool * bool * bool) :=
  configmap ← orReturn false (Get env ConfigMaps TransportConfigMapName);
  config ← orReturn false (liftE (GetRouterConfigFromConfigMap configmap));
  let site := GetSiteMetadata config in
  (* compare to version of library running *)
  if LessRecentThanVersion Version (siteVersion site) then
    (* site is newer than client library, cannot update *)
    Return (false, Some (ErrOther ("Site (" +:+ siteVersion site +:+
                                   ") is newer than library (" +:+ Version +:+
                                   "); cannot update")))
  else
  '(inprogress, originalVersion) ← orReturn false (isUpdating env);
  let rename := if inprogress then LessRecentThanVersion originalVersion "0.5.0"
                else false in
  if MoreRecentThanVersion Version (siteVersion site)
     || (EquivalentVersion Version (siteVersion site)
         && negb (String.eqb Version (siteVersion site))) then
    '(rename, inprogress) ←
      (if negb inprogress && LessRecentThanVersion (siteVersion site) "0.5.0" then
         _ ← orReturn false
               (updateStarted env (siteVersion site) (OwnerReferences (cmMeta configmap)));
         ret (true, true)
       else ret (rename, inprogress));
    (* site is marked as older than library, need to update *)
    let site := {| siteId := siteId site; siteVersion := Version |} in
    let config := SetSiteMetadata site config in
    configmap ← orReturn false (liftE (UpdateConfigMap config configmap));
    _ ← orReturn false (Update env ConfigMaps configmap);
    ret (configmap, rename, inprogress, true)
  else ret (configmap, rename, inprogress, false).

Definition annotate (key value : string) (m : ObjectMeta) : ObjectMeta :=
  {| Name := Name m; OwnerReferences := OwnerReferences m;
     Annotations := <[key := value]> (Annotations m) |}.

(** The server credential minted for the transport service (lines 196-209). *)
Definition siteServerCredential (hosts : list string) : Credential :=
  {| CA := SiteCaSecret;
     credName := SiteServerSecret;
     Subject := firstShortHost TransportServiceName hosts;
     Hosts := hosts;
     ConnectJson := false |}.

(** Lines 117-339, the body of the first [if rename]: new resources are
    created as copies of the old ones. The result is
    [(usingRoutes, consoleUsesLoadbalancer, routerExposedAsIp)]. *)
Definition renameResources (configmap : ConfigMap) (namespace : string)
  : M Ret (bool * bool * bool) :=
  (* services *)
  _ ← unless IsAlreadyExists
        (CopyService env "skupper-messaging" LocalTransportServiceName ∅);
  _ ← unless IsAlreadyExists
        (CopyService env "skupper-internal" TransportServiceName ∅);
  let servingCertsAnnotation : gmap string string :=
    {[ "service.alpha.openshift.io/serving-cert-secret-name" := OauthConsoleSecret ]} in
  controllerSvc ← unless IsAlreadyExists
        (CopyService env "skupper-controller" ControllerServiceName servingCertsAnnotation);
  let consoleUsesLoadbalancer :=
    match controllerSvc with
    | Some svc => ServiceType_eqb (svcType svc) ServiceTypeLoadBalancer
    | None => false
    end in
  (* update annotation on skupper-router-console if it exists *)
  r ← catch (Get env Services RouterConsoleServiceName);
  _ ← match r with
      | inr routerConsoleService =>
          _ ← orReturn false
                (Update env Services
                   {| svcMeta := annotate "service.alpha.openshift.io/serving-cert-secret-name"
                                          OauthRouterConsoleSecret
                                          (svcMeta routerConsoleService);
                      svcType := svcType routerConsoleService;
                      svcSelector := svcSelector routerConsoleService;
                      svcPorts := svcPorts routerConsoleService;
                      svcIngress := svcIngress routerConsoleService |});
          ret tt
      | inl _ => ret tt
      end;
  (* secrets: ca's just need to be copied to new secret *)
  _ ← unless IsAlreadyExists (CopySecret env "skupper-ca" LocalCaSecret);
  _ ← unless IsAlreadyExists (CopySecret env "skupper-internal-ca" SiteCaSecret);
  (* credentials need to be regenerated to be valid for new service names *)
  let credentials :=
    [ {| CA := LocalCaSecret; credName := LocalServerSecret;
         Subject := LocalTransportServiceName;
         Hosts := [LocalTransportServiceName;
                   qualifiedServiceName LocalTransportServiceName namespace];
         ConnectJson := false |};
      {| CA := LocalCaSecret; credName := LocalClientSecret;
         Subject := LocalTransportServiceName;
         Hosts := [];
         ConnectJson := true |} ] in
  r ← catch (usingRoutes env cli);
  let usingRoutes := match r with inr b => b | inl _ => false end in
  '(credentials, routerExposedAsIp) ←
    (if usingRoutes then
       (* no need to regenerate certificate as route names have not changed *)
       _ ← unless IsAlreadyExists (CopySecret env "skupper-internal" SiteServerSecret);
       ret (credentials, false)
     else
       hosts ← orReturn false (getTransportHosts env namespace);
       let routerExposedAsIp :=
         match hosts with
         | host0 :: _ => ParseIP host0
         | [] => false
         end in
       ret (credentials ++ [siteServerCredential hosts], routerExposedAsIp));
  forRange credentials (fun cred =>
    let owner := head (OwnerReferences (cmMeta configmap)) in
    _ ← catch (NewSecret env cred owner);
    ret tt);;
  (* serviceaccounts *)
  _ ← unless IsAlreadyExists
        (CopyServiceAccount env "skupper" TransportServiceAccountName ∅);
  let annotationSubstitutions : gmap string string :=
    {[ "serviceaccounts.openshift.io/oauth-redirectreference.primary" :=
         "{'kind':'OAuthRedirectReference','apiVersion':'v1','reference':{'kind':'Route','name':'"
         +:+ ConsoleRouteName +:+ "'}}" ]} in
  _ ← unless IsAlreadyExists
        (CopyServiceAccount env "skupper-proxy-controller" ControllerServiceAccountName
                            annotationSubstitutions);
  (* roles *)
  let controllerRole :=
    {| roleMeta := {| Name := ControllerRoleName;
                      OwnerReferences := OwnerReferences (cmMeta configmap);
                      Annotations := ∅ |};
       roleRules := ControllerPolicyRule |} in
  _ ← unless IsAlreadyExists (CreateRole env controllerRole);
  _ ← unless IsAlreadyExists (CopyRole env "skupper-view" TransportRoleName);
  (* rolebindings *)
  let rolebindings :=
    [ {| rbMeta := {| Name := ControllerRoleBindingName;
                      OwnerReferences := OwnerReferences (cmMeta configmap);
                      Annotations := ∅ |};
         rbSubjects := [("ServiceAccount", ControllerServiceAccountName)];
         rbRoleRef := ("Role", ControllerRoleName) |};
      {| rbMeta := {| Name := TransportRoleBindingName;
                      OwnerReferences := OwnerReferences (cmMeta configmap);
                      Annotations := ∅ |};
         rbSubjects := [("ServiceAccount", TransportServiceAccountName)];
         rbRoleRef := ("Role", TransportRoleName) |} ] in
  forRange rolebindings (fun rolebinding =>
    _ ← unless IsAlreadyExists (CreateRoleBinding env rolebinding);
    ret tt);;
  (if RouteClient cli then
     (* routes: skupper-controller -> skupper *)
     r ← catch (Get env Routes "skupper-controller");
     _ ← match r with
         | inr original =>
             let route :=
               {| routeMeta := {| Name := ConsoleRouteName;
                                  OwnerReferences := OwnerReferences (routeMeta original);
                                  Annotations := ∅ |};
                  routePath := routePath original;
                  routePort := routePort original;
                  routeTLS := routeTLS original;
                  routeTo := ("Service", ControllerServiceName) |} in
             _ ← unless IsAlreadyExists (Create env Routes route);
             ret tt
         | inl err =>
             if negb (IsNotFound err) then Return (false, Some err) else ret tt
         end;
     (* need to update edge and inter-router routes to point at different service *)
     _ ← orReturn false
           (UpdateTargetServiceForRoute env EdgeRouteName TransportServiceName);
     _ ← orReturn false
           (UpdateTargetServiceForRoute env InterRouterRouteName TransportServiceName);
     ret tt
   else ret tt);;
  ret (usingRoutes, consoleUsesLoadbalancer, routerExposedAsIp).

(** Lines 342-378: the transport deployment. The result is [updateRouter]. *)
Definition updateRouterDeployment (hup rename updateSite routerExposedAsIp : bool)
  : M Ret bool :=
  router ← orReturn false (Get env Deployments TransportDeploymentName);
  let updateRouter := false in
  let '(router, updateRouter) :=
    if rename then
      (* update deployment: serviceaccount, mounted secrets, oauth proxy sidecar *)
      let spec := depPodSpec router in
      let spec := setServiceAccountName TransportServiceAccountName spec in
      let spec := UpdateSecretVolume spec "skupper-amqps" LocalServerSecret in
      let spec := UpdateSecretVolume spec "skupper-internal" SiteServerSecret in
      let spec := UpdateSecretVolume spec "skupper-proxy-certs" OauthRouterConsoleSecret in
      let spec := updateOauthProxyServiceAccount spec TransportServiceAccountName in
      (setPodSpec spec router, true)
    else (router, updateRouter) in
  let desiredRouterImage := GetRouterImageName in
  let '(router, updateRouter) :=
    if negb (String.eqb (cImage (podContainer0 (depPodSpec router))) desiredRouterImage) then
      (setPodSpec (setImage0 desiredRouterImage (depPodSpec router)) router, true)
    else (router, updateRouter) in
  if updateRouter || updateSite || hup then
    '(router, updateRouter) ←
      (if negb updateRouter then
         (* need to trigger a router redployment to pick up the revised metadata field *)
         router ← touch env router;
         ret (router, true)
       else ret (router, updateRouter));
    _ ← orReturn false (Update env Deployments router);
    (if routerExposedAsIp then
       Println "Sites previously linked to this one will require new tokens"
     else ret tt);;
    ret updateRouter
  else ret updateRouter.

(** The polling loop of lines 413-423 from iteration [i] on, entered with
    [host == ""] and [n] iterations left ([i + n = 120]); the result is the
    value of [host] when the loop ends. *)
Fixpoint pollConsoleHost {R} (n i : nat) : M R string :=
  match n with
  | 0 => ret ""
  | S n' =>
      (if (0 <? i)%nat then SleepSecond else ret tt);;
      r ← catch (GetService env ControllerServiceName);
      match r with
      | inl err =>
          Println ("Could not determine new console url: " +:+ Error err);;
          ret ""
      | inr service =>
          let host := GetLoadBalancerHostOrIP service in
          if String.eqb host "" then pollConsoleHost n' (S i) else ret host
      end
  end.

(** Lines 380-428: the controller deployment. The result is
    [updateController]. *)
Definition updateControllerDeployment (hup rename consoleUsesLoadbalancer : bool)
  : M Ret bool :=
  controller ← orReturn false (Get env Deployments ControllerDeploymentName);
  let updateController := false in
  let '(controller, updateController) :=
    if rename then
      (* update deployment: serviceaccount, mounted secrets, oauth proxy sidecar *)
      let spec := depPodSpec controller in
      let spec := setServiceAccountName ControllerServiceAccountName spec in
      let spec := UpdateSecretVolume spec "skupper" LocalClientSecret in
      let spec := UpdateSecretVolume spec "skupper-controller-certs" OauthConsoleSecret in
      let spec := updateOauthProxyServiceAccount spec ControllerServiceAccountName in
      (setPodSpec spec controller, true)
    else (controller, updateController) in
  let desiredControllerImage := GetServiceControllerImageName in
  let '(controller, updateController) :=
    if negb (String.eqb (cImage (podContainer0 (depPodSpec controller)))
                        desiredControllerImage) then
      (setPodSpec (setImage0 desiredControllerImage (depPodSpec controller)) controller, true)
    else (controller, updateController) in
  if updateController || hup then
    '(controller, updateController) ←
      (if negb updateController then
         (* trigger redeployment of service-controller to pick up latest image *)
         controller ← touch env controller;
         ret (controller, true)
       else ret (controller, updateController));
    _ ← orReturn false (Update env Deployments controller);
    (if consoleUsesLoadbalancer then
       host ← pollConsoleHost 120 0;
       if negb (String.eqb host "") then
         Println ("Console is now at http://" +:+ host +:+ ":8080")
       else ret tt
     else ret tt);;
    ret updateController
  else ret updateController.

(** [for _, name := range names { err = client.Delete(name); if err != nil &&
    !errors.IsNotFound(err) { return false, err } }] *)
Definition deleteAll {V} (c : Client V) (names : list string) : M Ret unit :=
  forRange names (fun name =>
    _ ← unless IsNotFound (Delete env c name);
    ret tt).

(** Lines 430-498, the body of the last [if rename]: old resources are
    deleted. *)
Definition deleteOldResources (usingRoutes : bool) : M Ret unit :=
  (if RouteClient cli then
     _ ← unless IsNotFound (Delete env Routes "skupper-controller");
     ret tt
   else ret tt);;
  let services := ["skupper-messaging"; "skupper-controller"] in
  let services :=
    if usingRoutes then
      (* only delete skupper-internal if using routes, as otherwise
         previously issued tokens will reference it *)
      services ++ ["skupper-internal"]
    else services in
  deleteAll Services services;;
  let secrets := ["skupper"; "skupper-amqps"; "skupper-ca"; "skupper-internal";
                  "skupper-internal-ca"] in
  deleteAll Secrets secrets;;
  let rolebindings := ["skupper-proxy-controller-skupper-edit"; "skupper-skupper-view"] in
  deleteAll RoleBindings rolebindings;;
  let serviceAccounts := ["skupper"; "skupper-proxy-controller"] in
  deleteAll ServiceAccounts serviceAccounts;;
  let roles := ["skupper-edit"; "skupper-view"] in
  deleteAll Roles roles.

(** Lines 113-499: the rename, the two deployments and the cleanup. The
    result is [(updateRouter, updateController)]. *)
Definition renameAndUpdate (hup : bool) (namespace : string) (configmap : ConfigMap)
    (rename updateSite : bool) : M Ret (bool * bool) :=
  '(usingRoutes, consoleUsesLoadbalancer, routerExposedAsIp) ←
    (if rename then renameResources configmap namespace
     else ret (false, false, false));
  updateRouter ← updateRouterDeployment hup rename updateSite routerExposedAsIp;
  updateController ← updateControllerDeployment hup rename consoleUsesLoadbalancer;
  (if rename then deleteOldResources usingRoutes else ret tt);;
  ret (updateRouter, updateController).

(** Lines 64-507. A value is the first result of a [return] with a nil
    error; [Return] carries the two results of every other [return]. *)
Definition RouterUpdateVersionInNamespace (hup : bool) (namespace : string)
  : M Ret bool :=
  '(configmap, rename, inprogress, updateSite) ← checkVersion;
  '(updateRouter, updateController) ←
    renameAndUpdate hup namespace configmap rename updateSite;
  (if inprogress then orReturn true (updateCompleted env) else ret tt);;
  ret (updateRouter || updateController || updateSite).

Definition RouterUpdateVersion (hup : bool) : M Ret bool :=
  RouterUpdateVersionInNamespace hup (Namespace cli).

End Upgrade.

(** What a caller of a Go function gets: the world after the call and the
    two results. *)
Definition call (m : M (bool * option Err) bool) (w : World)
  : World * (bool * option Err) :=
  match m w with
  | (w', inl updated) => (w', (updated, None))
  | (w', inr r) => (w', r)
  end.

(* ===================================================================== *)
(** ** The other entry points of [client/router_update.go] *)
(* ===================================================================== *)

(** [types.SiteConfig] as far as these entry points read it:
    [siteConfig.Spec.RouterLogging] and [siteConfig.Spec.Annotations], the
    latter [None] for a nil map. *)
Record SiteConfig {L : Type} := {
  SpecRouterLogging : L;
  SpecAnnotations : option (gmap string string)
}.
Arguments SiteConfig : clear implicits.

(** [reflect.DeepEqual(annotations, deployment.Spec.Template.ObjectMeta.Annotations)]
    for a deployment read from the API server. [DeepEqual] tells a nil map
    from an empty one. The annotations of the deployment are nil exactly
    when it has none (an empty map is not serialised), so a nil argument is
    equal to them when they are empty, and a non-nil argument when it is
    not empty and holds the same entries. *)
Definition DeepEqual (annotations : option (gmap string string))
    (current : gmap string string) : bool :=
  match annotations with
  | None => bool_decide (current = ∅)
  | Some m => bool_decide (m = current) && negb (bool_decide (current = ∅))
  end.

Section Settings.
Context `{Deps} (env : Env).

(** Of the other files of package [client] and of the packages [api/types]
    and [pkg/qdr]: the lookup of the site configuration, which may send
    requests of its own; the annotations that make Prometheus scrape the
    router; the change of the logging section of a router configuration,
    with whether it changed anything; the serialisation of a router
    configuration into a config map, whose error the code drops. *)
Context {L : Type}.
Variable SiteConfigInspect : ConfigMap -> M Err (SiteConfig L).
Variable TransportPrometheusAnnotations : gmap string string.
Variable configureRouterLogging : RouterConfig -> L -> RouterConfig * bool.
Variable WriteToConfigMap : RouterConfig -> ConfigMap -> ConfigMap.

(** Lines 509-543. The requests go to the namespace of [settings], which is
    the store. *)
Definition RouterUpdateLogging (settings : ConfigMap) (hup : bool)
  : M (bool * option Err) bool :=
  siteConfig ← orReturn false (SiteConfigInspect settings);
  configmap ← orReturn false (Get env ConfigMaps TransportConfigMapName);
  routerConfig ← orReturn false (liftE (GetRouterConfigFromConfigMap configmap));
  let '(routerConfig, updated) :=
    configureRouterLogging routerConfig (SpecRouterLogging siteConfig) in
  if updated then
    let configmap := WriteToConfigMap routerConfig configmap in
    _ ← orReturn false (Update env ConfigMaps configmap);
    (if hup then
       router ← orReturn false (Get env Deployments TransportDeploymentName);
       router ← touch env router;
       _ ← orReturn false (Update env Deployments router);
       ret tt
     else ret tt);;
    ret true
  else ret false.

(** Lines 571-585. *)
Definition updateAnnotationsOnDeployment (name : string)
    (annotations : option (gmap string string)) : M (bool * option Err) bool :=
  deployment ← orReturn false (Get env Deployments name);
  if negb (DeepEqual annotations (depTemplateAnnotations deployment)) then
    let deployment :=
      {| depMeta := depMeta deployment;
         depTemplateAnnotations := default ∅ annotations;
         depPodSpec := depPodSpec deployment |} in
    _ ← orReturn false (Update env Deployments deployment);
    ret true
  else ret false.

(** [for key, value := range from { to[key] = value }] *)
Definition copyInto (from to : gmap string string) : gmap string string :=
  map_fold (fun key value to => <[key := value]> to) to from.

(** Lines 587-608. [return updated, err] after a failed call returns what
    the call returned, which is [false] and the error. *)
Definition RouterUpdateAnnotations (settings : ConfigMap) : M (bool * option Err) bool :=
  siteConfig ← orReturn false (SiteConfigInspect settings);
  updated ← updateAnnotationsOnDeployment ControllerDeploymentName
              (SpecAnnotations siteConfig);
  let transportAnnotations := ∅ in
  let transportAnnotations := copyInto TransportPrometheusAnnotations transportAnnotations in
  let transportAnnotations :=
    copyInto (default ∅ (SpecAnnotations siteConfig)) transportAnnotations in
  updated ← updateAnnotationsOnDeployment TransportDeploymentName
              (Some transportAnnotations);
  ret updated.

(** Lines 610-618. *)
Definition RouterRestart : M Err unit :=
  router ← Get env Deployments TransportDeploymentName;
  router ← touch env router;
  _ ← Update env Deployments router;
  ret tt.

End Settings.

(* ===================================================================== *)
(** ** A concrete site *)
(* ===================================================================== *)

(** An implementation of [Deps] and a legacy site to run the code on. *)
Module Site.

Definition isDigit (c : ascii) : bool :=
  ((48 <=? nat_of_ascii c) && (nat_of_ascii c <=? 57))%nat.

(** The dot-separated decimal numbers at the start of [s], and what follows
    them; [cur] is the number being read. *)
Fixpoint readNumbers (s : string) (cur : nat) : list nat * string :=
  match s with
  | EmptyString => ([cur], EmptyString)
  | String c rest =>
      if isDigit c then readNumbers rest (cur * 10 + (nat_of_ascii c - 48))
      else if Ascii.eqb c "."%char then
        let '(ns, q) := readNumbers rest 0 in (cur :: ns, q)
      else ([cur], s)
  end.

(** Modelled from the spec: a version token is a "normalized numeric version"
    followed by a "build/pre-release qualifier"; the numeric part is read as
    major, minor and patch numbers, after an optional [v]. *)
Definition ParseVersion (s : string) : nat * nat * nat * string :=
  let s := match s with
           | String "v"%char rest => rest
           | _ => s
           end in
  let '(ns, q) := readNumbers s 0 in
  (nth 0 ns 0, nth 1 ns 0, nth 2 ns 0, q).

Definition numbersLt (a b : nat * nat * nat) : bool :=
  let '(a1, a2, a3) := a in
  let '(b1, b2, b3) := b in
  ((a1 <? b1) || ((a1 =? b1) && ((a2 <? b2) || ((a2 =? b2) && (a3 <? b3)))))%nat.

(** Modelled from the spec: "less-recent-than", "more-recent-than" and
    "equivalent (same numeric version, different build qualifier)" of
    [pkg/utils], which is not part of the file. *)
Definition lessRecentThan (a b : string) : bool :=
  numbersLt (fst (ParseVersion a)) (fst (ParseVersion b)).

Definition moreRecentThan (a b : string) : bool :=
  numbersLt (fst (ParseVersion b)) (fst (ParseVersion a)).

Definition equivalent (a b : string) : bool :=
  negb (lessRecentThan a b) && negb (moreRecentThan a b).

(** Four decimal numbers below 256 separated by dots: the addresses that
    [net.ParseIP] accepts, restricted to IPv4. *)
Definition parseIPv4 (s : string) : bool :=
  match s with
  | EmptyString => false
  | String c _ =>
      isDigit c &&
      match readNumbers s 0 with
      | ([a; b; c; d], EmptyString) =>
          ((a <? 256) && (b <? 256) && (c <? 256) && (d <? 256))%nat
      | _ => false
      end
  end.

(** The router configuration is kept in the config map under three keys. *)
Definition readConfig (cm : ConfigMap) : Err + RouterConfig :=
  match cmData cm !! "version" with
  | Some v =>
      inr {| rcSiteMetadata := {| siteId := default "" (cmData cm !! "id");
                                  siteVersion := v |};
             rcRest := default "" (cmData cm !! "qdrouterd.json") |}
  | None => inl (ErrOther "no router config")
  end.

Definition writeConfig (config : RouterConfig) (cm : ConfigMap) : Err + ConfigMap :=
  inr {| cmMeta := cmMeta cm;
         cmData := <["version" := siteVersion (rcSiteMetadata config)]>
                   (<["id" := siteId (rcSiteMetadata config)]>
                    (<["qdrouterd.json" := rcRest config]> (cmData cm))) |}.

(** The client library at version [version], with the names of the current
    naming scheme. *)
Definition library (version : string) : Deps :=
  {| Version := version;
     GetRouterImageName := "quay.io/skupper/skupper-router:" +:+ version;
     GetServiceControllerImageName := "quay.io/skupper/service-controller:" +:+ version;
     LessRecentThanVersion := lessRecentThan;
     MoreRecentThanVersion := moreRecentThan;
     EquivalentVersion := equivalent;
     GetRouterConfigFromConfigMap := readConfig;
     UpdateConfigMap := writeConfig;
     ParseIP := parseIPv4;
     TransportConfigMapName := "skupper-internal";
     TransportDeploymentName := "skupper-router";
     ControllerDeploymentName := "skupper-service-controller";
     LocalTransportServiceName := "skupper-router-local";
     TransportServiceName := "skupper-router";
     ControllerServiceName := "skupper";
     RouterConsoleServiceName := "skupper-router-console";
     OauthConsoleSecret := "skupper-console-certs";
     OauthRouterConsoleSecret := "skupper-router-console-certs";
     LocalCaSecret := "skupper-local-ca";
     SiteCaSecret := "skupper-site-ca";
     LocalServerSecret := "skupper-local-server";
     LocalClientSecret := "skupper-local-client";
     SiteServerSecret := "skupper-site-server";
     TransportServiceAccountName := "skupper-router";
     ControllerServiceAccountName := "skupper-service-controller";
     ControllerRoleName := "skupper-service-controller";
     TransportRoleName := "skupper-router";
     ControllerRoleBindingName := "skupper-service-controller";
     TransportRoleBindingName := "skupper-router";
     ControllerPolicyRule := ["services"; "configmaps"; "pods"; "secrets"];
     ConsoleRouteName := "skupper";
     EdgeRouteName := "skupper-edge";
     InterRouterRouteName := "skupper-inter-router";
     UpdatedAnnotation := "skupper.io/updated" |}.

Definition meta (name : string) : ObjectMeta :=
  {| Name := name; OwnerReferences := ["skupper-site"]; Annotations := ∅ |}.

Definition service (name : string) (type : ServiceType) (ingress : string) : Service :=
  {| svcMeta := meta name; svcType := type;
     svcSelector := {[ "skupper.io/component" := "router" ]};
     svcPorts := [443]; svcIngress := ingress |}.

Definition secret (name : string) : Secret :=
  {| secMeta := meta name; secData := {[ "tls.crt" := name ]}; secIssuedFor := None |}.

Definition deployment (name sa image : string) (volumes : list string) : Deployment :=
  {| depMeta := meta name;
     depTemplateAnnotations := ∅;
     depPodSpec :=
       {| podServiceAccountName := sa;
          podVolumes := map (fun v => {| volName := v; volSecretName := Some v |}) volumes;
          podContainer0 := {| cName := name; cImage := image; cArgs := [] |};
          podMoreContainers := [] |} |}.

Definition route (name target : string) : Route :=
  {| routeMeta := meta name; routePath := ""; routePort := "inter-router";
     routeTLS := "passthrough"; routeTo := ("Service", target) |}.

Definition siteConfig (version : string) : ConfigMap :=
  {| cmMeta := meta "skupper-internal";
     cmData := {[ "version" := version; "id" := "site-1";
                  "qdrouterd.json" := "[]" ]} |}.

(** A site as version [version] of the tool created it under the legacy
    naming scheme, with the transport and console services of the given
    types, the given routes, and the deployments running the given images. *)
Definition legacy (version : string) (type consoleType : ServiceType) (ingress : string)
    (routes : list Route) (routerImage controllerImage : string) : Store :=
  {| configmaps := {[ "skupper-internal" := siteConfig version ]};
     services := {[ "skupper-messaging" := service "skupper-messaging" ServiceTypeClusterIP "";
                    "skupper-internal" := service "skupper-internal" type ingress;
                    "skupper-controller" := service "skupper-controller" consoleType "" ]};
     secrets := list_to_map
                  (map (fun n => (n, secret n))
                       ["skupper"; "skupper-amqps"; "skupper-ca"; "skupper-internal";
                        "skupper-internal-ca"]);
     serviceaccounts := {[ "skupper" := {| saMeta := meta "skupper" |};
                           "skupper-proxy-controller" :=
                             {| saMeta := meta "skupper-proxy-controller" |} ]};
     roles := {[ "skupper-view" := {| roleMeta := meta "skupper-view";
                                      roleRules := ["pods"] |};
                 "skupper-edit" := {| roleMeta := meta "skupper-edit";
                                      roleRules := ["services"] |} ]};
     rolebindings :=
       {[ "skupper-skupper-view" :=
            {| rbMeta := meta "skupper-skupper-view";
               rbSubjects := [("ServiceAccount", "skupper")];
               rbRoleRef := ("Role", "skupper-view") |};
          "skupper-proxy-controller-skupper-edit" :=
            {| rbMeta := meta "skupper-proxy-controller-skupper-edit";
               rbSubjects := [("ServiceAccount", "skupper-proxy-controller")];
               rbRoleRef := ("Role", "skupper-edit") |} ]};
     routes := list_to_map (map (fun r => (Name (routeMeta r), r)) routes);
     deployments :=
       {[ "skupper-router" :=
            deployment "skupper-router" "skupper" routerImage
                       ["skupper-amqps"; "skupper-internal"];
          "skupper-service-controller" :=
            deployment "skupper-service-controller" "skupper-proxy-controller"
                       controllerImage ["skupper"] ]} |}.

Definition world (s : Store) : World :=
  {| store := s; ticks := 0; log := []; slept := 0; stdout := [] |}.

(** An environment that fails no request and assigns no address. *)
Definition quiet : Env :=
  {| fault := fun _ => None;
     lbAssign := fun _ _ => None;
     clock := fun n => "Mon, 02 Jan 2006 15:04:" +:+
                       String (ascii_of_nat (48 + n / 10 mod 10))
                         (String (ascii_of_nat (48 + n mod 10)) " -0700") |}.

(** An environment that fails the request numbered [n] and no other. *)
Definition failing (n : nat) : Env :=
  {| fault := fun k => if (k =? n)%nat then Some "timeout" else None;
     lbAssign := fun _ _ => None;
     clock := clock quiet |}.

(** The store [s] with the upgrade marker of a migration started from
    version [from]. *)
Definition withMarker (from : string) (s : Store) : Store :=
  setObjs ConfigMaps
    (<["skupper-update-state" :=
         {| cmMeta := meta "skupper-update-state"; cmData := {[ "from" := from ]} |}]>
       (configmaps s)) s.

Definition routerImage : string := "quay.io/skupper/skupper-router:0.6.0".
Definition controllerImage : string := "quay.io/skupper/service-controller:0.6.0".

Definition kube : VanClient := {| Namespace := "ns"; RouteClient := false |}.

End Site.

(* ===================================================================== *)
(** ** Specifications of computations *)
(* ===================================================================== *)

(** [obeys J Φ m Q E]: run from a world satisfying [J], the computation [m]
    only appends requests to the log, each of them satisfies [Φ], and the
    world it ends in satisfies [Q] if [m] yields a value and [E] if it
    returns from the function. *)
Definition obeys {R A} (J : World -> Prop) (Φ : Event -> Prop) (m : M R A)
    (Q : A -> World -> Prop) (E : R -> World -> Prop) : Prop :=
  forall w, J w ->
    exists evs, log (m w).1 = log w ++ evs /\ Forall Φ evs /\
                match (m w).2 with
                | inl a => Q a (m w).1
                | inr r => E r (m w).1
                end.

(** The world after a request that was served against [s] and answered
    with [e], the store being [s'] afterwards. *)
Definition answered (w : World) (verb : Verb) (kind : Kind) (name : string)
    (s s' : Store) (e : option Err) : World :=
  {| store := s'; ticks := S (ticks w);
     log := log w ++ [{| evVerb := verb; evKind := kind; evName := name;
                         evStore := s; evErr := e |}];
     slept := slept w; stdout := stdout w |}.

(** [inv J Φ F m]: [m] keeps the store invariant [J] whichever way it ends,
    every request it sends satisfies [Φ], and [F] holds of what it returns
    from the function with. *)
Definition inv {R A} (J : Store -> Prop) (Φ : Event -> Prop) (F : R -> Prop)
    (m : M R A) : Prop :=
  obeys (fun w => J (store w)) Φ m
        (fun _ w => J (store w)) (fun r w => F r /\ J (store w)).

(** [wp m K w]: the outcome of [m] run in the world [w] satisfies [K]. *)
Definition wp {R A} (m : M R A) (K : World -> A + R -> Prop) (w : World) : Prop :=
  K (m w).1 (m w).2.


(** *** The upgrade marker and the requests of an invocation *)

Definition marker : string := "skupper-update-state".

Definition hasMarker (s : Store) : Prop := is_Some (configmaps s !! marker).

(** A request by its verb, kind and name. *)
Definition isReq (verb : Verb) (kind : Kind) (name : string) (ev : Event) : Prop :=
  evVerb ev = verb /\ evKind ev = kind /\ evName ev = name.

Definition succeeded (ev : Event) : Prop := evErr ev = None.

Definition mutation (ev : Event) : Prop := mutating (evVerb ev) = true.

(** The mutating steps that only a migration takes: whatever changes an
    object other than a config map or a deployment. *)
Definition migrationStep (ev : Event) : Prop :=
  mutation ev /\ evKind ev <> KConfigMap /\ evKind ev <> KDeployment.

(** A mutation issued under the marker: it is the creation of the marker or
    is served against a store that holds the marker. *)
Definition underMarker (ev : Event) : Prop :=
  mutation ev -> isReq VCreate KConfigMap marker ev \/ hasMarker (evStore ev).

(** What every [return] with a non-nil error of the phases gives. *)
Definition failed (r : bool * option Err) : Prop := r.1 = false /\ is_Some r.2.

(** *** The cleanup *)

(** The legacy objects that the cleanup deletes, in the order of the code:
    the console route when the cluster has routes, the services, of which
    [skupper-internal] only when the site uses routes, the secrets, the role
    bindings, the service accounts and the roles. *)
Definition legacyObjects (routeClient usingRoutes : bool) : list (Kind * string) :=
  (if routeClient then [(KRoute, "skupper-controller")] else []) ++
  [(KService, "skupper-messaging"); (KService, "skupper-controller")] ++
  (if usingRoutes then [(KService, "skupper-internal")] else []) ++
  [(KSecret, "skupper"); (KSecret, "skupper-amqps"); (KSecret, "skupper-ca");
   (KSecret, "skupper-internal"); (KSecret, "skupper-internal-ca");
   (KRoleBinding, "skupper-proxy-controller-skupper-edit");
   (KRoleBinding, "skupper-skupper-view");
   (KServiceAccount, "skupper"); (KServiceAccount, "skupper-proxy-controller");
   (KRole, "skupper-edit"); (KRole, "skupper-view")].

Definition target (ev : Event) : Kind * string := (evKind ev, evName ev).

(** *** The subject of the server credential *)

Definition usable (host : string) : Prop := (String.length host < 64)%nat.

(** The subject that C7 describes: the shortest of the usable hosts. *)
Definition shortestUsable (subject : string) (hosts : list string) : Prop :=
  subject ∈ hosts /\ usable subject /\
  forall host, host ∈ hosts -> usable host ->
    (String.length subject <= String.length host)%nat.

(** The subject that the code selects: the first usable host, and
    [fallback] when no host is usable. *)
Definition firstUsable (fallback subject : string) (hosts : list string) : Prop :=
  (exists pre post, hosts = pre ++ subject :: post /\
     Forall (fun host => ~ usable host) pre /\ usable subject) \/
  (Forall (fun host => ~ usable host) hosts /\ subject = fallback).

(** *** The deployments outside a rename *)

(** [touch] applied at time [now]. *)
Definition touched `{Deps} (now : string) (d : Deployment) : Deployment :=
  {| depMeta := depMeta d;
     depTemplateAnnotations := <[UpdatedAnnotation := now]> (depTemplateAnnotations d);
     depPodSpec := depPodSpec d |}.

Definition imageOf (d : Deployment) : string :=
  cImage (podContainer0 (depPodSpec d)).

Definition withImage (image : string) (d : Deployment) : Deployment :=
  setPodSpec (setImage0 image (depPodSpec d)) d.

(** What an update outside a rename writes at time [now]: the deployment
    with the desired image when it runs another one, and with nothing but
    a new timestamp when it already runs the desired image. *)
Definition refreshed `{Deps} (desired now : string) (d : Deployment) : Deployment :=
  if String.eqb (imageOf d) desired then touched now d else withImage desired d.

Definition isRedeploy (ev : Event) : bool :=
  Verb_eqb (evVerb ev) VUpdate && Kind_eqb (evKind ev) KDeployment.

(** The deployments that the requests [evs] update, in order. *)
Definition redeployed (evs : list Event) : list string :=
  map evName (List.filter isRedeploy evs).

(** A request that neither creates nor deletes an object. *)
Definition readOrUpdate (ev : Event) : Prop :=
  evVerb ev = VGet \/ evVerb ev = VUpdate.

(** *** The polling loops *)

(** The seconds slept by a loop that is at iteration [i] and sends [k] more
    lookups: [if i > 0 { time.Sleep(time.Second) }] skips the pause before
    the first lookup. *)
Definition pauses (i k : nat) : nat :=
  match i with
  | 0 => k - 1
  | S _ => k
  end.

(** A lookup of the console service of the concrete site. *)
Definition isConsoleLookup (ev : Event) : bool :=
  Verb_eqb (evVerb ev) VGet && Kind_eqb (evKind ev) KService &&
  String.eqb (evName ev) "skupper".

(** *** The other entry points *)

(** The deployment [d] with the pod-template annotations [annotations]. *)
Definition annotated (annotations : option (gmap string string)) (d : Deployment)
  : Deployment :=
  {| depMeta := depMeta d;
     depTemplateAnnotations := default ∅ annotations;
     depPodSpec := depPodSpec d |}.

(** What the concrete runs of the other entry points use for the code that
    is not in the file: the site configuration is read from the settings
    without a request, the logging of a router configuration is the rest of
    it, and a router configuration is written as [Site.writeConfig] does. *)
Module Sample.

Definition SiteConfigInspect (settings : ConfigMap) : M Err (SiteConfig string) :=
  ret {| SpecRouterLogging := default "" (cmData settings !! "router-logging");
         SpecAnnotations :=
           match cmData settings !! "annotations" with
           | Some value => Some {[ "team" := value ]}
           | None => None
           end |}.

Definition TransportPrometheusAnnotations : gmap string string :=
  {[ "prometheus.io/port" := "9090"; "prometheus.io/scrape" := "true" ]}.

Definition configureRouterLogging (config : RouterConfig) (logging : string)
  : RouterConfig * bool :=
  if String.eqb (rcRest config) logging then (config, false)
  else ({| rcSiteMetadata := rcSiteMetadata config; rcRest := logging |}, true).

Definition WriteToConfigMap (config : RouterConfig) (cm : ConfigMap) : ConfigMap :=
  match Site.writeConfig config cm with
  | inr cm' => cm'
  | inl _ => cm
  end.

Definition settings (logging : string) (annotations : option string) : ConfigMap :=
  {| cmMeta := Site.meta "skupper-site";
     cmData := <["router-logging" := logging]>
                 (match annotations with
                  | Some value => {[ "annotations" := value ]}
                  | None => ∅
                  end) |}.

Definition site : Store :=
  Site.legacy "0.6.0" ServiceTypeClusterIP ServiceTypeClusterIP "" []
              Site.routerImage Site.controllerImage.

Definition router : Deployment :=
  Site.deployment "skupper-router" "skupper" Site.routerImage
                  ["skupper-amqps"; "skupper-internal"].

Definition controller : Deployment :=
  Site.deployment "skupper-service-controller" "skupper-proxy-controller"
                  Site.controllerImage ["skupper"].

End Sample.

(** *** An invocation after another *)

(** Every config map and every deployment is stored under its name, as
    the API server stores them. *)
Definition storedUnderName (s : Store) : Prop :=
  (forall name cm, configmaps s !! name = Some cm -> Name (cmMeta cm) = name) /\
  (forall name d, deployments s !! name = Some d -> Name (depMeta d) = name).

(** The config map records a site version that the library neither refuses
    nor bumps. *)
Definition current `{Deps} (cm : ConfigMap) : Prop :=
  exists config, GetRouterConfigFromConfigMap cm = inr config /\
    let version := siteVersion (GetSiteMetadata config) in
    LessRecentThanVersion Version version = false /\
    MoreRecentThanVersion Version version
    || EquivalentVersion Version version && negb (String.eqb Version version) = false.

(** A site that an invocation has nothing to do for: its version is
    current, no upgrade is in progress, and both deployments run the
    desired images. *)
Definition upToDate `{Deps} (s : Store) : Prop :=
  (exists cm, configmaps s !! TransportConfigMapName = Some cm /\ current cm) /\
  configmaps s !! marker = None /\
  (exists d, deployments s !! TransportDeploymentName = Some d /\
             imageOf d = GetRouterImageName) /\
  (exists d, deployments s !! ControllerDeploymentName = Some d /\
             imageOf d = GetServiceControllerImageName).

(** What is assumed of the code that is not in the file: writing a router
    configuration into a config map keeps the metadata of the config map
    and is read back with the same site metadata; the library's version is
    neither less nor more recent than itself; the two deployments have
    different names, and the router's config map is not the marker. *)
Definition lawful `{Deps} : Prop :=
  (forall config cm cm', UpdateConfigMap config cm = inr cm' ->
     cmMeta cm' = cmMeta cm /\
     exists config', GetRouterConfigFromConfigMap cm' = inr config' /\
                     GetSiteMetadata config' = GetSiteMetadata config) /\
  LessRecentThanVersion Version Version = false /\
  MoreRecentThanVersion Version Version = false /\
  TransportDeploymentName <> ControllerDeploymentName /\
  TransportConfigMapName <> marker.

(** A request that is not about a route. *)
Definition notAboutRoutes (ev : Event) : Prop := evKind ev <> KRoute.

(** A request that creates or deletes neither a deployment nor a config map
    other than the upgrade marker. *)
Definition keepsWorkloadsAndConfiguration (ev : Event) : Prop :=
  (evKind ev = KDeployment -> evVerb ev = VGet \/ evVerb ev = VUpdate) /\
  (evKind ev = KConfigMap ->
   evVerb ev = VGet \/ evVerb ev = VUpdate \/ evName ev = marker).

(** A request that deletes nothing but a legacy object or the marker. *)
Definition deletesLegacyOnly (ev : Event) : Prop :=
  evVerb ev = VDelete ->
  target ev ∈ (KConfigMap, marker) :: legacyObjects true true.

(* ===================================================================== *)
(** ** The program logic *)
(* ===================================================================== *)

Section Logic.
Context {R : Type} (Φ : Event -> Prop).

Lemma obeys_ret {A} (J : World -> Prop) (a : A) (Q : A -> World -> Prop)
    (E : R -> World -> Prop) :
  (forall w, J w -> Q a w) -> obeys J Φ (ret a) Q E.
Proof.
  intros HQ w Hw. exists []. rewrite app_nil_r. simpl. auto.
Qed.

Lemma obeys_Return {A} (J : World -> Prop) (r : R) (Q : A -> World -> Prop)
    (E : R -> World -> Prop) :
  (forall w, J w -> E r w) -> obeys J Φ (Return r) Q E.
Proof.
  intros HE w Hw. exists []. rewrite app_nil_r. simpl. auto.
Qed.

Lemma obeys_bind {A B} (J : World -> Prop) (m : M R A) (f : A -> M R B)
    (Q' : A -> World -> Prop) (Q : B -> World -> Prop) (E : R -> World -> Prop) :
  obeys J Φ m Q' E ->
  (forall a, obeys (Q' a) Φ (f a) Q E) ->
  obeys J Φ (bind m f) Q E.
Proof.
  intros Hm Hf w Hw. destruct (Hm w Hw) as (evs & Hlog & Hevs & Hres).
  unfold bind. destruct (m w) as [w1 [a|r]]; simpl in *.
  - destruct (Hf a w1 Hres) as (evs' & Hlog' & Hevs' & Hres').
    exists (evs ++ evs'). rewrite Hlog', Hlog, app_assoc.
    split; [done|]. split; [by apply Forall_app|done].
  - exists evs. auto.
Qed.

Lemma obeys_conseq {A} (J J' : World -> Prop) (m : M R A)
    (Q Q' : A -> World -> Prop) (E E' : R -> World -> Prop) :
  obeys J' Φ m Q' E' ->
  (forall w, J w -> J' w) ->
  (forall a w, Q' a w -> Q a w) ->
  (forall r w, E' r w -> E r w) ->
  obeys J Φ m Q E.
Proof.
  intros Hm HJ HQ HE w Hw. destruct (Hm w (HJ w Hw)) as (evs & Hlog & Hevs & Hres).
  exists evs. split; [done|]. split; [done|].
  destruct ((m w).2); auto.
Qed.

Lemma obeys_catch {X A} (J : World -> Prop) (m : M X A)
    (Q : X + A -> World -> Prop) (E : R -> World -> Prop) :
  obeys J Φ m (fun a => Q (inr a)) (fun e => Q (inl e)) ->
  obeys J Φ (catch (R:=R) m) Q E.
Proof.
  intros Hm w Hw. destruct (Hm w Hw) as (evs & Hlog & Hevs & Hres).
  exists evs. unfold catch. destruct (m w) as [w1 [a|e]]; simpl in *; auto.
Qed.

Lemma obeys_forRange {A} (J : World -> Prop) (l : list A) (body : A -> M R unit)
    (E : R -> World -> Prop) :
  (forall x, x ∈ l -> obeys J Φ (body x) (fun _ => J) E) ->
  obeys J Φ (forRange l body) (fun _ => J) E.
Proof.
  induction l as [|x l IH]; intros Hbody; simpl.
  - by apply obeys_ret.
  - eapply obeys_bind.
    + apply Hbody. apply elem_of_cons. by left.
    + intros u. apply IH. intros y Hy. apply Hbody. apply elem_of_cons. by right.
Qed.

Lemma obeys_Println (J : World -> Prop) (line : string)
    (Q : unit -> World -> Prop) (E : R -> World -> Prop) :
  (forall w, J w ->
     Q tt {| store := store w; ticks := ticks w; log := log w;
             slept := slept w; stdout := stdout w ++ [line] |}) ->
  obeys J Φ (Println line) Q E.
Proof.
  intros HQ w Hw. exists []. rewrite app_nil_r. simpl. auto.
Qed.

Lemma obeys_SleepSecond (J : World -> Prop)
    (Q : unit -> World -> Prop) (E : R -> World -> Prop) :
  (forall w, J w ->
     Q tt {| store := store w; ticks := ticks w; log := log w;
             slept := S (slept w); stdout := stdout w |}) ->
  obeys J Φ SleepSecond Q E.
Proof.
  intros HQ w Hw. exists []. rewrite app_nil_r. simpl. auto.
Qed.

End Logic.

Lemma obeys_orReturn {A} (Φ : Event -> Prop) (J : World -> Prop) (flag : bool)
    (m : M Err A) (Q : A -> World -> Prop) (E : bool * option Err -> World -> Prop) :
  obeys J Φ m Q (fun e => E (flag, Some e)) ->
  obeys J Φ (orReturn flag m) Q E.
Proof.
  intros Hm w Hw. destruct (Hm w Hw) as (evs & Hlog & Hevs & Hres).
  exists evs. unfold orReturn. destruct (m w) as [w1 [a|e]]; simpl in *; auto.
Qed.

Lemma obeys_unless {A} (Φ : Event -> Prop) (J : World -> Prop) (tolerated : Err -> bool)
    (m : M Err A) (Q : option A -> World -> Prop)
    (E : bool * option Err -> World -> Prop) :
  obeys J Φ m (fun a => Q (Some a))
        (fun e w => if tolerated e then Q None w else E (false, Some e) w) ->
  obeys J Φ (unless tolerated m) Q E.
Proof.
  intros Hm w Hw. destruct (Hm w Hw) as (evs & Hlog & Hevs & Hres).
  exists evs. unfold unless. destruct (m w) as [w1 [a|e]]; simpl in *; auto.
  destruct (tolerated e); simpl; auto.
Qed.

Lemma obeys_liftE {A} (Φ : Event -> Prop) (J : World -> Prop) (r : Err + A)
    (Q : A -> World -> Prop) (E : Err -> World -> Prop) :
  (forall w, J w -> match r with inl e => E e w | inr a => Q a w end) ->
  obeys J Φ (liftE r) Q E.
Proof.
  intros H w Hw. exists []. rewrite app_nil_r. specialize (H w Hw).
  unfold liftE. destruct r; simpl; auto.
Qed.


Lemma request_eq (env : Env) {V A} (verb : Verb) (c : Client V) (name : string)
    (serve : gmap string V -> Err + (gmap string V * A)) (w : World) :
  request env verb c name serve w =
    let s := provision (lbAssign env (ticks w)) (store w) in
    match fault env (ticks w) with
    | Some msg => (answered w verb (kindOf c) name s s (Some (ErrOther msg)),
                   inr (ErrOther msg))
    | None =>
        match serve (objs c s) with
        | inl e => (answered w verb (kindOf c) name s s (Some e), inr e)
        | inr (m, a) => (answered w verb (kindOf c) name s (setObjs c m s) None, inl a)
        end
    end.
Proof.
  unfold request, answered. simpl.
  destruct (fault env (ticks w)); [done|].
  destruct (serve _) as [e|[m a]]; done.
Qed.

Lemma obeys_request (env : Env) {V A} (Φ : Event -> Prop) (J : World -> Prop)
    (verb : Verb) (c : Client V) (name : string)
    (serve : gmap string V -> Err + (gmap string V * A))
    (Q : A -> World -> Prop) (E : Err -> World -> Prop) :
  (forall w, J w ->
     let s := provision (lbAssign env (ticks w)) (store w) in
     let ev := fun e => {| evVerb := verb; evKind := kindOf c; evName := name;
                           evStore := s; evErr := e |} in
     match fault env (ticks w) with
     | Some msg =>
         Φ (ev (Some (ErrOther msg))) /\
         E (ErrOther msg) (answered w verb (kindOf c) name s s (Some (ErrOther msg)))
     | None =>
         match serve (objs c s) with
         | inl e => Φ (ev (Some e)) /\
                    E e (answered w verb (kindOf c) name s s (Some e))
         | inr (m, a) => Φ (ev None) /\
                    Q a (answered w verb (kindOf c) name s (setObjs c m s) None)
         end
     end) ->
  obeys J Φ (request env verb c name serve) Q E.
Proof.
  intros H w Hw. specialize (H w Hw). rewrite request_eq. simpl in *.
  destruct (fault env (ticks w)) as [msg|].
  - destruct H as [HΦ HE]. eexists [_]. simpl. split; [done|].
    split; [|done]. by apply Forall_singleton.
  - destruct (serve _) as [e|[m a]]; destruct H as [HΦ HQ];
      (eexists [_]; simpl; split; [done|]; split; [by apply Forall_singleton|done]).
Qed.

(** *** Store invariants *)

Section Invariants.
Context (J : Store -> Prop) (Φ : Event -> Prop).

Lemma inv_ret {R A} (F : R -> Prop) (a : A) : inv J Φ F (ret a).
Proof. apply obeys_ret. auto. Qed.

Lemma inv_Return {R A} (F : R -> Prop) (r : R) : F r -> inv J Φ F (Return (A:=A) r).
Proof. intros. apply obeys_Return. auto. Qed.

Lemma inv_bind {R A B} (F : R -> Prop) (m : M R A) (f : A -> M R B) :
  inv J Φ F m -> (forall a, inv J Φ F (f a)) -> inv J Φ F (bind m f).
Proof. intros Hm Hf. eapply obeys_bind; [apply Hm|]. intros a. apply Hf. Qed.

Lemma inv_weaken {R A} (F F' : R -> Prop) (m : M R A) :
  inv J Φ F' m -> (forall r, F' r -> F r) -> inv J Φ F m.
Proof.
  intros Hm HF. eapply obeys_conseq; [apply Hm| | |]; simpl; auto.
  intros r w [? ?]. auto.
Qed.

Lemma inv_catch {R X A} (F : R -> Prop) (F' : X -> Prop) (m : M X A) :
  inv J Φ F' m -> inv J Φ F (catch m).
Proof.
  intros Hm. apply obeys_catch.
  eapply obeys_conseq; [apply Hm| | |]; simpl; auto. by intros r w [_ ?].
Qed.

Lemma inv_orReturn {A} (F : bool * option Err -> Prop) (F' : Err -> Prop)
    (flag : bool) (m : M Err A) :
  inv J Φ F' m -> (forall e, F' e -> F (flag, Some e)) -> inv J Φ F (orReturn flag m).
Proof.
  intros Hm HF. apply obeys_orReturn.
  eapply obeys_conseq; [apply Hm| | |]; simpl; auto.
  intros e w [? ?]. auto.
Qed.

Lemma inv_unless {A} (F : bool * option Err -> Prop) (F' : Err -> Prop)
    (tolerated : Err -> bool) (m : M Err A) :
  inv J Φ F' m ->
  (forall e, F' e -> tolerated e = false -> F (false, Some e)) ->
  inv J Φ F (unless tolerated m).
Proof.
  intros Hm HF. apply obeys_unless.
  eapply obeys_conseq; [apply Hm| | |]; simpl; auto.
  intros e w [? ?]. destruct (tolerated e) eqn:Ht; auto.
Qed.

Lemma inv_forRange {R A} (F : R -> Prop) (l : list A) (body : A -> M R unit) :
  (forall x, x ∈ l -> inv J Φ F (body x)) -> inv J Φ F (forRange l body).
Proof. intros Hbody. apply obeys_forRange. exact Hbody. Qed.

Lemma inv_liftE {A} (F : Err -> Prop) (r : Err + A) :
  (forall e, F e) -> inv J Φ F (liftE r).
Proof. intros HF. apply obeys_liftE. intros w Hw. destruct r; auto. Qed.

Lemma inv_Println {R} (F : R -> Prop) (line : string) : inv J Φ F (Println line).
Proof. apply obeys_Println. auto. Qed.

Lemma inv_SleepSecond {R} (F : R -> Prop) : inv J Φ F SleepSecond.
Proof. apply obeys_SleepSecond. auto. Qed.

Lemma inv_Now {R} (env : Env) (F : R -> Prop) : inv J Φ F (Now env).
Proof. intros w Hw. exists []. rewrite app_nil_r. simpl. auto. Qed.

(** A request keeps [J] when the provisioning of addresses and the change
    it makes to the objects of its kind do, and satisfies [Φ] when every
    request of its verb, kind and name does in a store satisfying [J]. *)
Lemma inv_request (env : Env) {V A} (F : Err -> Prop) (verb : Verb) (c : Client V)
    (name : string) (serve : gmap string V -> Err + (gmap string V * A)) :
  (forall a s, J s -> J (provision a s)) ->
  (forall s e, J s -> Φ {| evVerb := verb; evKind := kindOf c; evName := name;
                           evStore := s; evErr := e |}) ->
  (forall s m a, J s -> serve (objs c s) = inr (m, a) -> J (setObjs c m s)) ->
  (forall e, F e) ->
  inv J Φ F (request env verb c name serve).
Proof.
  intros Hprov HΦ Hset HF. apply obeys_request. intros w Hw. simpl.
  pose proof (Hprov (lbAssign env (ticks w)) _ Hw) as Hs.
  destruct (fault env (ticks w)); [by auto|].
  destruct (serve _) as [e|[m a]] eqn:Hserve; [by auto|].
  split; [by auto|]. eapply Hset; eauto.
Qed.

End Invariants.

(** One step of a proof that a computation keeps an invariant; helpers
    called for their error are given the trivial condition on it. *)
Ltac inv_step :=
  lazymatch goal with
  | |- inv _ _ _ (bind _ _) => apply inv_bind; [|intros]
  | |- inv _ _ _ (ret _) => apply inv_ret
  | |- inv _ _ _ (Return _) => apply inv_Return
  | |- inv _ _ _ (catch _) => apply inv_catch with (F' := fun _ => True)
  | |- inv _ _ _ (orReturn _ _) =>
      apply inv_orReturn with (F' := fun _ => True); [|intros]
  | |- inv _ _ _ (unless _ _) =>
      apply inv_unless with (F' := fun _ => True); [|intros]
  | |- inv _ _ _ (forRange _ _) => apply inv_forRange; intros
  | |- inv _ _ _ (liftE _) => apply inv_liftE; intros
  | |- inv _ _ _ (Println _) => apply inv_Println
  | |- inv _ _ _ SleepSecond => apply inv_SleepSecond
  | |- inv _ _ _ (Now _) => apply inv_Now
  | |- inv _ _ _ (request _ _ _ _ _) => apply inv_request
  | |- inv _ _ _ (if ?b then _ else _) => destruct b
  | |- inv _ _ _ (match ?x with _ => _ end) => destruct x
  end.

Ltac unfold_kube :=
  unfold updateStarted, updateCompleted, isUpdating, usingRoutes, touch,
    deleteAll;
  unfold CopyService, CopySecret, CopyServiceAccount, CopyRole, CreateRole,
    CreateRoleBinding, UpdateTargetServiceForRoute, NewSecret, GetRoute,
    GetService;
  unfold Get, Create, Update, Delete.

(** *** Symbolic execution *)

Section Wp.
Context {R : Type}.

Lemma wp_ret {A} (a : A) (K : World -> A + R -> Prop) w :
  K w (inl a) -> wp (ret a) K w.
Proof. done. Qed.

Lemma wp_Return {A} (r : R) (K : World -> A + R -> Prop) w :
  K w (inr r) -> wp (Return r) K w.
Proof. done. Qed.

Lemma wp_bind {A B} (m : M R A) (f : A -> M R B) (K : World -> B + R -> Prop) w :
  wp m (fun w1 r => match r with
                    | inl a => wp (f a) K w1
                    | inr r => K w1 (inr r)
                    end) w ->
  wp (bind m f) K w.
Proof. unfold wp, bind. destruct (m w) as [w1 [a|r]]; done. Qed.

Lemma wp_catch {X A} (m : M X A) (K : World -> (X + A) + R -> Prop) w :
  wp m (fun w1 r => match r with
                    | inl a => K w1 (inl (inr a))
                    | inr e => K w1 (inl (inl e))
                    end) w ->
  wp (catch m) K w.
Proof. unfold wp, catch. destruct (m w) as [w1 [a|r]]; done. Qed.

Lemma wp_Println (line : string) (K : World -> unit + R -> Prop) w :
  K {| store := store w; ticks := ticks w; log := log w; slept := slept w;
       stdout := stdout w ++ [line] |} (inl tt) ->
  wp (Println line) K w.
Proof. done. Qed.

Lemma wp_SleepSecond (K : World -> unit + R -> Prop) w :
  K {| store := store w; ticks := ticks w; log := log w; slept := S (slept w);
       stdout := stdout w |} (inl tt) ->
  wp SleepSecond K w.
Proof. done. Qed.

Lemma wp_Now (env : Env) (K : World -> string + R -> Prop) w :
  K w (inl (clock env (ticks w))) -> wp (Now env) K w.
Proof. done. Qed.

Lemma wp_conseq {A} (m : M R A) (K K' : World -> A + R -> Prop) w :
  wp m K' w -> (forall w1 r, K' w1 r -> K w1 r) -> wp m K w.
Proof. unfold wp. auto. Qed.

End Wp.

Lemma wp_orReturn {A} (flag : bool) (m : M Err A)
    (K : World -> A + bool * option Err -> Prop) w :
  wp m (fun w1 r => match r with
                    | inl a => K w1 (inl a)
                    | inr e => K w1 (inr (flag, Some e))
                    end) w ->
  wp (orReturn flag m) K w.
Proof. unfold wp, orReturn. destruct (m w) as [w1 [a|r]]; done. Qed.

Lemma wp_unless {A} (tolerated : Err -> bool) (m : M Err A)
    (K : World -> option A + bool * option Err -> Prop) w :
  wp m (fun w1 r => match r with
                    | inl a => K w1 (inl (Some a))
                    | inr e => if tolerated e then K w1 (inl None)
                               else K w1 (inr (false, Some e))
                    end) w ->
  wp (unless tolerated m) K w.
Proof.
  unfold wp, unless. destruct (m w) as [w1 [a|e]]; [done|].
  simpl. by destruct (tolerated e).
Qed.

Lemma wp_liftE {A} (r : Err + A) (K : World -> A + Err -> Prop) w :
  match r with inl e => K w (inr e) | inr a => K w (inl a) end ->
  wp (liftE r) K w.
Proof. unfold wp, liftE. by destruct r. Qed.

Lemma wp_request (env : Env) {V A} (verb : Verb) (c : Client V) (name : string)
    (serve : gmap string V -> Err + (gmap string V * A))
    (K : World -> A + Err -> Prop) w :
  (forall w1, ticks w1 = S (ticks w) -> slept w1 = slept w -> stdout w1 = stdout w ->
     forall s, s = provision (lbAssign env (ticks w)) (store w) ->
     forall e, log w1 = log w ++ [{| evVerb := verb; evKind := kindOf c; evName := name;
                                     evStore := s; evErr := e |}] ->
     match fault env (ticks w) with
     | Some msg => e = Some (ErrOther msg) -> store w1 = s -> K w1 (inr (ErrOther msg))
     | None =>
         match serve (objs c s) with
         | inl e' => e = Some e' -> store w1 = s -> K w1 (inr e')
         | inr (m, a) => e = None -> store w1 = setObjs c m s -> K w1 (inl a)
         end
     end) ->
  wp (request env verb c name serve) K w.
Proof.
  intros HK. unfold wp. rewrite request_eq. cbv zeta.
  set (s := provision (lbAssign env (ticks w)) (store w)) in *.
  destruct (fault env (ticks w)) as [msg|].
  - by apply (HK (answered w verb (kindOf c) name s s (Some (ErrOther msg)))
                 eq_refl eq_refl eq_refl s eq_refl _ eq_refl).
  - destruct (serve (objs c s)) as [e|[m a]] eqn:Hsv.
    + pose proof (HK (answered w verb (kindOf c) name s s (Some e))
                     eq_refl eq_refl eq_refl s eq_refl _ eq_refl) as HK'.
      rewrite Hsv in HK'. by apply HK'.
    + pose proof (HK (answered w verb (kindOf c) name s (setObjs c m s) None)
                     eq_refl eq_refl eq_refl s eq_refl _ eq_refl) as HK'.
      rewrite Hsv in HK'. by apply HK'.
Qed.

Lemma wp_obeys {R A} (J : World -> Prop) (Φ : Event -> Prop) (m : M R A)
    (Q : A -> World -> Prop) (E : R -> World -> Prop) w :
  obeys J Φ m Q E -> J w ->
  wp m (fun w1 r => exists evs, log w1 = log w ++ evs /\ Forall Φ evs /\
                      match r with inl a => Q a w1 | inr r => E r w1 end) w.
Proof. intros Hm Hw. exact (Hm w Hw). Qed.

(** One step of the symbolic execution of a computation, in program order. *)
Ltac wp_step :=
  lazymatch goal with
  | |- wp (bind _ _) _ _ => apply wp_bind
  | |- wp (ret _) _ _ => apply wp_ret
  | |- wp (Return _) _ _ => apply wp_Return
  | |- wp (catch _) _ _ => apply wp_catch
  | |- wp (orReturn _ _) _ _ => apply wp_orReturn
  | |- wp (unless _ _) _ _ => apply wp_unless
  | |- wp (liftE ?r) _ _ =>
      apply wp_liftE; let Hr := fresh "Hr" in destruct r eqn:Hr
  | |- wp (Println _) _ _ => apply wp_Println
  | |- wp SleepSecond _ _ => apply wp_SleepSecond
  | |- wp (Now _) _ _ => apply wp_Now
  | |- wp (request ?env _ _ _ _) _ ?w =>
      apply wp_request;
      let w1 := fresh "w" in let s := fresh "s" in let e := fresh "e" in
      let Ht := fresh "Hticks" in let Hsl := fresh "Hslept" in
      let Hout := fresh "Hstdout" in let Hs := fresh "Hs" in
      let Hlog := fresh "Hlog" in let He := fresh "He" in
      let Hst := fresh "Hstore" in let Hf := fresh "Hfault" in
      intros w1 Ht Hsl Hout s Hs e Hlog;
      destruct (fault env (ticks w)) eqn:Hf;
      [ intros He Hst
      | lazymatch goal with
        | |- match match ?l with _ => _ end with _ => _ end =>
            let Hl := fresh "Hlook" in destruct l eqn:Hl; intros He Hst
        end ]
  | |- wp (if ?b then _ else _) _ _ =>
      let Hb := fresh "Hb" in destruct b eqn:Hb
  | |- wp (match ?x with _ => _ end) _ _ => destruct x
  end; cbv beta iota.

Ltac store_cbn :=
  cbn [objs setObjs kindOf nameOf ConfigMaps Services Secrets ServiceAccounts
       Roles RoleBindings Routes Deployments provision configmaps services
       secrets serviceaccounts roles rolebindings routes deployments
       store log ticks slept stdout evVerb evKind evName evStore evErr
       Name cmMeta svcMeta secMeta saMeta roleMeta rbMeta routeMeta depMeta
       fst snd] in *.

(** The requests sent since [w], from the equations of a symbolic execution. *)
Ltac wp_log :=
  subst; store_cbn;
  repeat (match goal with
          | H : store ?w = _ |- _ => rewrite H in *; clear H
          end; store_cbn);
  repeat match goal with
         | H : log ?w = _ |- context [log ?w] => rewrite H
         end;
  rewrite <- ?app_assoc; simpl app;
  try (eexists; split; [reflexivity|]).

Ltac marker_tac :=
  unfold hasMarker, marker in *; store_cbn;
  rewrite ?lookup_insert_is_Some';
  first [ assumption | (by left) | (eexists; eassumption)
        | (right; eexists; eassumption) | (by eauto) ].

Ltac forall_list := repeat first [apply Forall_nil_2 | apply Forall_cons_2].

Ltac underMarker_tac :=
  forall_list; unfold underMarker, mutation, isReq; store_cbn;
  cbn [mutating]; intros; try discriminate;
  first [ by left | right; marker_tac ].

(** *** The phases and the config maps *)

Section Frames.
Context `{Deps} (env : Env) (cli : VanClient).
Context (J : Store -> Prop) (Φ : Event -> Prop).

Ltac frame_side HJ HΦ :=
  intros; cbn in *;
  first [ exact I
        | eapply HΦ; solve [ eauto | discriminate ]
        | eapply HJ; [eassumption | reflexivity ..] ].

Lemma pollTransportHost_inv n i :
  (forall s s', J s -> configmaps s' = configmaps s ->
                deployments s' = deployments s -> J s') ->
  (forall verb kind name s e, kind <> KConfigMap -> kind <> KDeployment -> J s ->
     Φ {| evVerb := verb; evKind := kind; evName := name; evStore := s; evErr := e |}) ->
  inv J Φ (fun _ : Err => True) (pollTransportHost env n i).
Proof.
  intros HJ HΦ. revert i. induction n as [|n IH]; intros i; simpl.
  - apply inv_ret.
  - unfold_kube. repeat inv_step; try apply IH; frame_side HJ HΦ.
Qed.

Lemma renameResources_inv cm ns :
  (forall s s', J s -> configmaps s' = configmaps s ->
                deployments s' = deployments s -> J s') ->
  (forall verb kind name s e, kind <> KConfigMap -> kind <> KDeployment -> J s ->
     Φ {| evVerb := verb; evKind := kind; evName := name; evStore := s; evErr := e |}) ->
  inv J Φ failed (renameResources env cli cm ns).
Proof.
  intros HJ HΦ. unfold renameResources, getTransportHosts. unfold_kube.
  repeat inv_step; try (apply pollTransportHost_inv; assumption).
  all: try solve [frame_side HJ HΦ].
  all: try (split; simpl; eauto).
Qed.

Lemma deleteOldResources_inv ur :
  (forall s s', J s -> configmaps s' = configmaps s ->
                deployments s' = deployments s -> J s') ->
  (forall verb kind name s e, kind <> KConfigMap -> kind <> KDeployment -> J s ->
     Φ {| evVerb := verb; evKind := kind; evName := name; evStore := s; evErr := e |}) ->
  inv J Φ failed (deleteOldResources env cli ur).
Proof.
  intros HJ HΦ. unfold deleteOldResources. unfold_kube.
  repeat inv_step.
  all: try solve [frame_side HJ HΦ].
  all: try (split; simpl; eauto).
Qed.

Lemma updateRouterDeployment_inv hup rename us ip :
  (forall s s', J s -> configmaps s' = configmaps s -> J s') ->
  (forall verb name s e, J s ->
     Φ {| evVerb := verb; evKind := KDeployment; evName := name; evStore := s; evErr := e |}) ->
  inv J Φ failed (updateRouterDeployment env hup rename us ip).
Proof.
  intros HJ HΦ. unfold updateRouterDeployment. unfold_kube.
  repeat inv_step.
  all: try solve [frame_side HJ HΦ].
  all: try (split; simpl; eauto).
Qed.

Lemma pollConsoleHost_inv {R} (F : R -> Prop) n i :
  (forall s s', J s -> configmaps s' = configmaps s -> J s') ->
  (forall name s e, J s ->
     Φ {| evVerb := VGet; evKind := KService; evName := name; evStore := s; evErr := e |}) ->
  inv J Φ F (pollConsoleHost env n i).
Proof.
  intros HJ HΦ. revert i. induction n as [|n IH]; intros i; simpl.
  - apply inv_ret.
  - unfold_kube. repeat inv_step; try apply IH; frame_side HJ HΦ.
Qed.

Lemma updateControllerDeployment_inv_nolb hup rename :
  (forall s s', J s -> configmaps s' = configmaps s -> J s') ->
  (forall verb name s e, J s ->
     Φ {| evVerb := verb; evKind := KDeployment; evName := name; evStore := s; evErr := e |}) ->
  inv J Φ failed (updateControllerDeployment env hup rename false).
Proof.
  intros HJ HΦ. unfold updateControllerDeployment. unfold_kube.
  repeat inv_step.
  all: try solve [frame_side HJ HΦ].
  all: try (split; simpl; eauto).
Qed.

Lemma updateControllerDeployment_inv hup rename lb :
  (forall s s', J s -> configmaps s' = configmaps s -> J s') ->
  (forall verb name s e, J s ->
     Φ {| evVerb := verb; evKind := KDeployment; evName := name; evStore := s; evErr := e |}) ->
  (forall name s e, J s ->
     Φ {| evVerb := VGet; evKind := KService; evName := name; evStore := s; evErr := e |}) ->
  inv J Φ failed (updateControllerDeployment env hup rename lb).
Proof.
  intros HJ HΦ HΦ'. unfold updateControllerDeployment. unfold_kube.
  repeat inv_step; try (apply pollConsoleHost_inv; assumption).
  all: try solve [frame_side HJ HΦ].
  all: try (split; simpl; eauto).
Qed.
(** The phases send no request about a config map. *)
Lemma renameAndUpdate_inv hup ns cm rename us :
  (forall s s', J s -> configmaps s' = configmaps s -> J s') ->
  (forall verb kind name s e, kind <> KConfigMap -> J s ->
     Φ {| evVerb := verb; evKind := kind; evName := name; evStore := s; evErr := e |}) ->
  inv J Φ failed (renameAndUpdate env cli hup ns cm rename us).
Proof.
  intros HJ HΦ. unfold renameAndUpdate.
  repeat inv_step.
  all: first [ apply renameResources_inv | apply deleteOldResources_inv
             | apply updateRouterDeployment_inv | apply updateControllerDeployment_inv ].
  all: intros; first [ by eauto | apply HΦ; eauto; discriminate ].
Qed.

Lemma inv_bind_ret {R A B} (F : R -> Prop) (a : A) (f : A -> M R B) :
  inv J Φ F (f a) -> inv J Φ F (bind (ret a) f).
Proof. intros Hf. exact Hf. Qed.

(** Without a rename they send requests about deployments only. *)
Lemma renameAndUpdate_inv_norename hup ns cm us :
  (forall s s', J s -> configmaps s' = configmaps s -> J s') ->
  (forall verb name s e, J s ->
     Φ {| evVerb := verb; evKind := KDeployment; evName := name; evStore := s; evErr := e |}) ->
  inv J Φ failed (renameAndUpdate env cli hup ns cm false us).
Proof.
  intros HJ HΦ. unfold renameAndUpdate.
  apply inv_bind_ret. repeat inv_step.
  all: first [ apply updateRouterDeployment_inv | apply updateControllerDeployment_inv_nolb ].
  all: intros; eauto.
Qed.

End Frames.

(* ===================================================================== *)
(** ** The upgrade marker (C4, C10) *)
(* ===================================================================== *)

Section Marker.
Context `{Deps} (env : Env) (cli : VanClient).

Lemma checkVersion_marker w :
  wp (checkVersion env)
    (fun w1 res =>
       exists evs, log w1 = log w ++ evs /\
         Forall (fun ev => evKind ev = KConfigMap /\ evVerb ev <> VDelete) evs /\
         (hasMarker (store w) \/
          Exists (fun ev => isReq VCreate KConfigMap marker ev /\ succeeded ev) evs ->
          hasMarker (store w1)) /\
         match res with
         | inl (cm, rn, ip, us) =>
             (rn = true -> ip = true) /\
             (ip = true -> hasMarker (store w1) /\ Forall underMarker evs)
         | inr r => failed r
         end) w.
Proof.
  unfold checkVersion. unfold_kube.
  repeat wp_step.
  all: wp_log; split_and?; try done.
  all: try (forall_list; done).
  all: try (intros [Hm|Hex]; [by marker_tac|]).
  all: try (exfalso; repeat (apply Exists_cons in Hex as [Hex|Hex]);
      [..|by apply Exists_nil in Hex]; unfold isReq, succeeded in Hex; simpl in Hex;
      naive_solver).
  all: intros; try discriminate; try (split; [marker_tac|underMarker_tac]).
  all: marker_tac.
Qed.

(** The outcome of an invocation from the outcomes of its three parts. *)
Lemma call_wp hup ns (K : World * (bool * option Err) -> Prop) w :
  wp (checkVersion env)
     (fun w1 res1 =>
        match res1 with
        | inr r => K (w1, r)
        | inl (cm, rn, ip, us) =>
            wp (renameAndUpdate env cli hup ns cm rn us)
               (fun w2 res2 =>
                  match res2 with
                  | inr r => K (w2, r)
                  | inl (ur, uc) =>
                      if ip then
                        wp (updateCompleted env)
                           (fun w3 res3 =>
                              match res3 with
                              | inl _ => K (w3, (ur || uc || us, None))
                              | inr e => K (w3, (true, Some e))
                              end) w2
                      else K (w2, (ur || uc || us, None))
                  end) w1
        end) w ->
  K (call (RouterUpdateVersionInNamespace env cli hup ns) w).
Proof.
  unfold wp, call, RouterUpdateVersionInNamespace, bind, orReturn, ret.
  destruct (checkVersion env w) as [w1 [[[[cm rn] ip] us]|r]]; simpl; [|done].
  destruct (renameAndUpdate _ _ _ _ _ _ _ w1) as [w2 [[ur uc]|r]]; simpl; [|done].
  destruct ip; [|done].
  destruct (updateCompleted env w2) as [w3 [[]|e]]; done.
Qed.

(** The requests of an invocation and the marker: what C4 and C10 say. *)
Lemma invocation_marker hup ns w :
  let out := call (RouterUpdateVersionInNamespace env cli hup ns) w in
  exists evs, log out.1 = log w ++ evs /\
    (Exists migrationStep evs -> Forall underMarker evs) /\
    (forall ev, ev ∈ evs -> isReq VDelete KConfigMap marker ev ->
       (exists evs0, evs = evs0 ++ [ev] /\
          Forall (fun ev0 => ~ isReq VDelete KConfigMap marker ev0) evs0) /\
       match evErr ev with
       | Some e => out.2 = (true, Some e)
       | None => out.2.2 = None
       end) /\
    (failed out.2 ->
       Forall (fun ev => ~ isReq VDelete KConfigMap marker ev) evs /\
       (hasMarker (store w) \/
        Exists (fun ev => isReq VCreate KConfigMap marker ev /\ succeeded ev) evs ->
        hasMarker (store out.1))) /\
    (forall e, out.2 = (true, Some e) ->
       exists evs0 s, evs = evs0 ++ [{| evVerb := VDelete; evKind := KConfigMap;
                                        evName := marker; evStore := s;
                                        evErr := Some e |}]).
Proof.
  cbv zeta. apply call_wp.
  eapply wp_conseq; [apply checkVersion_marker|].
  intros w1 res1 (evs1 & Hlog1 & Hcm1 & Hkeep1 & Hres1).
  assert (Hnomig1 : Forall (fun ev => ~ migrationStep ev) evs1).
  { eapply Forall_impl; [exact Hcm1|]. intros ev [Hk _] (_ & Hk' & _). done. }
  assert (Hnodel1 : Forall (fun ev => ~ isReq VDelete KConfigMap marker ev) evs1).
  { eapply Forall_impl; [exact Hcm1|]. intros ev [_ Hv] (Hv' & _). done. }
  destruct res1 as [[[[cm rn] ip] us]|r].
  2:{ (* the version check returned *)
    exists evs1. simpl. split; [done|]. split_and!.
    - intros Hex. exfalso. apply Exists_exists in Hex as (ev & Hev & Hmig).
      rewrite Forall_forall in Hnomig1. by apply (Hnomig1 ev Hev).
    - intros ev Hev Hdel. exfalso.
      rewrite Forall_forall in Hnodel1. by apply (Hnodel1 ev Hev).
    - intros _. split; [done|done].
    - intros e He. destruct Hres1 as [Hf _]. rewrite He in Hf. done. }
  destruct Hres1 as [Hrn Hip].
  set (J := fun s : Store => hasMarker (store w1) -> hasMarker s).
  set (Φ := fun ev : Event =>
              (hasMarker (store w1) -> hasMarker (evStore ev)) /\
              evKind ev <> KConfigMap /\
              (rn = false -> evKind ev = KDeployment)).
  assert (Hphases : inv J Φ failed (renameAndUpdate env cli hup ns cm rn us)).
  { destruct rn.
    - apply renameAndUpdate_inv.
      + intros s s' Hs Hcm Hm. unfold hasMarker. rewrite Hcm. by apply Hs.
      + intros verb kind name s e Hk Hs. split_and!; [exact Hs|exact Hk|done].
    - apply renameAndUpdate_inv_norename.
      + intros s s' Hs Hcm Hm. unfold hasMarker. rewrite Hcm. by apply Hs.
      + intros verb name s e Hs. split_and!; [exact Hs|done|done]. }
  eapply wp_conseq; [apply (wp_obeys _ _ _ _ _ w1 Hphases); by intros ?|].
  intros w2 res2 (evs2 & Hlog2 & Hevs2 & Hres2).
  assert (Hnodel : Forall (fun ev => ~ isReq VDelete KConfigMap marker ev) (evs1 ++ evs2)).
  { apply Forall_app. split; [done|].
    eapply Forall_impl; [exact Hevs2|]. intros ev (_ & Hk & _) (_ & Hk' & _). done. }
  assert (Hunder : ip = true -> Forall underMarker (evs1 ++ evs2)).
  { intros Hi. destruct (Hip Hi) as [Hm1 Hu1]. apply Forall_app. split; [done|].
    eapply Forall_impl; [exact Hevs2|]. intros ev (Hm & _) _. right. by apply Hm. }
  assert (Hmig : Exists migrationStep (evs1 ++ evs2) -> ip = true).
  { intros Hex. destruct ip; [done|]. exfalso.
    assert (rn = false) as Hrn' by (destruct rn; [by specialize (Hrn eq_refl)|done]).
    apply Exists_app in Hex as [Hex|Hex].
    - apply Exists_exists in Hex as (ev & Hev & Hmig).
      rewrite Forall_forall in Hnomig1. by apply (Hnomig1 ev Hev).
    - apply Exists_exists in Hex as (ev & Hev & _ & _ & Hk).
      rewrite Forall_forall in Hevs2. destruct (Hevs2 ev Hev) as (_ & _ & Hd). auto. }
  assert (Hkeep : hasMarker (store w) \/
            Exists (fun ev => isReq VCreate KConfigMap marker ev /\ succeeded ev)
                   (evs1 ++ evs2) -> hasMarker (store w1)).
  { intros [Hm|Hex]; [by auto|]. apply Hkeep1. right.
    apply Exists_app in Hex as [Hex|Hex]; [done|]. exfalso.
    apply Exists_exists in Hex as (ev & Hev & (_ & Hk & _) & _).
    rewrite Forall_forall in Hevs2. by destruct (Hevs2 ev Hev) as (_ & Hk' & _). }
  destruct res2 as [[ur uc]|r].
  2:{ (* a phase returned *)
    destruct Hres2 as [Hfail HJ2].
    exists (evs1 ++ evs2). simpl. rewrite Hlog2, Hlog1, app_assoc.
    split; [done|]. split_and!.
    - intros Hex. by apply Hunder, Hmig.
    - intros ev Hev Hdel. exfalso.
      rewrite Forall_forall in Hnodel. by apply (Hnodel ev Hev).
    - intros _. split; [done|]. intros Hm. by apply HJ2, Hkeep.
    - intros e He. destruct Hfail as [Hf _]. rewrite He in Hf. done. }
  simpl in Hres2. destruct ip.
  2:{ (* no migration in progress *)
    exists (evs1 ++ evs2). simpl. rewrite Hlog2, Hlog1, app_assoc.
    split; [done|]. split_and!.
    - intros Hex. by apply Hunder, Hmig.
    - intros ev Hev Hdel. exfalso.
      rewrite Forall_forall in Hnodel. by apply (Hnodel ev Hev).
    - intros [_ [x Hx]]. done.
    - intros e He. done. }
  (* the marker is deleted *)
  destruct (Hip eq_refl) as [Hm1 _]. specialize (Hres2 Hm1).
  specialize (Hunder eq_refl).
  unfold updateCompleted, Delete. wp_step.
  all: exists ((evs1 ++ evs2) ++ [{| evVerb := VDelete; evKind := KConfigMap;
                                     evName := "skupper-update-state";
                                     evStore := s; evErr := e |}]).
  all: split; [simpl; rewrite Hlog, Hlog2, Hlog1, <- !app_assoc; done|].
  all: split_and!.
  all: try (intros _; apply Forall_app; split; [done|]; apply Forall_singleton;
            intros _; right; subst s; exact Hres2).
  all: try (intros [Hf [x Hx]]; simpl in *; discriminate).
  all: try (intros e' He'; simpl in He'; simplify_eq; by eexists _, _).
  all: intros ev Hev Hdel; apply elem_of_app in Hev as [Hev|Hev];
    [ exfalso; rewrite Forall_forall in Hnodel; by apply (Hnodel ev Hev) |];
    apply list_elem_of_singleton in Hev; subst ev;
    (split; [by eexists; split; [reflexivity|]|]); simpl; by subst e.
Qed.


(** C10, in general: an invocation returns [true] with an error exactly when
    its last request is the deletion of the marker and that request failed
    with this error; every other return with an error returns [false]. *)
Lemma true_with_error_iff_marker_deletion_failed hup ns w :
  let out := call (RouterUpdateVersionInNamespace env cli hup ns) w in
  exists evs, log out.1 = log w ++ evs /\
    forall b e, out.2 = (b, Some e) ->
      (b = true <->
       exists evs0 s, evs = evs0 ++ [{| evVerb := VDelete; evKind := KConfigMap;
                                        evName := marker; evStore := s;
                                        evErr := Some e |}]).
Proof.
  destruct (invocation_marker hup ns w) as (evs & Hlog & _ & Hb & _ & Hd).
  exists evs. split; [done|]. intros b e Hout. split.
  - intros ->. by apply Hd.
  - intros (evs0 & s & ->).
    edestruct Hb as [_ Herr].
    + apply elem_of_app. right. by apply list_elem_of_singleton.
    + done.
    + simpl in Herr. cbv zeta in Hout. rewrite Hout in Herr. by simplify_eq.
Qed.
End Marker.

(** C10: an invocation returns [true] with an error exactly when its last
    request is the deletion of the marker and that request failed with this
    error, and returns [false] with every other error; it does so also when
    it updated neither deployment nor the metadata, as on an up-to-date site
    whose marker cannot be deleted. *)
Theorem C10_true_with_error_only_when_marker_deletion_fails :
  (forall (D : Deps) env cli hup ns w,
     let out := call (RouterUpdateVersionInNamespace env cli hup ns) w in
     exists evs, log out.1 = log w ++ evs /\
       forall b e, out.2 = (b, Some e) ->
         (b = true <->
          exists evs0 s, evs = evs0 ++ [{| evVerb := VDelete; evKind := KConfigMap;
                                           evName := marker; evStore := s;
                                           evErr := Some e |}])) /\
  (let site := Site.withMarker "0.5.0"
                 (Site.legacy "0.6.0" ServiceTypeClusterIP ServiceTypeClusterIP "" []
                         Site.routerImage Site.controllerImage) in
   let out := call (RouterUpdateVersionInNamespace (H := Site.library "0.6.0")
                      (Site.failing 4) Site.kube false "ns") (Site.world site) in
   out.2 = (true, Some (ErrOther "timeout")) /\
   store out.1 = site /\
   map (fun ev => (evVerb ev, evKind ev, evName ev)) (log out.1) =
     [(VGet, KConfigMap, "skupper-internal");
      (VGet, KConfigMap, "skupper-update-state");
      (VGet, KDeployment, "skupper-router");
      (VGet, KDeployment, "skupper-service-controller");
      (VDelete, KConfigMap, "skupper-update-state")]).
Proof.
  split.
  - intros D env cli hup ns w.
    exact (true_with_error_iff_marker_deletion_failed env cli hup ns w).
  - cbv zeta. split; [|split].
    + vm_compute; reflexivity.
    + vm_compute; reflexivity.
    + vm_compute; reflexivity.
Qed.

(* ===================================================================== *)
(** ** A site newer than the library (C2) *)
(* ===================================================================== *)

Section C2.
Context `{Deps} (env : Env) (cli : VanClient).

(** C2: when the version stored in the site's configuration is newer than
    the library's, the invocation returns [false] and an error, its only
    request is the read of the configuration, and the store is left as it
    was but for the addresses that the cloud provider assigned meanwhile. *)
Theorem C2_newer_site_refused_without_mutation hup ns w cm config :
  configmaps (store w) !! TransportConfigMapName = Some cm ->
  GetRouterConfigFromConfigMap cm = inr config ->
  LessRecentThanVersion Version (siteVersion (GetSiteMetadata config)) = true ->
  let out := call (RouterUpdateVersionInNamespace env cli hup ns) w in
  out.2.1 = false /\ is_Some out.2.2 /\
  store out.1 = provision (lbAssign env (ticks w)) (store w) /\
  exists ev, log out.1 = log w ++ [ev] /\
             isReq VGet KConfigMap TransportConfigMapName ev.
Proof.
  intros Hcm Hconfig Hnewer. cbv zeta. apply call_wp.
  unfold checkVersion. unfold_kube.
  wp_step. wp_step. wp_step.
  - (* the read fails *)
    subst. simpl. split_and!; [done|done|done|]. eexists. split; [exact Hlog|done].
  - (* the configuration is read *)
    subst. store_cbn. rewrite Hcm in Hlook. simplify_eq.
    wp_step. wp_step.
    rewrite Hconfig. apply wp_liftE. rewrite Hnewer. wp_step.
    simpl. split_and!; [done|done|done|]. eexists. split; [exact Hlog|done].
  - subst. store_cbn. rewrite Hcm in Hlook. done.
Qed.
End C2.

Lemma C2_witness :
  let site := Site.legacy "0.7.0" ServiceTypeClusterIP ServiceTypeClusterIP "" []
                          Site.routerImage Site.controllerImage in
  let out := call (RouterUpdateVersionInNamespace (H := Site.library "0.6.0")
                     Site.quiet Site.kube false "ns") (Site.world site) in
  out.2.1 = false /\ is_Some out.2.2 /\
  store out.1 = provision (lbAssign Site.quiet 0) site /\
  exists ev, log out.1 = [ev] /\
             isReq VGet KConfigMap "skupper-internal" ev.
Proof.
  cbv zeta.
  apply (C2_newer_site_refused_without_mutation (H := Site.library "0.6.0")
           Site.quiet Site.kube false "ns"
           (Site.world (Site.legacy "0.7.0" ServiceTypeClusterIP ServiceTypeClusterIP "" []
                                    Site.routerImage Site.controllerImage))
           (Site.siteConfig "0.7.0")
           {| rcSiteMetadata := {| siteId := "site-1"; siteVersion := "0.7.0" |};
              rcRest := "[]" |}).
  - vm_compute; reflexivity.
  - vm_compute; reflexivity.
  - vm_compute; reflexivity.
Defined.

(* ===================================================================== *)
(** ** The cleanup (C1) *)
(* ===================================================================== *)






Section Cleanup.
Context (env : Env) (cli : VanClient).




End Cleanup.


(* ===================================================================== *)
(** ** Errors of the rename (C3) *)
(* ===================================================================== *)

(** C3 fails for the credentials: the result of [kube.NewSecret] is dropped
    (line 216). On a legacy site upgraded on a cluster without routes, the
    request that creates the server credential [skupper-site-server] is
    failed by the API server; the invocation nevertheless goes on to the
    end, deletes the marker and returns [(true, nil)], and the credential
    does not exist. *)
Theorem C3_failed_credential_creation_is_ignored :
  let site := Site.legacy "0.4.2" ServiceTypeClusterIP ServiceTypeClusterIP "" []
                          "r:0.4.2" "c:0.4.2" in
  let out := call (RouterUpdateVersionInNamespace (H := Site.library "0.6.0")
                     (Site.failing 21) Site.kube false "ns") (Site.world site) in
  (exists ev, log out.1 !! 21 = Some ev /\
              isReq VCreate KSecret "skupper-site-server" ev /\
              evErr ev = Some (ErrOther "timeout")) /\
  out.2 = (true, None) /\
  secrets (store out.1) !! "skupper-site-server" = None /\
  configmaps (store out.1) !! marker = None /\
  Exists (fun ev => isReq VDelete KConfigMap marker ev /\ succeeded ev) (log out.1).
Proof.
  cbv zeta. split; [|split; [|split; [|split]]].
  - eexists. split; [vm_compute; reflexivity|]. vm_compute. done.
  - vm_compute; reflexivity.
  - vm_compute; reflexivity.
  - vm_compute; reflexivity.
  - apply Exists_exists.
    eexists. split.
    + apply list_elem_of_lookup. exists 48. vm_compute. reflexivity.
    + vm_compute. done.
Qed.

(* ===================================================================== *)
(** ** The server credential (C7) *)
(* ===================================================================== *)

Lemma firstShortHost_firstUsable fallback hosts :
  firstUsable fallback (firstShortHost fallback hosts) hosts.
Proof.
  induction hosts as [|host hosts IH]; cbn [firstShortHost].
  - right. by split.
  - destruct (String.length host <? 64)%nat eqn:Hlen.
    + left. exists [], hosts. split; [reflexivity|]. split; [by constructor|].
      by apply Nat.ltb_lt.
    + apply Nat.ltb_ge in Hlen.
      destruct IH as [(pre & post & Heq & Hpre & Hsub)|[Hall ->]].
      * left. exists (host :: pre), post. split; [simpl; f_equal; exact Heq|].
        split; [|done].
        constructor; [|done]. unfold usable. lia.
      * right. split; [|done]. constructor; [|done]. unfold usable. lia.
Qed.

Section Credential.
Context `{Deps} (env : Env).

(** C7, as the code has it: the server credential minted when the site does
    not use routes is not a connection bundle, its host list is the result
    of [getTransportHosts], which is not empty since it holds the name of
    the transport service, and its subject is the first host of that list
    shorter than 64 characters, hence shorter than 64 characters as soon
    as the name of the transport service is. *)
Theorem C7_server_credential_subject_is_first_usable_host ns w hosts :
  (getTransportHosts env ns w).2 = inl hosts ->
  let cred := siteServerCredential hosts in
  ConnectJson cred = false /\
  Hosts cred = hosts /\ hosts <> [] /\ TransportServiceName ∈ hosts /\
  firstUsable TransportServiceName (Subject cred) hosts /\
  (usable TransportServiceName -> usable (Subject cred)).
Proof.
  intros Hhosts. cbv zeta.
  assert (Hin : TransportServiceName ∈ hosts).
  { revert Hhosts. unfold getTransportHosts, bind, ret.
    destruct (GetService env "skupper-internal" w) as [w1 [old|e]]; cbn [fst snd].
    2:{ intros; discriminate. }
    destruct (ServiceType_eqb _ _); cbn [fst snd].
    - destruct (pollTransportHost env 120 0 w1) as [w2 [host|e]]; cbn [fst snd].
      2:{ intros; discriminate. }
      intros Heq; injection Heq as <-.
      rewrite ?elem_of_app, ?elem_of_cons. auto 10.
    - intros Heq; injection Heq as <-.
      rewrite ?elem_of_app, ?elem_of_cons. auto 10. }
  pose proof (firstShortHost_firstUsable TransportServiceName hosts) as Hfirst.
  split_and!; try done.
  - intros ->. by apply elem_of_nil in Hin.
  - intros Hname. simpl. destruct Hfirst as [(pre & post & _ & _ & Hsub)|[_ ->]]; done.
Qed.

End Credential.

Lemma C7_witness :
  let w := Site.world (Site.legacy "0.4.2" ServiceTypeClusterIP ServiceTypeClusterIP ""
                                   [] "r:0.4.2" "c:0.4.2") in
  let hosts := ["skupper-router"; "skupper-router.ns.svc.cluster.local";
                "skupper-internal.ns.svc.cluster.local"] in
  let cred := siteServerCredential (H := Site.library "0.6.0") hosts in
  ConnectJson cred = false /\
  Hosts cred = hosts /\ hosts <> [] /\ "skupper-router" ∈ hosts /\
  firstUsable "skupper-router" (Subject cred) hosts /\
  (usable "skupper-router" -> usable (Subject cred)).
Proof.
  cbv zeta.
  apply (C7_server_credential_subject_is_first_usable_host (H := Site.library "0.6.0")
           Site.quiet "ns"
           (Site.world (Site.legacy "0.4.2" ServiceTypeClusterIP ServiceTypeClusterIP ""
                                    [] "r:0.4.2" "c:0.4.2"))).
  vm_compute. reflexivity.
Defined.

(** C7 as the specification states it fails: on a site whose transport
    service has a load-balancer address, the subject of the minted
    credential is that address, the first host of the list, although the
    list holds the shorter usable host [skupper-router]. *)
Lemma C7_counterexample :
  let site := Site.legacy "0.4.2" ServiceTypeLoadBalancer ServiceTypeClusterIP
                "lb-0123456789.elb.example.com" [] "r:0.4.2" "c:0.4.2" in
  let out := call (RouterUpdateVersionInNamespace (H := Site.library "0.6.0")
                     Site.quiet Site.kube false "ns") (Site.world site) in
  exists sec cred,
    secrets (store out.1) !! "skupper-site-server" = Some sec /\
    secIssuedFor sec = Some cred /\
    ConnectJson cred = false /\
    Subject cred = "lb-0123456789.elb.example.com" /\
    ~ shortestUsable (Subject cred) (Hosts cred).
Proof.
  cbv zeta. eexists _, _. split; [vm_compute; reflexivity|].
  split; [reflexivity|]. split; [reflexivity|]. split; [reflexivity|].
  intros (_ & _ & Hmin). simpl in Hmin.
  specialize (Hmin "skupper-router").
  assert (29 <= 14)%nat as Hle; [|lia].
  apply Hmin.
  - apply elem_of_cons. right. apply elem_of_cons. by left.
  - unfold usable. simpl. lia.
Qed.

(* ===================================================================== *)
(** ** The polling loops (C9) *)
(* ===================================================================== *)

Section Polling.
Context `{Deps} (env : Env).

Lemma pollConsoleHost_wp {R} n i w :
  wp (pollConsoleHost (R := R) env n i)
    (fun w1 res =>
       exists evs, log w1 = log w ++ evs /\
         length evs <= n /\
         Forall (isReq VGet KService ControllerServiceName) evs /\
         slept w1 = slept w + pauses i (length evs) /\
         exists host, res = inl host /\
           ((Forall succeeded evs /\ stdout w1 = stdout w /\
             (host = "" -> length evs = n)) \/
            (exists evs0 ev e, evs = evs0 ++ [ev] /\ evErr ev = Some e /\ host = "" /\
               stdout w1 =
                 stdout w ++ ["Could not determine new console url: " +:+ Error e]))) w.
Proof.
  revert i w. induction n as [|n IH]; intros i w.
  - exists []. simpl. rewrite app_nil_r. split_and!; try done.
    + destruct i; simpl; lia.
    + exists "". split; [done|]. left. done.
  - cbn [pollConsoleHost]. unfold GetService, Get.
    assert (Hpause : forall w0, slept w0 = (if (0 <? i)%nat then S (slept w) else slept w) ->
              forall k, slept w0 + k = slept w + pauses i (S k)).
    { intros w0 -> k. destruct i; simpl; lia. }
    wp_step. wp_step.
    all: wp_step; wp_step; wp_step.
    all: wp_step.
    all: try (wp_step; wp_step; wp_step).
    all: try wp_step.
    all: try wp_step.
    all: cbn [log slept stdout ticks store] in *.
    all: match type of Hlog with _ = _ ++ [?e0] => set (ev1 := e0) in * end.
    all: assert (Hev1 : isReq VGet KService ControllerServiceName ev1) by done.
    all: try (eapply wp_conseq; [apply IH|];
              intros w2 res (evs' & Hlog' & Hlen' & Hreq' & Hslept' & host & -> & Hcases);
              exists (ev1 :: evs'); rewrite Hlog', Hlog, <- app_assoc;
              split; [reflexivity|]; split; [simpl; lia|];
              split; [by constructor|];
              split; [rewrite Hslept'; cbn [pauses length]; by apply Hpause|];
              exists host; split; [done|];
              destruct Hcases as [(Hok & Hout & Hn)|(evs0 & ev & e' & -> & He' & -> & Hout)];
              [ left; split_and!; [constructor; [by subst|done]|congruence|simpl; auto]
              | right; exists (ev1 :: evs0), ev, e'; split_and!; [done|done|done|congruence] ]).
    all: exists [ev1]; rewrite Hlog; split; [reflexivity|]; split; [simpl; lia|];
         (split; [by apply Forall_singleton|]);
         (split; [cbn [slept length]; rewrite <- (Hpause _ Hslept 0); lia|]);
         eexists; (split; [reflexivity|]).
    all: first
      [ right; exists [], ev1; eexists; split; [reflexivity|]; split; [by subst|];
        split; [reflexivity|]; by rewrite Hstdout
      | left; split; [apply Forall_singleton; by subst|]; split; [done|];
        intros Hhost; rewrite Hhost in *; discriminate ].
Qed.


Lemma pollTransportHost_wp n i w :
  wp (pollTransportHost env n i)
    (fun w1 res =>
       exists evs, log w1 = log w ++ evs /\
         length evs <= n /\
         Forall (isReq VGet KService TransportServiceName) evs /\
         slept w1 = slept w + pauses i (length evs) /\
         stdout w1 = stdout w /\
         match res with
         | inl host => Forall succeeded evs /\ (host = "" -> length evs = n)
         | inr e => exists evs0 ev, evs = evs0 ++ [ev] /\ evErr ev = Some e
         end) w.
Proof.
  revert i w. induction n as [|n IH]; intros i w.
  - exists []. simpl. rewrite app_nil_r. split_and!; try done.
    destruct i; simpl; lia.
  - cbn [pollTransportHost]. unfold GetService, Get.
    assert (Hpause : forall w0, slept w0 = (if (0 <? i)%nat then S (slept w) else slept w) ->
              forall k, slept w0 + k = slept w + pauses i (S k)).
    { intros w0 -> k. destruct i; simpl; lia. }
    wp_step. wp_step.
    all: wp_step; wp_step.
    all: try wp_step.
    all: try wp_step.
    all: try wp_step.
    all: cbn [log slept stdout ticks store] in *.
    all: match type of Hlog with _ = _ ++ [?e0] => set (ev1 := e0) in * end.
    all: assert (Hev1 : isReq VGet KService TransportServiceName ev1) by done.
    all: try (eapply wp_conseq; [apply IH|];
              intros w2 res (evs' & Hlog' & Hlen' & Hreq' & Hslept' & Hout' & Hres);
              exists (ev1 :: evs'); rewrite Hlog', Hlog, <- app_assoc;
              split; [reflexivity|]; split; [simpl; lia|];
              split; [by constructor|];
              split; [rewrite Hslept'; cbn [pauses length]; by apply Hpause|];
              split; [congruence|];
              destruct res as [host|e'];
              [ destruct Hres as [Hok Hn]; split; [constructor; [by subst|done]|simpl; auto]
              | destruct Hres as (evs0 & ev & -> & He'); by exists (ev1 :: evs0), ev ]).
    all: exists [ev1]; rewrite Hlog; split; [reflexivity|]; split; [simpl; lia|];
         (split; [by apply Forall_singleton|]);
         (split; [cbn [slept length]; rewrite <- (Hpause _ Hslept 0); lia|]);
         (split; [done|]).
    all: first
      [ exists [], ev1; split; [reflexivity|]; by subst
      | split; [apply Forall_singleton; by subst|];
        intros Hhost; rewrite Hhost in *; discriminate ].
Qed.

Lemma getTransportHosts_wp ns w :
  wp (getTransportHosts env ns)
    (fun w1 res =>
       exists evs, log w1 = log w ++ evs /\
         length evs <= 121 /\
         slept w1 <= slept w + 119 /\
         stdout w1 = stdout w /\
         match res with
         | inl hosts => Forall succeeded evs
         | inr e => exists evs0 ev, evs = evs0 ++ [ev] /\ evErr ev = Some e
         end) w.
Proof.
  unfold getTransportHosts, GetService at 1, Get.
  wp_step. wp_step.
  all: match type of Hlog with _ = _ ++ [?e0] => set (ev1 := e0) in * end.
  - exists [ev1]. split; [exact Hlog|]. split; [simpl; lia|]. split; [lia|].
    split; [done|]. exists [], ev1. split; [reflexivity|]. by subst.
  - wp_step. wp_step.
    + wp_step. eapply wp_conseq; [apply pollTransportHost_wp|].
      intros w2 res (evs & Hlog' & Hlen & _ & Hslept' & Hout & Hres).
      assert (pauses 0 (length evs) <= 119) by (simpl; lia).
      destruct res as [host|e'].
      * wp_step. wp_step.
        exists (ev1 :: evs). rewrite Hlog', Hlog, <- app_assoc.
        split; [reflexivity|]. split; [simpl; lia|]. split; [lia|].
        split; [congruence|]. constructor; [by subst|]. by destruct Hres.
      * destruct Hres as (evs0 & ev & -> & He').
        exists (ev1 :: evs0 ++ [ev]). rewrite Hlog', Hlog, <- app_assoc.
        split; [reflexivity|]. split; [simpl in *; lia|]. split; [lia|].
        split; [congruence|]. by exists (ev1 :: evs0), ev.
    + wp_step. wp_step.
      exists [ev1]. split; [exact Hlog|]. split; [simpl; lia|]. split; [lia|].
      split; [done|]. apply Forall_singleton. by subst.
  - exists [ev1]. split; [exact Hlog|]. split; [simpl; lia|]. split; [lia|].
    split; [done|]. exists [], ev1. split; [reflexivity|]. by subst.
Qed.

(** C9, as the code has it. Both loops send at most 120 lookups and sleep
    one second between two consecutive lookups, so they end. The transport
    loop and [getTransportHosts] return an error only when a lookup was
    answered with one; when the bound is exhausted without a host they go
    on. The console loop never returns from the invocation; it prints its
    message when a lookup is answered with an error and only then: when
    the bound is exhausted without a host it prints nothing. *)
Theorem C9_polling_is_bounded_and_exhaustion_prints_nothing ns w :
  (let res := pollTransportHost env 120 0 w in
   exists evs, log res.1 = log w ++ evs /\
     length evs <= 120 /\
     Forall (isReq VGet KService TransportServiceName) evs /\
     slept res.1 = slept w + (length evs - 1) /\
     stdout res.1 = stdout w /\
     match res.2 with
     | inl host => Forall succeeded evs /\ (host = "" -> length evs = 120)
     | inr e => exists evs0 ev, evs = evs0 ++ [ev] /\ evErr ev = Some e
     end) /\
  (let res := getTransportHosts env ns w in
   exists evs, log res.1 = log w ++ evs /\
     length evs <= 121 /\
     slept res.1 <= slept w + 119 /\
     stdout res.1 = stdout w /\
     match res.2 with
     | inl hosts => Forall succeeded evs
     | inr e => exists evs0 ev, evs = evs0 ++ [ev] /\ evErr ev = Some e
     end) /\
  (let res := pollConsoleHost (R := bool * option Err) env 120 0 w in
   exists evs, log res.1 = log w ++ evs /\
     length evs <= 120 /\
     Forall (isReq VGet KService ControllerServiceName) evs /\
     slept res.1 = slept w + (length evs - 1) /\
     exists host, res.2 = inl host /\
       ((Forall succeeded evs /\ stdout res.1 = stdout w /\
         (host = "" -> length evs = 120)) \/
        (exists evs0 ev e, evs = evs0 ++ [ev] /\ evErr ev = Some e /\ host = "" /\
           stdout res.1 =
             stdout w ++ ["Could not determine new console url: " +:+ Error e]))).
Proof.
  split; [|split].
  - exact (pollTransportHost_wp 120 0 w).
  - exact (getTransportHosts_wp ns w).
  - exact (pollConsoleHost_wp 120 0 w).
Qed.

End Polling.

(** C9 as the specification states it fails on the console path: on a legacy
    site whose console service is of type load balancer and never gets an
    address, the 120 lookups are exhausted, the invocation succeeds, and
    nothing at all is printed. *)
Lemma C9_counterexample :
  let site := Site.legacy "0.4.2" ServiceTypeClusterIP ServiceTypeLoadBalancer ""
                          [] "r:0.4.2" "c:0.4.2" in
  let out := call (RouterUpdateVersionInNamespace (H := Site.library "0.6.0")
                     Site.quiet Site.kube false "ns") (Site.world site) in
  out.2 = (true, None) /\
  length (List.filter isConsoleLookup (log out.1)) = 120 /\
  slept out.1 = 119 /\
  stdout out.1 = [].
Proof.
  cbv zeta. split; [|split; [|split]].
  - vm_compute; reflexivity.
  - vm_compute; reflexivity.
  - vm_compute; reflexivity.
  - vm_compute; reflexivity.
Qed.


(* ===================================================================== *)
(** ** The deployments outside a rename (C5, C6) *)
(* ===================================================================== *)

Lemma redeployed_app evs evs' :
  redeployed (evs ++ evs') = redeployed evs ++ redeployed evs'.
Proof. unfold redeployed. by rewrite List.filter_app, map_app. Qed.

Ltac readOrUpdate_tac :=
  forall_list; unfold readOrUpdate; cbn [evVerb]; auto.

Section Deployments.
Context `{Deps} (env : Env) (cli : VanClient).

Lemma updateRouterDeployment_norename hup us ip w router :
  deployments (store w) !! TransportDeploymentName = Some router ->
  Name (depMeta router) = TransportDeploymentName ->
  fault env (ticks w) = None ->
  fault env (S (ticks w)) = None ->
  let update := negb (String.eqb (imageOf router) GetRouterImageName) || us || hup in
  wp (updateRouterDeployment env hup false us ip)
    (fun w1 res =>
       res = inl update /\
       deployments (store w1) =
         (if update
          then <[TransportDeploymentName :=
                   refreshed GetRouterImageName (clock env (S (ticks w))) router]>
                 (deployments (store w))
          else deployments (store w)) /\
       configmaps (store w1) = configmaps (store w) /\
       ticks w1 = (if update then 2 else 1) + ticks w /\
       exists evs, log w1 = log w ++ evs /\
         Forall readOrUpdate evs /\
         redeployed evs = if update then [TransportDeploymentName] else []) w.
Proof.
  intros Hrouter Hname Hf0 Hf1. cbv zeta.
  unfold updateRouterDeployment. unfold_kube.
  wp_step. wp_step. wp_step; try congruence.
  all: subst s; store_cbn; rewrite Hrouter in Hlook; simplify_eq.
  unfold refreshed, imageOf, withImage.
  destruct (String.eqb _ GetRouterImageName) eqn:Himage; cbn [negb orb].
  all: cbn [Name depMeta setPodSpec]; rewrite ?Hname.
  all: repeat (wp_step; cbn [Name depMeta setPodSpec]; rewrite ?Hname).
  all: try (exfalso; wp_log; congruence).
  all: split; [reflexivity|]; split; [|split; [|split; [cbn [ticks]; lia|]]].
  all: try (wp_log; rewrite ?Hticks; reflexivity).
  all: wp_log; split; [readOrUpdate_tac|reflexivity].
Qed.

Lemma updateControllerDeployment_norename hup w controller :
  deployments (store w) !! ControllerDeploymentName = Some controller ->
  Name (depMeta controller) = ControllerDeploymentName ->
  fault env (ticks w) = None ->
  fault env (S (ticks w)) = None ->
  let update :=
    negb (String.eqb (imageOf controller) GetServiceControllerImageName) || hup in
  wp (updateControllerDeployment env hup false false)
    (fun w1 res =>
       res = inl update /\
       deployments (store w1) =
         (if update
          then <[ControllerDeploymentName :=
                   refreshed GetServiceControllerImageName (clock env (S (ticks w)))
                             controller]>
                 (deployments (store w))
          else deployments (store w)) /\
       configmaps (store w1) = configmaps (store w) /\
       ticks w1 = (if update then 2 else 1) + ticks w /\
       exists evs, log w1 = log w ++ evs /\
         Forall readOrUpdate evs /\
         redeployed evs = if update then [ControllerDeploymentName] else []) w.
Proof.
  intros Hcontroller Hname Hf0 Hf1. cbv zeta.
  unfold updateControllerDeployment. unfold_kube.
  wp_step. wp_step. wp_step; try congruence.
  all: subst s; store_cbn; rewrite Hcontroller in Hlook; simplify_eq.
  unfold refreshed, imageOf, withImage.
  destruct (String.eqb _ GetServiceControllerImageName) eqn:Himage; cbn [negb orb].
  all: cbn [Name depMeta setPodSpec]; rewrite ?Hname.
  all: repeat (wp_step; cbn [Name depMeta setPodSpec]; rewrite ?Hname).
  all: try (exfalso; wp_log; congruence).
  all: split; [reflexivity|]; split; [|split; [|split; [cbn [ticks]; lia|]]].
  all: try (wp_log; rewrite ?Hticks; reflexivity).
  all: wp_log; split; [readOrUpdate_tac|reflexivity].
Qed.

(** The two deployments outside a rename, no request failing. *)
Lemma renameAndUpdate_norename hup us ns cm w router controller :
  deployments (store w) !! TransportDeploymentName = Some router ->
  deployments (store w) !! ControllerDeploymentName = Some controller ->
  Name (depMeta router) = TransportDeploymentName ->
  Name (depMeta controller) = ControllerDeploymentName ->
  TransportDeploymentName <> ControllerDeploymentName ->
  (forall n, n < 4 -> fault env (ticks w + n) = None) ->
  let updateRouter := negb (String.eqb (imageOf router) GetRouterImageName) || us || hup in
  let updateController :=
    negb (String.eqb (imageOf controller) GetServiceControllerImageName) || hup in
  let t := ticks w + (if updateRouter then 2 else 1) in
  wp (renameAndUpdate env cli hup ns cm false us)
    (fun w1 res =>
       res = inl (updateRouter, updateController) /\
       configmaps (store w1) = configmaps (store w) /\
       (exists evs, log w1 = log w ++ evs /\
          Forall readOrUpdate evs /\
          redeployed evs =
            (if updateRouter then [TransportDeploymentName] else []) ++
            (if updateController then [ControllerDeploymentName] else [])) /\
       deployments (store w1) !! TransportDeploymentName =
         Some (if updateRouter
               then refreshed GetRouterImageName (clock env (S (ticks w))) router
               else router) /\
       deployments (store w1) !! ControllerDeploymentName =
         Some (if updateController
               then refreshed GetServiceControllerImageName (clock env (S t)) controller
               else controller)) w.
Proof.
  intros Hrouter Hcontroller Hname Hname' Hne Hfault. cbv zeta.
  unfold renameAndUpdate.
  apply (wp_bind (ret (false, false, false))). wp_step. wp_step.
  assert (Hf : forall n, n < 4 -> fault env (n + ticks w) = None).
  { intros n Hn. rewrite Nat.add_comm. by apply Hfault. }
  eapply wp_conseq.
  { apply (updateRouterDeployment_norename hup us false w router); auto.
    - apply (Hf 0). lia.
    - apply (Hf 1). lia. }
  cbv zeta. set (ur := negb _ || us || hup).
  intros w1 r (-> & Hdep & Hcms & Ht & evs & Hlog & Hru & Hred).
  wp_step.
  eapply wp_conseq.
  { apply (updateControllerDeployment_norename hup w1 controller); auto.
    - rewrite Hdep. destruct ur; [|done]. by rewrite lookup_insert_ne.
    - rewrite Ht. destruct ur; apply Hf; lia.
    - rewrite Ht. destruct ur.
      + apply (Hf 3). lia.
      + apply (Hf 2). lia. }
  cbv zeta. set (uc := negb _ || hup).
  intros w2 r (-> & Hdep' & Hcms' & Ht' & evs' & Hlog' & Hru' & Hred').
  wp_step. wp_step. wp_step.
  split; [reflexivity|]. split; [congruence|]. split; [|split].
  - exists (evs ++ evs'). rewrite Hlog', Hlog, <- app_assoc. split; [reflexivity|].
    split; [by apply Forall_app|]. by rewrite redeployed_app, Hred, Hred'.
  - rewrite Hdep', Hdep. destruct uc.
    + rewrite lookup_insert_ne by done. destruct ur; [by rewrite lookup_insert_eq|done].
    + destruct ur; [by rewrite lookup_insert_eq|done].
  - rewrite Hdep', Hdep, Ht. destruct uc.
    + rewrite lookup_insert_eq. do 3 f_equal. destruct ur; lia.
    + destruct ur; [by rewrite lookup_insert_ne|done].
Qed.


Lemma checkVersion_bump w cm config cm' :
  configmaps (store w) !! TransportConfigMapName = Some cm ->
  configmaps (store w) !! marker = None ->
  GetRouterConfigFromConfigMap cm = inr config ->
  let site := GetSiteMetadata config in
  EquivalentVersion Version (siteVersion site) = true ->
  Version <> siteVersion site ->
  LessRecentThanVersion Version (siteVersion site) = false ->
  LessRecentThanVersion (siteVersion site) "0.5.0" = false ->
  UpdateConfigMap (SetSiteMetadata {| siteId := siteId site; siteVersion := Version |}
                                   config) cm = inr cm' ->
  Name (cmMeta cm') = TransportConfigMapName ->
  (forall n, n < 3 -> fault env (ticks w + n) = None) ->
  wp (checkVersion env)
    (fun w1 res =>
       res = inl (cm', false, false, true) /\
       configmaps (store w1) = <[TransportConfigMapName := cm']> (configmaps (store w)) /\
       deployments (store w1) = deployments (store w) /\
       ticks w1 = 3 + ticks w /\
       exists evs, log w1 = log w ++ evs /\
         Forall readOrUpdate evs /\ redeployed evs = []) w.
Proof.
  intros Hcm Hmarker Hparse site Heq Hne Hnl Hnew Hupd Hname Hfault.
  assert (Hf0 : fault env (ticks w) = None).
  { rewrite <- (Nat.add_0_r (ticks w)). apply Hfault. lia. }
  assert (Hf1 : fault env (S (ticks w)) = None).
  { replace (S (ticks w)) with (ticks w + 1) by lia. apply Hfault. lia. }
  assert (Hf2 : fault env (S (S (ticks w))) = None).
  { replace (S (S (ticks w))) with (ticks w + 2) by lia. apply Hfault. lia. }
  unfold checkVersion. unfold_kube.
  wp_step. wp_step. wp_step; try congruence.
  all: subst s; store_cbn; rewrite Hcm in Hlook; simplify_eq.
  wp_step. wp_step. wp_step.
  all: rewrite Hparse in Hr; simplify_eq.
  fold site. rewrite Hnl.
  apply String.eqb_neq in Hne. rewrite Heq, Hne, Hnew. cbn [negb andb].
  rewrite orb_true_r.
  unfold marker in Hmarker.
  wp_step. wp_step. wp_step. wp_step. wp_step; try congruence.
  all: try (exfalso; wp_log; congruence).
  cbn [IsNotFound]. wp_step. cbn [negb andb].
  wp_step. wp_step. wp_step. wp_step. wp_step.
  all: fold site in Hr0; rewrite Hupd in Hr0; simplify_eq.
  rewrite Hname.
  wp_step. wp_step. wp_step; try congruence.
  all: try (exfalso; wp_log; congruence).
  wp_step.
  split; [reflexivity|]. split; [by wp_log|]. split; [by wp_log|].
  split; [cbn [ticks]; lia|].
  wp_log. split; [readOrUpdate_tac|reflexivity].
Qed.


(** C5, as the code has it. The library is at a version equivalent to the
    stored one but not the same text, the site is not older than 0.5.0 and
    no upgrade is in progress, and no request fails. Then the stored
    metadata is rewritten to the library's version, no object is created or
    deleted, and the invocation reports an update. The transport deployment
    is updated whether or not its image changed: with the desired image if
    it ran another one, with nothing but a new timestamp otherwise. The
    controller deployment is updated only if its image changed or the
    force-restart flag is set. *)
Theorem C5_equivalent_version_bumps_metadata_and_redeploys_router
    hup ns w cm config cm' router controller :
  configmaps (store w) !! TransportConfigMapName = Some cm ->
  configmaps (store w) !! marker = None ->
  GetRouterConfigFromConfigMap cm = inr config ->
  let site := GetSiteMetadata config in
  EquivalentVersion Version (siteVersion site) = true ->
  Version <> siteVersion site ->
  LessRecentThanVersion Version (siteVersion site) = false ->
  LessRecentThanVersion (siteVersion site) "0.5.0" = false ->
  UpdateConfigMap (SetSiteMetadata {| siteId := siteId site; siteVersion := Version |}
                                   config) cm = inr cm' ->
  Name (cmMeta cm') = TransportConfigMapName ->
  deployments (store w) !! TransportDeploymentName = Some router ->
  deployments (store w) !! ControllerDeploymentName = Some controller ->
  Name (depMeta router) = TransportDeploymentName ->
  Name (depMeta controller) = ControllerDeploymentName ->
  TransportDeploymentName <> ControllerDeploymentName ->
  (forall n, n < 7 -> fault env (ticks w + n) = None) ->
  let out := call (RouterUpdateVersionInNamespace env cli hup ns) w in
  let updateController :=
    negb (String.eqb (imageOf controller) GetServiceControllerImageName) || hup in
  out.2 = (true, None) /\
  configmaps (store out.1) !! TransportConfigMapName = Some cm' /\
  (exists evs, log out.1 = log w ++ evs /\
     Forall readOrUpdate evs /\
     redeployed evs =
       [TransportDeploymentName] ++
       (if updateController then [ControllerDeploymentName] else [])) /\
  deployments (store out.1) !! TransportDeploymentName =
    Some (refreshed GetRouterImageName (clock env (4 + ticks w)) router) /\
  deployments (store out.1) !! ControllerDeploymentName =
    Some (if updateController
          then refreshed GetServiceControllerImageName (clock env (6 + ticks w))
                         controller
          else controller).
Proof.
  intros Hcm Hmarker Hparse site Heq Hne Hnl Hnew Hupd Hname
         Hrouter Hcontroller Hrname Hcname Hdistinct Hfault.
  cbv zeta.
  apply (call_wp env cli hup ns
           (fun out =>
              out.2 = (true, None) /\
              configmaps (store out.1) !! TransportConfigMapName = Some cm' /\
              (exists evs, log out.1 = log w ++ evs /\
                 Forall readOrUpdate evs /\
                 redeployed evs =
                   [TransportDeploymentName] ++
                   (if negb (String.eqb (imageOf controller)
                                        GetServiceControllerImageName) || hup
                    then [ControllerDeploymentName] else [])) /\
              deployments (store out.1) !! TransportDeploymentName =
                Some (refreshed GetRouterImageName (clock env (4 + ticks w)) router) /\
              deployments (store out.1) !! ControllerDeploymentName =
                Some (if negb (String.eqb (imageOf controller)
                                          GetServiceControllerImageName) || hup
                      then refreshed GetServiceControllerImageName
                                     (clock env (6 + ticks w)) controller
                      else controller))).
  eapply wp_conseq.
  { apply (checkVersion_bump w cm config cm'); auto.
    intros n Hn. apply Hfault. lia. }
  intros w1 r (-> & Hcms & Hdeps & Ht & evs & Hlog & Hru & Hred).
  eapply wp_conseq.
  { apply (renameAndUpdate_norename hup true ns cm' w1 router controller); auto.
    - by rewrite Hdeps.
    - by rewrite Hdeps.
    - intros n Hn. rewrite Ht. replace (3 + ticks w + n) with (ticks w + (3 + n)) by lia.
      apply Hfault. lia. }
  cbv zeta. rewrite orb_true_r. cbn [orb].
  intros w2 r (-> & Hcms' & (evs' & Hlog' & Hru' & Hred') & Hr & Hc).
  cbn [fst snd orb]. split; [reflexivity|].
  split; [by rewrite Hcms', Hcms, lookup_insert_eq|].
  split; [|split].
  - exists (evs ++ evs'). rewrite Hlog', Hlog, <- app_assoc. split; [reflexivity|].
    split; [by apply Forall_app|]. by rewrite redeployed_app, Hred, Hred'.
  - rewrite Hr, Ht. reflexivity.
  - rewrite Hc, Ht. destruct (negb _ || hup); [|done].
    do 3 f_equal. lia.
Qed.

End Deployments.

Lemma C5_witness :
  let site := Site.legacy "0.6.0-rc1" ServiceTypeClusterIP ServiceTypeClusterIP "" []
                          Site.routerImage "quay.io/skupper/service-controller:0.6.0-rc1" in
  let w := Site.world site in
  let out := call (RouterUpdateVersionInNamespace (H := Site.library "0.6.0")
                     Site.quiet Site.kube false "ns") w in
  out.2 = (true, None) /\
  configmaps (store out.1) !! "skupper-internal" = Some (Site.siteConfig "0.6.0") /\
  (exists evs, log out.1 = log w ++ evs /\
     Forall readOrUpdate evs /\
     redeployed evs = ["skupper-router"; "skupper-service-controller"]) /\
  deployments (store out.1) !! "skupper-router" =
    Some (touched (H := Site.library "0.6.0") (clock Site.quiet 4)
            (Site.deployment "skupper-router" "skupper" Site.routerImage
               ["skupper-amqps"; "skupper-internal"])) /\
  deployments (store out.1) !! "skupper-service-controller" =
    Some (Site.deployment "skupper-service-controller" "skupper-proxy-controller"
            Site.controllerImage ["skupper"]).
Proof.
  apply (C5_equivalent_version_bumps_metadata_and_redeploys_router
           (H := Site.library "0.6.0") Site.quiet Site.kube false "ns"
           (Site.world (Site.legacy "0.6.0-rc1" ServiceTypeClusterIP ServiceTypeClusterIP
                          "" [] Site.routerImage
                          "quay.io/skupper/service-controller:0.6.0-rc1"))
           (Site.siteConfig "0.6.0-rc1")
           {| rcSiteMetadata := {| siteId := "site-1"; siteVersion := "0.6.0-rc1" |};
              rcRest := "[]" |}
           (Site.siteConfig "0.6.0")
           (Site.deployment "skupper-router" "skupper" Site.routerImage
               ["skupper-amqps"; "skupper-internal"])
           (Site.deployment "skupper-service-controller" "skupper-proxy-controller"
               "quay.io/skupper/service-controller:0.6.0-rc1" ["skupper"])).
  - vm_compute; reflexivity.
  - vm_compute; reflexivity.
  - vm_compute; reflexivity.
  - vm_compute; reflexivity.
  - discriminate.
  - vm_compute; reflexivity.
  - vm_compute; reflexivity.
  - vm_compute; reflexivity.
  - reflexivity.
  - vm_compute; reflexivity.
  - vm_compute; reflexivity.
  - reflexivity.
  - reflexivity.
  - discriminate.
  - reflexivity.
Defined.

(** C5 as the specification states it fails on its own scenario: library
    [0.6.0], stored version [0.6.0-rc1], both deployments running the
    desired images, no force-restart flag. The metadata is rewritten and
    nothing is renamed, but the transport deployment is updated although its
    image reference did not change. *)
Lemma C5_counterexample :
  let site := Site.legacy "0.6.0-rc1" ServiceTypeClusterIP ServiceTypeClusterIP "" []
                          Site.routerImage Site.controllerImage in
  let out := call (RouterUpdateVersionInNamespace (H := Site.library "0.6.0")
                     Site.quiet Site.kube false "ns") (Site.world site) in
  out.2 = (true, None) /\
  redeployed (log out.1) = ["skupper-router"] /\
  option_map imageOf (deployments (store out.1) !! "skupper-router") =
    option_map imageOf (deployments site !! "skupper-router").
Proof.
  cbv zeta. split; [|split]; vm_compute; reflexivity.
Qed.



(* ===================================================================== *)
(** ** The other entry points and the helpers *)
(* ===================================================================== *)

Section Restart.
Context `{Deps} (env : Env).

(** X1. [RouterRestart] sends a read of the transport deployment and, if
    that succeeds, one update of the deployment it read, and nothing else. It
    returns the error of the request that failed, and then every deployment
    is as it was. *)
Theorem RouterRestart_sends_one_read_and_one_update w :
  let out := RouterRestart env w in
  exists evs, log out.1 = log w ++ evs /\
    Forall (fun ev => evKind ev = KDeployment) evs /\
    match out.2 with
    | inl _ =>
        exists ev1 ev2, evs = [ev1; ev2] /\
          isReq VGet KDeployment TransportDeploymentName ev1 /\ succeeded ev1 /\
          evVerb ev2 = VUpdate /\ succeeded ev2
    | inr e =>
        deployments (store out.1) = deployments (store w) /\
        ((exists ev1, evs = [ev1] /\
            isReq VGet KDeployment TransportDeploymentName ev1 /\
            evErr ev1 = Some e) \/
         (exists ev1 ev2, evs = [ev1; ev2] /\
            isReq VGet KDeployment TransportDeploymentName ev1 /\ succeeded ev1 /\
            evVerb ev2 = VUpdate /\ evErr ev2 = Some e))
    end.
Proof.
  cbv zeta. change (wp (RouterRestart env)
    (fun w1 res => exists evs, log w1 = log w ++ evs /\
       Forall (fun ev => evKind ev = KDeployment) evs /\
       match res with
       | inl _ =>
           exists ev1 ev2, evs = [ev1; ev2] /\
             isReq VGet KDeployment TransportDeploymentName ev1 /\ succeeded ev1 /\
             evVerb ev2 = VUpdate /\ succeeded ev2
       | inr e =>
           deployments (store w1) = deployments (store w) /\
           ((exists ev1, evs = [ev1] /\
               isReq VGet KDeployment TransportDeploymentName ev1 /\
               evErr ev1 = Some e) \/
            (exists ev1 ev2, evs = [ev1; ev2] /\
               isReq VGet KDeployment TransportDeploymentName ev1 /\ succeeded ev1 /\
               evVerb ev2 = VUpdate /\ evErr ev2 = Some e))
       end) w).
  unfold RouterRestart. unfold_kube.
  repeat wp_step.
  all: wp_log; (split; [forall_list; reflexivity|]).
  all: try (split; [reflexivity|]).
  all: first [ left; eexists; split; [reflexivity|]; by repeat split
             | right; do 2 eexists; split; [reflexivity|]; by repeat split
             | do 2 eexists; split; [reflexivity|]; by repeat split ].
Qed.

Lemma RouterRestart_wp w d :
  deployments (store w) !! TransportDeploymentName = Some d ->
  Name (depMeta d) = TransportDeploymentName ->
  fault env (ticks w) = None ->
  fault env (S (ticks w)) = None ->
  wp (RouterRestart env)
    (fun w1 res =>
       res = inl tt /\
       deployments (store w1) =
         <[TransportDeploymentName := touched (clock env (S (ticks w))) d]>
           (deployments (store w)) /\
       configmaps (store w1) = configmaps (store w) /\
       secrets (store w1) = secrets (store w) /\
       ticks w1 = 2 + ticks w) w.
Proof.
  intros Hd Hname Hf0 Hf1.
  unfold RouterRestart. unfold_kube.
  wp_step. wp_step; try congruence.
  all: subst s; store_cbn; rewrite Hd in Hlook; try discriminate.
  injection Hlook as <-.
  cbn [Name depMeta]. rewrite ?Hname.
  repeat (wp_step; cbn [Name depMeta]; rewrite ?Hname).
  all: try (exfalso; wp_log; congruence).
  split; [reflexivity|]. split; [wp_log; by rewrite Hticks|].
  split; [by wp_log|]. split; [by wp_log|]. cbn [ticks]. lia.
Qed.

(** X2. When the transport deployment is stored under its name and neither
    request fails, [RouterRestart] succeeds and changes nothing but the
    timestamp annotation of the pod template of that deployment, which it
    sets to the time read between the two requests. *)
Theorem RouterRestart_stamps_the_router_only w d :
  deployments (store w) !! TransportDeploymentName = Some d ->
  Name (depMeta d) = TransportDeploymentName ->
  fault env (ticks w) = None ->
  fault env (S (ticks w)) = None ->
  let out := RouterRestart env w in
  out.2 = inl tt /\
  configmaps (store out.1) = configmaps (store w) /\
  secrets (store out.1) = secrets (store w) /\
  (forall name, name <> TransportDeploymentName ->
     deployments (store out.1) !! name = deployments (store w) !! name) /\
  exists d', deployments (store out.1) !! TransportDeploymentName = Some d' /\
    depMeta d' = depMeta d /\
    depPodSpec d' = depPodSpec d /\
    depTemplateAnnotations d' !! UpdatedAnnotation = Some (clock env (S (ticks w))) /\
    forall key, key <> UpdatedAnnotation ->
      depTemplateAnnotations d' !! key = depTemplateAnnotations d !! key.
Proof.
  intros Hd Hname Hf0 Hf1. cbv zeta.
  destruct (RouterRestart_wp w d Hd Hname Hf0 Hf1) as (Hres & Hdeps & Hcms & Hsec & _).
  split; [exact Hres|]. split; [exact Hcms|]. split; [exact Hsec|]. rewrite Hdeps.
  split.
  - intros name Hne. rewrite lookup_insert_ne by congruence. reflexivity.
  - eexists. split; [apply lookup_insert_eq|]. cbn.
    split; [reflexivity|]. split; [reflexivity|].
    split; [apply lookup_insert_eq|]. intros key Hne.
    rewrite lookup_insert_ne by congruence. reflexivity.
Qed.

End Restart.

Lemma RouterRestart_stamps_the_router_only_witness :
  let site := Site.legacy "0.6.0" ServiceTypeClusterIP ServiceTypeClusterIP "" []
                          Site.routerImage Site.controllerImage in
  let out := RouterRestart (H := Site.library "0.6.0") Site.quiet (Site.world site) in
  out.2 = inl tt /\
  deployments (store out.1) !! "skupper-router" =
    Some (touched (H := Site.library "0.6.0") (clock Site.quiet 1)
            (Site.deployment "skupper-router" "skupper" Site.routerImage
               ["skupper-amqps"; "skupper-internal"])).
Proof.
  destruct (RouterRestart_stamps_the_router_only
              (H := Site.library "0.6.0") Site.quiet
              (Site.world (Site.legacy "0.6.0" ServiceTypeClusterIP ServiceTypeClusterIP
                             "" [] Site.routerImage Site.controllerImage))
              (Site.deployment "skupper-router" "skupper" Site.routerImage
                 ["skupper-amqps"; "skupper-internal"]))
    as (Hres & _); [vm_compute; reflexivity|reflexivity|reflexivity|reflexivity|].
  split; [exact Hres|vm_compute; reflexivity].
Defined.

Section Routes.
Context `{Deps} (env : Env).

(** X3. [usingRoutes] sends no request on a cluster without routes and
    answers false. On a cluster with routes it sends exactly one request, a
    read of the inter-router route: it answers true when the route is
    there, false when it is not found, and returns every other error. It
    never changes an object. *)
Theorem usingRoutes_reads_the_inter_router_route cli w :
  let out := usingRoutes env cli w in
  if RouteClient cli then
    exists ev, log out.1 = log w ++ [ev] /\
      isReq VGet KRoute InterRouterRouteName ev /\
      store out.1 = evStore ev /\
      match evErr ev with
      | None => out.2 = inl true /\ is_Some (routes (evStore ev) !! InterRouterRouteName)
      | Some ErrNotFound =>
          out.2 = inl false /\ routes (evStore ev) !! InterRouterRouteName = None
      | Some e => out.2 = inr e
      end
  else out = (w, inl false).
Proof.
  cbv zeta. unfold usingRoutes. destruct (RouteClient cli); [|reflexivity].
  change (wp (usingRoutes env {| Namespace := ""; RouteClient := true |})
    (fun w1 res => exists ev, log w1 = log w ++ [ev] /\
       isReq VGet KRoute InterRouterRouteName ev /\
       store w1 = evStore ev /\
       match evErr ev with
       | None => res = inl true /\ is_Some (routes (evStore ev) !! InterRouterRouteName)
       | Some ErrNotFound =>
           res = inl false /\ routes (evStore ev) !! InterRouterRouteName = None
       | Some e => res = inr e
       end) w).
  unfold_kube. cbn [RouteClient].
  repeat wp_step.
  all: eexists; split; [exact Hlog|]; split; [by repeat split|].
  all: subst; store_cbn; split; [by destruct (routes (store w)) | ]; try done.
  all: rewrite Hstore; store_cbn; split; eauto.
Qed.

End Routes.

Section MarkerRoundTrip.
Context `{Deps} (env : Env).

(** X4. Started then asked: when no marker exists and neither request
    fails, [updateStarted] creates the marker and [isUpdating] then answers
    that an upgrade is in progress, from the version given to
    [updateStarted]. *)
Theorem isUpdating_after_updateStarted from ownerrefs w :
  configmaps (store w) !! marker = None ->
  fault env (ticks w) = None ->
  fault env (S (ticks w)) = None ->
  let started := updateStarted env from ownerrefs w in
  let asked := isUpdating env started.1 in
  started.2 = inl tt /\ asked.2 = inl (true, from) /\
  configmaps (store asked.1) !! marker =
    Some {| cmMeta := {| Name := marker; OwnerReferences := ownerrefs;
                         Annotations := ∅ |};
            cmData := {[ "from" := from ]} |}.
Proof.
  intros Hmarker Hf0 Hf1. cbv zeta.
  change (wp (updateStarted env from ownerrefs)
    (fun w1 res => res = inl tt /\
       wp (isUpdating env)
          (fun w2 res2 => res2 = inl (true, from) /\
             configmaps (store w2) !! marker =
               Some {| cmMeta := {| Name := marker; OwnerReferences := ownerrefs;
                                    Annotations := ∅ |};
                       cmData := {[ "from" := from ]} |}) w1) w).
  unfold marker in *. unfold_kube. cbn [Name cmMeta].
  wp_step. wp_step; try congruence.
  { exfalso. wp_log. congruence. }
  wp_step. split; [reflexivity|].
  wp_step. wp_step. wp_step; try congruence.
  - wp_step. wp_log. rewrite lookup_insert_eq in Hlook0. simplify_eq.
    split; [|apply lookup_insert_eq].
    cbn. by rewrite lookup_singleton_eq.
  - exfalso. wp_log. by rewrite lookup_insert_eq in Hlook0.
Qed.

(** X5. Started twice: when the marker exists, [updateStarted] fails with
    already-exists and leaves the marker as it was, so that [isUpdating]
    still answers with the version the first upgrade started from. *)
Theorem updateStarted_keeps_the_first_marker from ownerrefs w cm :
  configmaps (store w) !! marker = Some cm ->
  fault env (ticks w) = None ->
  fault env (S (ticks w)) = None ->
  let started := updateStarted env from ownerrefs w in
  let asked := isUpdating env started.1 in
  started.2 = inr ErrAlreadyExists /\
  configmaps (store started.1) = configmaps (store w) /\
  asked.2 = inl (true, default "" (cmData cm !! "from")).
Proof.
  intros Hmarker Hf0 Hf1. cbv zeta.
  change (wp (updateStarted env from ownerrefs)
    (fun w1 res => res = inr ErrAlreadyExists /\
       configmaps (store w1) = configmaps (store w) /\
       wp (isUpdating env)
          (fun w2 res2 => res2 = inl (true, default "" (cmData cm !! "from"))) w1) w).
  unfold marker in *. unfold_kube. cbn [Name cmMeta].
  wp_step. wp_step; try congruence.
  2: { exfalso. wp_log. congruence. }
  split; [reflexivity|]. split; [by wp_log|].
  wp_step. wp_step. wp_step; try congruence.
  - wp_step. wp_log. by simplify_eq.
  - exfalso. wp_log. congruence.
Qed.

(** X6. Completed then asked: when the marker exists and neither request
    fails, [updateCompleted] deletes it, and nothing else, and [isUpdating]
    then answers that no upgrade is in progress. *)
Theorem isUpdating_after_updateCompleted w cm :
  configmaps (store w) !! marker = Some cm ->
  fault env (ticks w) = None ->
  fault env (S (ticks w)) = None ->
  let completed := updateCompleted env w in
  let asked := isUpdating env completed.1 in
  completed.2 = inl tt /\
  configmaps (store completed.1) = delete marker (configmaps (store w)) /\
  deployments (store completed.1) = deployments (store w) /\
  asked.2 = inl (false, "").
Proof.
  intros Hmarker Hf0 Hf1. cbv zeta.
  change (wp (updateCompleted env)
    (fun w1 res => res = inl tt /\
       configmaps (store w1) = delete marker (configmaps (store w)) /\
       deployments (store w1) = deployments (store w) /\
       wp (isUpdating env) (fun w2 res2 => res2 = inl (false, "")) w1) w).
  unfold marker in *. unfold_kube.
  wp_step; try congruence.
  2: { exfalso. wp_log. congruence. }
  split; [reflexivity|]. split; [by wp_log|]. split; [by wp_log|].
  wp_step. wp_step. wp_step; try congruence.
  - exfalso. wp_log. by rewrite lookup_delete_eq in Hlook0.
  - cbn [IsNotFound]. by wp_step.
Qed.

(** X7. [isUpdating] sends one read of the marker and changes nothing: it
    answers true with the recorded version when the marker is there, false
    when it is not found, and returns every other error. [updateCompleted]
    sends one deletion of the marker and returns its error, which is
    not-found when there is no marker. *)
Theorem marker_is_read_and_deleted_by_one_request w :
  (let out := isUpdating env w in
   exists ev, log out.1 = log w ++ [ev] /\
     isReq VGet KConfigMap marker ev /\
     store out.1 = evStore ev /\
     match evErr ev with
     | None => exists cm, configmaps (evStore ev) !! marker = Some cm /\
                 out.2 = inl (true, default "" (cmData cm !! "from"))
     | Some ErrNotFound =>
         configmaps (evStore ev) !! marker = None /\ out.2 = inl (false, "")
     | Some e => out.2 = inr e
     end) /\
  (let out := updateCompleted env w in
   exists ev, log out.1 = log w ++ [ev] /\
     isReq VDelete KConfigMap marker ev /\
     match evErr ev with
     | None => out.2 = inl tt /\
               is_Some (configmaps (evStore ev) !! marker) /\
               configmaps (store out.1) = delete marker (configmaps (evStore ev))
     | Some e => out.2 = inr e /\ store out.1 = evStore ev /\
                 (configmaps (evStore ev) !! marker = None ->
                  fault env (ticks w) = None -> e = ErrNotFound)
     end).
Proof.
  unfold marker. cbv zeta. split.
  - change (wp (isUpdating env)
      (fun w1 res => exists ev, log w1 = log w ++ [ev] /\
         isReq VGet KConfigMap "skupper-update-state" ev /\
         store w1 = evStore ev /\
         match evErr ev with
         | None => exists cm,
                     configmaps (evStore ev) !! "skupper-update-state" = Some cm /\
                     res = inl (true, default "" (cmData cm !! "from"))
         | Some ErrNotFound =>
             configmaps (evStore ev) !! "skupper-update-state" = None /\
             res = inl (false, "")
         | Some e => res = inr e
         end) w).
    unfold_kube. repeat wp_step.
    all: try (cbn in Hb; discriminate).
    all: eexists; split; [exact Hlog|]; split; [by repeat split|].
    all: subst; store_cbn; rewrite Hstore; store_cbn.
    all: split; [by destruct (configmaps (store w))|]; eauto.
  - change (wp (updateCompleted env)
      (fun w1 res => exists ev, log w1 = log w ++ [ev] /\
         isReq VDelete KConfigMap "skupper-update-state" ev /\
         match evErr ev with
         | None => res = inl tt /\
                   is_Some (configmaps (evStore ev) !! "skupper-update-state") /\
                   configmaps (store w1) =
                     delete "skupper-update-state" (configmaps (evStore ev))
         | Some e => res = inr e /\ store w1 = evStore ev /\
                     (configmaps (evStore ev) !! "skupper-update-state" = None ->
                      fault env (ticks w) = None -> e = ErrNotFound)
         end) w).
    unfold_kube. repeat wp_step.
    all: eexists; split; [exact Hlog|]; split; [by repeat split|].
    all: subst; store_cbn; rewrite Hstore; store_cbn.
    + split; [reflexivity|]. split; [reflexivity|]. congruence.
    + split; [reflexivity|]. split; [eauto|reflexivity].
    + split; [reflexivity|]. split; [reflexivity|]. done.
Qed.

End MarkerRoundTrip.

Lemma isUpdating_after_updateStarted_witness :
  let w := Site.world (Site.legacy "0.4.2" ServiceTypeClusterIP ServiceTypeClusterIP ""
                         [] "r:0.4.2" "c:0.4.2") in
  let started := updateStarted Site.quiet "0.4.2" ["skupper-site"] w in
  let asked := isUpdating Site.quiet started.1 in
  started.2 = inl tt /\ asked.2 = inl (true, "0.4.2") /\
  configmaps (store asked.1) !! marker =
    Some {| cmMeta := {| Name := marker; OwnerReferences := ["skupper-site"];
                         Annotations := ∅ |};
            cmData := {[ "from" := "0.4.2" ]} |}.
Proof.
  apply (isUpdating_after_updateStarted Site.quiet "0.4.2" ["skupper-site"]
           (Site.world (Site.legacy "0.4.2" ServiceTypeClusterIP ServiceTypeClusterIP ""
                          [] "r:0.4.2" "c:0.4.2"))).
  - vm_compute; reflexivity.
  - reflexivity.
  - reflexivity.
Defined.

Lemma updateStarted_keeps_the_first_marker_witness :
  let w := Site.world
             (Site.withMarker "0.4.2"
                (Site.legacy "0.6.0" ServiceTypeClusterIP ServiceTypeClusterIP ""
                   [] Site.routerImage Site.controllerImage)) in
  let started := updateStarted Site.quiet "0.6.0" [] w in
  let asked := isUpdating Site.quiet started.1 in
  started.2 = inr ErrAlreadyExists /\
  configmaps (store started.1) = configmaps (store w) /\
  asked.2 = inl (true, default "" (cmData {| cmMeta := Site.meta "skupper-update-state";
                                              cmData := {[ "from" := "0.4.2" ]} |}
                                   !! "from")).
Proof.
  apply (updateStarted_keeps_the_first_marker Site.quiet "0.6.0" []
           (Site.world
              (Site.withMarker "0.4.2"
                 (Site.legacy "0.6.0" ServiceTypeClusterIP ServiceTypeClusterIP ""
                    [] Site.routerImage Site.controllerImage)))
           {| cmMeta := Site.meta "skupper-update-state";
              cmData := {[ "from" := "0.4.2" ]} |}).
  - vm_compute; reflexivity.
  - reflexivity.
  - reflexivity.
Defined.

Lemma isUpdating_after_updateCompleted_witness :
  let w := Site.world
             (Site.withMarker "0.4.2"
                (Site.legacy "0.6.0" ServiceTypeClusterIP ServiceTypeClusterIP ""
                   [] Site.routerImage Site.controllerImage)) in
  let completed := updateCompleted Site.quiet w in
  let asked := isUpdating Site.quiet completed.1 in
  completed.2 = inl tt /\
  configmaps (store completed.1) = delete marker (configmaps (store w)) /\
  deployments (store completed.1) = deployments (store w) /\
  asked.2 = inl (false, "").
Proof.
  apply (isUpdating_after_updateCompleted Site.quiet
           (Site.world
              (Site.withMarker "0.4.2"
                 (Site.legacy "0.6.0" ServiceTypeClusterIP ServiceTypeClusterIP ""
                    [] Site.routerImage Site.controllerImage)))
           {| cmMeta := Site.meta "skupper-update-state";
              cmData := {[ "from" := "0.4.2" ]} |}).
  - vm_compute; reflexivity.
  - reflexivity.
  - reflexivity.
Defined.

(** X8. Pointing the OAuth proxy sidecar at a service account twice is
    pointing it at the second one: the argument written by the first call is
    found again by its prefix. In particular the function is idempotent. *)
Theorem updateOauthProxyServiceAccount_last_name_wins spec name1 name2 :
  updateOauthProxyServiceAccount (updateOauthProxyServiceAccount spec name1) name2 =
  updateOauthProxyServiceAccount spec name2.
Proof.
  unfold updateOauthProxyServiceAccount.
  destruct (podMoreContainers spec) as [|c1 rest] eqn:Hmore.
  - by rewrite Hmore.
  - destruct (String.eqb (cName c1) "oauth-proxy") eqn:Hname.
    + cbn [podMoreContainers cName cArgs cImage podServiceAccountName podVolumes
           podContainer0].
      rewrite Hname. f_equal. f_equal. f_equal.
      rewrite map_map. apply map_ext. intros arg.
      destruct (String.prefix "--openshift-service-account" arg) eqn:Hprefix.
      * reflexivity.
      * by rewrite Hprefix.
    + by rewrite Hmore, Hname.
Qed.

(** X9. [updateOauthProxyServiceAccount] rewrites arguments of the second
    container and nothing else: the service account, the volumes, the first
    container and the containers after the second are kept, as are the name
    and the image of the second container and the number of its arguments;
    an argument is replaced only if it starts with
    [--openshift-service-account]. A pod template with one container, or
    whose second container is not named [oauth-proxy], is returned as it
    is. *)
Theorem updateOauthProxyServiceAccount_rewrites_sidecar_arguments_only spec name :
  let spec' := updateOauthProxyServiceAccount spec name in
  podServiceAccountName spec' = podServiceAccountName spec /\
  podVolumes spec' = podVolumes spec /\
  podContainer0 spec' = podContainer0 spec /\
  map cName (podMoreContainers spec') = map cName (podMoreContainers spec) /\
  map cImage (podMoreContainers spec') = map cImage (podMoreContainers spec) /\
  tail (podMoreContainers spec') = tail (podMoreContainers spec) /\
  match podMoreContainers spec, podMoreContainers spec' with
  | c1 :: _, c1' :: _ =>
      Forall2 (fun arg arg' =>
                 if String.prefix "--openshift-service-account" arg
                 then cName c1 = "oauth-proxy" /\
                      arg' = "--openshift-service-account=" +:+ name \/
                      cName c1 <> "oauth-proxy" /\ arg' = arg
                 else arg' = arg) (cArgs c1) (cArgs c1')
  | [], [] => spec' = spec
  | _, _ => False
  end.
Proof.
  cbv zeta. unfold updateOauthProxyServiceAccount.
  destruct (podMoreContainers spec) as [|c1 rest] eqn:Hmore.
  - rewrite Hmore. by repeat split.
  - destruct (String.eqb (cName c1) "oauth-proxy") eqn:Hname.
    + cbn [podMoreContainers cName cArgs cImage podServiceAccountName podVolumes
           podContainer0 map tail].
      repeat (split; [reflexivity|]).
      apply String.eqb_eq in Hname.
      induction (cArgs c1) as [|arg args IH]; cbn [map]; constructor; [|exact IH].
      destruct (String.prefix _ arg); auto.
    + rewrite Hmore. repeat (split; [reflexivity|]).
      apply String.eqb_neq in Hname.
      induction (cArgs c1) as [|arg args IH]; constructor; [|exact IH].
      destruct (String.prefix _ arg); auto.
Qed.

Section Hosts.
Context `{Deps} (env : Env).

(** X10. The hosts that [getTransportHosts] returns are at most two
    external addresses, none of them empty, followed by the name of the
    transport service and the two qualified names, in that order; there
    are no external addresses when the legacy transport service is not
    exposed through a load balancer, and then one request was sent. *)
Theorem getTransportHosts_ends_with_the_service_names ns w hosts :
  (getTransportHosts env ns w).2 = inl hosts ->
  exists external,
    hosts = external ++
            [TransportServiceName;
             qualifiedServiceName TransportServiceName ns;
             qualifiedServiceName "skupper-internal" ns] /\
    length external <= 2 /\
    Forall (fun host => host <> "") external /\
    forall old,
      services (provision (lbAssign env (ticks w)) (store w)) !! "skupper-internal"
        = Some old ->
      svcType old <> ServiceTypeLoadBalancer ->
      external = [] /\ length (log (getTransportHosts env ns w).1) = S (length (log w)).
Proof.
  change (wp (getTransportHosts env ns)
    (fun w1 res => res = inl hosts ->
       exists external,
         hosts = external ++
                 [TransportServiceName;
                  qualifiedServiceName TransportServiceName ns;
                  qualifiedServiceName "skupper-internal" ns] /\
         length external <= 2 /\
         Forall (fun host => host <> "") external /\
         forall old,
           services (provision (lbAssign env (ticks w)) (store w)) !! "skupper-internal"
             = Some old ->
           svcType old <> ServiceTypeLoadBalancer ->
           external = [] /\ length (log w1) = S (length (log w))) w).
  unfold getTransportHosts, GetService at 1, Get.
  wp_step. wp_step; try discriminate.
  wp_step. wp_step.
  - wp_step. eapply wp_conseq; [apply pollTransportHost_wp|].
    intros w2 [host|e2] _; [|discriminate].
    wp_step. wp_step. intros [= <-].
    exists ((if negb (String.eqb host "") then [host] else []) ++
            (if negb (String.eqb (GetLoadBalancerHostOrIP s0) "")
             then [GetLoadBalancerHostOrIP s0] else [])).
    split; [|split; [|split]].
    + destruct (String.eqb host "") eqn:Hh, (String.eqb (GetLoadBalancerHostOrIP s0) "")
        eqn:Hl; reflexivity.
    + destruct (String.eqb host ""), (String.eqb (GetLoadBalancerHostOrIP s0) "");
        simpl; lia.
    + apply Forall_app. split.
      * destruct (String.eqb host "") eqn:Hh; simpl; [constructor|].
        apply Forall_singleton. by apply String.eqb_neq.
      * destruct (String.eqb (GetLoadBalancerHostOrIP s0) "") eqn:Hl; simpl;
          [constructor|].
        apply Forall_singleton. by apply String.eqb_neq.
    + intros old Hold Htype. exfalso. subst s. cbn [objs Services] in Hlook.
      rewrite Hold in Hlook. simplify_eq.
      by destruct (svcType s0).
  - wp_step. wp_step. intros [= <-]. exists []. split; [reflexivity|].
    split; [simpl; lia|]. split; [constructor|].
    intros old _ _. split; [reflexivity|]. rewrite Hlog, length_app. simpl. lia.
Qed.

End Hosts.

Lemma getTransportHosts_ends_with_the_service_names_witness :
  let site := Site.legacy "0.4.2" ServiceTypeClusterIP ServiceTypeClusterIP "" []
                          "r:0.4.2" "c:0.4.2" in
  exists external,
    ["skupper-router"; "skupper-router.ns.svc.cluster.local";
     "skupper-internal.ns.svc.cluster.local"] =
    external ++
      [TransportServiceName (Deps := Site.library "0.6.0");
       qualifiedServiceName (TransportServiceName (Deps := Site.library "0.6.0")) "ns";
       qualifiedServiceName "skupper-internal" "ns"] /\
    length external <= 2.
Proof.
  destruct (getTransportHosts_ends_with_the_service_names
              (H := Site.library "0.6.0") Site.quiet "ns"
              (Site.world (Site.legacy "0.4.2" ServiceTypeClusterIP ServiceTypeClusterIP
                             "" [] "r:0.4.2" "c:0.4.2"))
              ["skupper-router"; "skupper-router.ns.svc.cluster.local";
               "skupper-internal.ns.svc.cluster.local"])
    as (external & Heq & Hlen & _); [vm_compute; reflexivity|].
  exists external. split; [exact Heq|exact Hlen].
Defined.

Lemma DeepEqual_annotated annotations d :
  DeepEqual annotations (depTemplateAnnotations d) = true -> annotated annotations d = d.
Proof.
  unfold DeepEqual, annotated. destruct d as [meta current spec]. cbn.
  destruct annotations as [m|]; cbn.
  - intros [Heq _]%andb_prop. apply bool_decide_eq_true in Heq. by subst.
  - intros Heq%bool_decide_eq_true. by subst.
Qed.

Section Annotations.
Context `{Deps} (env : Env).

Lemma updateAnnotationsOnDeployment_wp name annotations w d :
  deployments (store w) !! name = Some d ->
  Name (depMeta d) = name ->
  fault env (ticks w) = None ->
  fault env (S (ticks w)) = None ->
  let update := negb (DeepEqual annotations (depTemplateAnnotations d)) in
  wp (updateAnnotationsOnDeployment env name annotations)
    (fun w1 res =>
       res = inl update /\
       deployments (store w1) = <[name := annotated annotations d]> (deployments (store w)) /\
       configmaps (store w1) = configmaps (store w) /\
       ticks w1 = (if update then 2 else 1) + ticks w /\
       exists evs, log w1 = log w ++ evs /\
         Forall readOrUpdate evs /\
         redeployed evs = if update then [name] else []) w.
Proof.
  intros Hd Hname Hf0 Hf1. cbv zeta.
  unfold updateAnnotationsOnDeployment. unfold_kube.
  wp_step. wp_step. wp_step; try congruence.
  all: subst s; store_cbn; rewrite Hd in Hlook; try discriminate.
  injection Hlook as <-.
  destruct (DeepEqual annotations (depTemplateAnnotations d)) eqn:Heq; cbn [negb].
  - wp_step. split; [reflexivity|].
    split; [|split; [by wp_log|split; [cbn [ticks]; lia|]]].
    + rewrite (DeepEqual_annotated _ _ Heq). wp_log. by rewrite insert_id.
    + wp_log. split; [readOrUpdate_tac|reflexivity].
  - cbn [Name depMeta].
    repeat (wp_step; cbn [Name depMeta]).
    all: try (exfalso; wp_log; congruence).
    split; [reflexivity|]. split; [by wp_log|]. split; [by wp_log|].
    split; [cbn [ticks]; lia|].
    wp_log. split; [readOrUpdate_tac|reflexivity].
Qed.

(** X11. When the deployment is stored under its name and no request
    fails, [updateAnnotationsOnDeployment] leaves it with exactly the given
    annotations on its pod template, whatever annotations it had, and with
    everything else as it was; it sends an update, and answers true, exactly
    when the given annotations are not deeply equal to those it had. *)
Theorem updateAnnotationsOnDeployment_replaces_the_annotations name annotations w d :
  deployments (store w) !! name = Some d ->
  Name (depMeta d) = name ->
  fault env (ticks w) = None ->
  fault env (S (ticks w)) = None ->
  let out := updateAnnotationsOnDeployment env name annotations w in
  let update := negb (DeepEqual annotations (depTemplateAnnotations d)) in
  out.2 = inl update /\
  deployments (store out.1) = <[name := annotated annotations d]> (deployments (store w)) /\
  configmaps (store out.1) = configmaps (store w) /\
  exists evs, log out.1 = log w ++ evs /\
    Forall readOrUpdate evs /\
    redeployed evs = if update then [name] else [].
Proof.
  intros Hd Hname Hf0 Hf1.
  destruct (updateAnnotationsOnDeployment_wp name annotations w d Hd Hname Hf0 Hf1)
    as (Hres & Hdeps & Hcms & _ & Hevs).
  by repeat split.
Qed.

(** X12. Asked twice for the same annotations, [updateAnnotationsOnDeployment]
    sends no second update and answers false the second time, provided the
    annotations are not an empty map that is not nil: the deployment read
    back has nil annotations then, which are not deeply equal to it. *)
Theorem updateAnnotationsOnDeployment_twice name annotations w d :
  deployments (store w) !! name = Some d ->
  Name (depMeta d) = name ->
  (forall n, n < 4 -> fault env (ticks w + n) = None) ->
  annotations <> Some ∅ ->
  let first := updateAnnotationsOnDeployment env name annotations w in
  let second := updateAnnotationsOnDeployment env name annotations first.1 in
  second.2 = inl false /\
  deployments (store second.1) = deployments (store first.1) /\
  exists ev, log second.1 = log first.1 ++ [ev] /\ isReq VGet KDeployment name ev.
Proof.
  intros Hd Hname Hfault Hne. cbv zeta.
  assert (Hf : forall n, n < 4 -> fault env (n + ticks w) = None).
  { intros n Hn. rewrite Nat.add_comm. by apply Hfault. }
  change (wp (updateAnnotationsOnDeployment env name annotations)
    (fun w1 res =>
       wp (updateAnnotationsOnDeployment env name annotations)
          (fun w2 res2 => res2 = inl false /\
             deployments (store w2) = deployments (store w1) /\
             exists ev, log w2 = log w1 ++ [ev] /\ isReq VGet KDeployment name ev) w1) w).
  eapply wp_conseq.
  { apply (updateAnnotationsOnDeployment_wp name annotations w d); auto.
    - apply (Hf 0); lia.
    - apply (Hf 1); lia. }
  cbv zeta. intros w1 res (_ & Hdeps & _ & Ht & _).
  assert (Hequal : DeepEqual annotations
                     (depTemplateAnnotations (annotated annotations d)) = true).
  { unfold DeepEqual, annotated. cbn. destruct annotations as [m|]; cbn.
    - rewrite bool_decide_eq_true_2 by done. cbn.
      rewrite bool_decide_eq_false_2; [done|]. congruence.
    - by rewrite bool_decide_eq_true_2. }
  unfold updateAnnotationsOnDeployment. unfold_kube.
  wp_step. wp_step. wp_step.
  - exfalso. rewrite Ht in Hfault0.
    destruct (negb _); [rewrite (Hf 2) in Hfault0|rewrite (Hf 1) in Hfault0];
      (lia || discriminate).
  - subst s. store_cbn. rewrite Hdeps, lookup_insert_eq in Hlook. simplify_eq.
    rewrite Hequal. cbn [negb]. wp_step.
    split; [reflexivity|]. split; [by wp_log|].
    eexists. split; [exact Hlog|]. by repeat split.
  - exfalso. subst s. store_cbn. by rewrite Hdeps, lookup_insert_eq in Hlook.
Qed.

End Annotations.

Section RestartThenAnnotate.
Context `{Deps} (env : Env).

(** X13. Annotating after a restart undoes the timestamp: when the router
    has just been restarted, [updateAnnotationsOnDeployment] called for it
    with annotations that do not carry the timestamp always finds a
    difference, sends an update, and leaves the deployment without the
    timestamp that [RouterRestart] wrote. *)
Theorem updateAnnotationsOnDeployment_drops_the_restart_timestamp annotations w d :
  deployments (store w) !! TransportDeploymentName = Some d ->
  Name (depMeta d) = TransportDeploymentName ->
  (forall n, n < 4 -> fault env (ticks w + n) = None) ->
  default ∅ annotations !! UpdatedAnnotation = None ->
  let restarted := RouterRestart env w in
  let out := updateAnnotationsOnDeployment env TransportDeploymentName annotations
               restarted.1 in
  restarted.2 = inl tt /\
  out.2 = inl true /\
  exists d', deployments (store out.1) !! TransportDeploymentName = Some d' /\
    depTemplateAnnotations d' = default ∅ annotations /\
    depTemplateAnnotations d' !! UpdatedAnnotation = None /\
    depPodSpec d' = depPodSpec d.
Proof.
  intros Hd Hname Hfault Hnone. cbv zeta.
  assert (Hf : forall n, n < 4 -> fault env (n + ticks w) = None).
  { intros n Hn. rewrite Nat.add_comm. by apply Hfault. }
  destruct (RouterRestart_wp env w d Hd Hname (Hf 0 ltac:(lia)) (Hf 1 ltac:(lia)))
    as (Hres & Hdeps & _ & _ & Ht).
  split; [exact Hres|].
  set (w1 := (RouterRestart env w).1) in *.
  set (d1 := touched (clock env (S (ticks w))) d) in *.
  assert (Hd1 : deployments (store w1) !! TransportDeploymentName = Some d1).
  { by rewrite Hdeps, lookup_insert_eq. }
  destruct (updateAnnotationsOnDeployment_wp env TransportDeploymentName annotations
              w1 d1 Hd1 Hname)
    as (Hres' & Hdeps' & _).
  { rewrite Ht. apply (Hf 2). lia. }
  { rewrite Ht. apply (Hf 3). lia. }
  split.
  - rewrite Hres'. f_equal.
    assert (DeepEqual annotations (depTemplateAnnotations d1) = false) as ->; [|done].
    unfold DeepEqual, d1, touched. cbn [depTemplateAnnotations].
    destruct annotations as [m|]; cbn in *.
    + apply andb_false_intro1, bool_decide_eq_false_2. intros ->.
      by rewrite lookup_insert_eq in Hnone.
    + apply bool_decide_eq_false_2. apply insert_non_empty.
  - exists (annotated annotations d1). rewrite Hdeps', lookup_insert_eq.
    by repeat split.
Qed.

End RestartThenAnnotate.

Lemma copyInto_union from to : copyInto from to = from ∪ to.
Proof.
  unfold copyInto.
  apply (map_fold_weak_ind (fun r m => r = m ∪ to)).
  - symmetry. apply (left_id_L ∅ (∪)).
  - intros key value m r Hkey ->. by rewrite insert_union_l.
Qed.

(** X14. The two copy loops of [RouterUpdateAnnotations] give the transport
    deployment the annotations of the site and, for the keys the site does
    not set, those that make Prometheus scrape the router: on a key that
    both set, the site wins. *)
Theorem transport_annotations_prefer_the_site (prometheus site : gmap string string) key :
  copyInto site (copyInto prometheus ∅) !! key =
  match site !! key with
  | Some value => Some value
  | None => prometheus !! key
  end.
Proof.
  rewrite !copyInto_union, (right_id_L ∅ (∪)), lookup_union.
  destruct (site !! key), (prometheus !! key); reflexivity.
Qed.

Lemma wp_bind_of {R A B} (m : M R A) (f : A -> M R B) (K : World -> B + R -> Prop)
    w w0 a :
  m w = (w0, inl a) -> wp (f a) K w0 -> wp (bind m f) K w.
Proof. unfold wp, bind. by intros ->. Qed.

Section SiteSettings.
Context `{Deps} (env : Env) {L : Type}.
Variable SiteConfigInspect : ConfigMap -> M Err (SiteConfig L).
Variable TransportPrometheusAnnotations : gmap string string.

(** X15. When the site configuration is found, both deployments are
    stored under their names and no request fails, [RouterUpdateAnnotations]
    gives the controller deployment the annotations of the site and the
    transport deployment those of the site over those of Prometheus, sending
    an update for each deployment that differs. What it answers is whether
    the transport deployment was updated: an update of the controller
    deployment alone is answered with false. *)
Theorem RouterUpdateAnnotations_answers_for_the_transport_only
    settings w w0 siteConfig controller router :
  SiteConfigInspect settings w = (w0, inl siteConfig) ->
  deployments (store w0) !! ControllerDeploymentName = Some controller ->
  deployments (store w0) !! TransportDeploymentName = Some router ->
  Name (depMeta controller) = ControllerDeploymentName ->
  Name (depMeta router) = TransportDeploymentName ->
  TransportDeploymentName <> ControllerDeploymentName ->
  (forall n, n < 4 -> fault env (ticks w0 + n) = None) ->
  let out := RouterUpdateAnnotations env SiteConfigInspect TransportPrometheusAnnotations
               settings w in
  let site := SpecAnnotations siteConfig in
  let transport := Some (default ∅ site ∪ TransportPrometheusAnnotations) in
  let updateController := negb (DeepEqual site (depTemplateAnnotations controller)) in
  let updateTransport := negb (DeepEqual transport (depTemplateAnnotations router)) in
  out.2 = inl updateTransport /\
  (exists evs, log out.1 = log w0 ++ evs /\
     redeployed evs =
       (if updateController then [ControllerDeploymentName] else []) ++
       (if updateTransport then [TransportDeploymentName] else [])) /\
  deployments (store out.1) !! ControllerDeploymentName =
    Some (annotated site controller) /\
  deployments (store out.1) !! TransportDeploymentName =
    Some (annotated transport router).
Proof.
  intros Hinspect Hc Hr Hcname Hrname Hne Hfault. cbv zeta.
  assert (Hf : forall n, n < 4 -> fault env (n + ticks w0) = None).
  { intros n Hn. rewrite Nat.add_comm. by apply Hfault. }
  set (site := SpecAnnotations siteConfig).
  set (transport := Some (default ∅ site ∪ TransportPrometheusAnnotations)).
  change (wp (RouterUpdateAnnotations env SiteConfigInspect TransportPrometheusAnnotations
                settings)
    (fun w1 res =>
       res = inl (negb (DeepEqual transport (depTemplateAnnotations router))) /\
       (exists evs, log w1 = log w0 ++ evs /\
          redeployed evs =
            (if negb (DeepEqual site (depTemplateAnnotations controller))
             then [ControllerDeploymentName] else []) ++
            (if negb (DeepEqual transport (depTemplateAnnotations router))
             then [TransportDeploymentName] else [])) /\
       deployments (store w1) !! ControllerDeploymentName =
         Some (annotated site controller) /\
       deployments (store w1) !! TransportDeploymentName =
         Some (annotated transport router)) w).
  unfold RouterUpdateAnnotations.
  rewrite !copyInto_union, (right_id_L ∅ (∪)).
  eapply wp_bind_of.
  { unfold orReturn. rewrite Hinspect. reflexivity. }
  rewrite ?copyInto_union. fold site. fold transport.
  wp_step.
  eapply wp_conseq.
  { apply (updateAnnotationsOnDeployment_wp env ControllerDeploymentName site w0
             controller); auto.
    - apply (Hf 0); lia.
    - apply (Hf 1); lia. }
  cbv zeta. set (uc := negb (DeepEqual site _)).
  intros w1 res (-> & Hdeps & _ & Ht & evs & Hlog & _ & Hred).
  wp_step.
  eapply wp_conseq.
  { apply (updateAnnotationsOnDeployment_wp env TransportDeploymentName transport w1
             router); auto.
    - rewrite Hdeps, lookup_insert_ne by congruence. exact Hr.
    - rewrite Ht. destruct uc; apply Hf; lia.
    - rewrite Ht. destruct uc; [apply (Hf 3)|apply (Hf 2)]; lia. }
  cbv zeta. set (ut := negb (DeepEqual transport _)).
  intros w2 res (-> & Hdeps' & _ & Ht' & evs' & Hlog' & _ & Hred').
  wp_step.
  split; [reflexivity|]. split; [|split].
  - exists (evs ++ evs'). rewrite Hlog', Hlog, <- app_assoc. split; [reflexivity|].
    by rewrite redeployed_app, Hred, Hred'.
  - rewrite Hdeps', Hdeps, lookup_insert_ne by done. apply lookup_insert_eq.
  - rewrite Hdeps'. apply lookup_insert_eq.
Qed.

End SiteSettings.

Section Logging.
Context `{Deps} (env : Env) {L : Type}.
Variable SiteConfigInspect : ConfigMap -> M Err (SiteConfig L).
Variable configureRouterLogging : RouterConfig -> L -> RouterConfig * bool.
Variable WriteToConfigMap : RouterConfig -> ConfigMap -> ConfigMap.

(** X16. When the logging of the site configuration is already that of
    the router configuration, [RouterUpdateLogging] answers false after one
    read of the router's config map: it writes nothing and restarts
    nothing, with or without the force-restart flag. *)
Theorem RouterUpdateLogging_unchanged_logging_only_reads
    settings hup w w0 siteConfig cm config config' :
  SiteConfigInspect settings w = (w0, inl siteConfig) ->
  configmaps (store w0) !! TransportConfigMapName = Some cm ->
  GetRouterConfigFromConfigMap cm = inr config ->
  configureRouterLogging config (SpecRouterLogging siteConfig) = (config', false) ->
  fault env (ticks w0) = None ->
  let out := RouterUpdateLogging env SiteConfigInspect configureRouterLogging
               WriteToConfigMap settings hup w in
  out.2 = inl false /\
  configmaps (store out.1) = configmaps (store w0) /\
  deployments (store out.1) = deployments (store w0) /\
  exists ev, log out.1 = log w0 ++ [ev] /\
    isReq VGet KConfigMap TransportConfigMapName ev.
Proof.
  intros Hinspect Hcm Hparse Hlogging Hf0. cbv zeta.
  change (wp (RouterUpdateLogging env SiteConfigInspect configureRouterLogging
                WriteToConfigMap settings hup)
    (fun w1 res =>
       res = inl false /\
       configmaps (store w1) = configmaps (store w0) /\
       deployments (store w1) = deployments (store w0) /\
       exists ev, log w1 = log w0 ++ [ev] /\
         isReq VGet KConfigMap TransportConfigMapName ev) w).
  unfold RouterUpdateLogging.
  eapply wp_bind_of.
  { unfold orReturn. rewrite Hinspect. reflexivity. }
  unfold_kube. wp_step. wp_step. wp_step; try congruence.
  all: subst s; store_cbn; rewrite Hcm in Hlook; try discriminate.
  injection Hlook as <-.
  wp_step. wp_step. wp_step.
  all: rewrite Hparse in Hr; simplify_eq.
  rewrite Hlogging. wp_step.
  split; [reflexivity|]. split; [by wp_log|]. split; [by wp_log|].
  eexists. split; [exact Hlog|]. by repeat split.
Qed.

(** X17. When the logging of the site configuration differs, the config
    map is stored under its name and no request fails, [RouterUpdateLogging]
    writes the changed router configuration into the config map and
    answers true. It restarts the router, by its timestamp annotation,
    only with the force-restart flag; without the flag it sends no request
    about a deployment. *)
Theorem RouterUpdateLogging_restarts_the_router_only_when_forced
    settings hup w w0 siteConfig cm config config' d :
  SiteConfigInspect settings w = (w0, inl siteConfig) ->
  configmaps (store w0) !! TransportConfigMapName = Some cm ->
  GetRouterConfigFromConfigMap cm = inr config ->
  configureRouterLogging config (SpecRouterLogging siteConfig) = (config', true) ->
  Name (cmMeta (WriteToConfigMap config' cm)) = TransportConfigMapName ->
  (hup = true ->
   deployments (store w0) !! TransportDeploymentName = Some d /\
   Name (depMeta d) = TransportDeploymentName) ->
  (forall n, n < 4 -> fault env (ticks w0 + n) = None) ->
  let out := RouterUpdateLogging env SiteConfigInspect configureRouterLogging
               WriteToConfigMap settings hup w in
  out.2 = inl true /\
  configmaps (store out.1) =
    <[TransportConfigMapName := WriteToConfigMap config' cm]> (configmaps (store w0)) /\
  deployments (store out.1) =
    (if hup
     then <[TransportDeploymentName := touched (clock env (3 + ticks w0)) d]>
            (deployments (store w0))
     else deployments (store w0)) /\
  exists evs, log out.1 = log w0 ++ evs /\
    Forall readOrUpdate evs /\
    map evKind evs = [KConfigMap; KConfigMap] ++
                     (if hup then [KDeployment; KDeployment] else []) /\
    redeployed evs = if hup then [TransportDeploymentName] else [].
Proof.
  intros Hinspect Hcm Hparse Hlogging Hname Hd Hfault. cbv zeta.
  assert (Hf0 : fault env (ticks w0) = None).
  { rewrite <- (Nat.add_0_r (ticks w0)). apply Hfault. lia. }
  assert (Hf1 : fault env (S (ticks w0)) = None).
  { replace (S (ticks w0)) with (ticks w0 + 1) by lia. apply Hfault. lia. }
  assert (Hf2 : fault env (S (S (ticks w0))) = None).
  { replace (S (S (ticks w0))) with (ticks w0 + 2) by lia. apply Hfault. lia. }
  assert (Hf3 : fault env (S (S (S (ticks w0)))) = None).
  { replace (S (S (S (ticks w0)))) with (ticks w0 + 3) by lia. apply Hfault. lia. }
  change (wp (RouterUpdateLogging env SiteConfigInspect configureRouterLogging
                WriteToConfigMap settings hup)
    (fun w1 res =>
       res = inl true /\
       configmaps (store w1) =
         <[TransportConfigMapName := WriteToConfigMap config' cm]>
           (configmaps (store w0)) /\
       deployments (store w1) =
         (if hup
          then <[TransportDeploymentName := touched (clock env (3 + ticks w0)) d]>
                 (deployments (store w0))
          else deployments (store w0)) /\
       exists evs, log w1 = log w0 ++ evs /\
         Forall readOrUpdate evs /\
         map evKind evs = [KConfigMap; KConfigMap] ++
                          (if hup then [KDeployment; KDeployment] else []) /\
         redeployed evs = if hup then [TransportDeploymentName] else []) w).
  unfold RouterUpdateLogging.
  eapply wp_bind_of.
  { unfold orReturn. rewrite Hinspect. reflexivity. }
  unfold_kube. wp_step. wp_step. wp_step; try congruence.
  all: subst s; store_cbn; rewrite Hcm in Hlook; try discriminate.
  injection Hlook as <-.
  wp_step. wp_step. wp_step.
  all: rewrite Hparse in Hr; simplify_eq.
  rewrite Hlogging. cbn [Name cmMeta]. rewrite Hname.
  wp_step. wp_step. wp_step; try congruence.
  2: { exfalso. wp_log. congruence. }
  wp_step. destruct hup.
  - destruct (Hd eq_refl) as [Hdep Hdname].
    wp_step. wp_step. wp_step; try congruence.
    2: { exfalso. wp_log. congruence. }
    assert (d0 = d) as ->.
    { wp_log. congruence. }
    cbn [Name depMeta]. rewrite ?Hdname.
    repeat (wp_step; cbn [Name depMeta]; rewrite ?Hdname).
    all: try (exfalso; wp_log; congruence).
    split; [reflexivity|]. split; [by wp_log|].
    split; [wp_log; by rewrite Hticks1, Hticks0, Hticks|].
    wp_log. split; [readOrUpdate_tac|]. split; reflexivity.
  - repeat wp_step.
    split; [reflexivity|]. split; [by wp_log|]. split; [by wp_log|].
    wp_log. split; [readOrUpdate_tac|]. split; reflexivity.
Qed.

End Logging.

Lemma updateAnnotationsOnDeployment_replaces_the_annotations_witness :
  let annotations : option (gmap string string) := Some {[ "team" := "a" ]} in
  let out := updateAnnotationsOnDeployment Site.quiet
               "skupper-router" annotations (Site.world Sample.site) in
  out.2 = inl (negb (DeepEqual annotations (depTemplateAnnotations Sample.router))) /\
  deployments (store out.1) =
    <["skupper-router" := annotated annotations Sample.router]>
      (deployments (store (Site.world Sample.site))).
Proof.
  cbv zeta.
  destruct (updateAnnotationsOnDeployment_replaces_the_annotations
              Site.quiet "skupper-router"
              (Some {[ "team" := "a" ]}) (Site.world Sample.site) Sample.router)
    as (Hres & Hdeps & _);
    [vm_compute; reflexivity|reflexivity|reflexivity|reflexivity|].
  split; [exact Hres|exact Hdeps].
Defined.

Lemma updateAnnotationsOnDeployment_twice_witness :
  let annotations : option (gmap string string) := Some {[ "team" := "a" ]} in
  let first := updateAnnotationsOnDeployment Site.quiet
                 "skupper-router" annotations (Site.world Sample.site) in
  let second := updateAnnotationsOnDeployment Site.quiet
                  "skupper-router" annotations first.1 in
  first.2 = inl true /\ second.2 = inl false.
Proof.
  cbv zeta. split; [vm_compute; reflexivity|].
  destruct (updateAnnotationsOnDeployment_twice
              Site.quiet "skupper-router"
              (Some {[ "team" := "a" ]}) (Site.world Sample.site) Sample.router)
    as (Hres & _);
    [vm_compute; reflexivity|reflexivity|reflexivity| |exact Hres].
  intros Heq. apply (f_equal (fun m => default ∅ m !! "team")) in Heq.
  vm_compute in Heq. discriminate.
Defined.

Lemma updateAnnotationsOnDeployment_drops_the_restart_timestamp_witness :
  let annotations : option (gmap string string) := Some {[ "team" := "a" ]} in
  let restarted := RouterRestart (H := Site.library "0.6.0") Site.quiet
                     (Site.world Sample.site) in
  let out := updateAnnotationsOnDeployment Site.quiet
               "skupper-router" annotations restarted.1 in
  restarted.2 = inl tt /\ out.2 = inl true.
Proof.
  cbv zeta.
  destruct (updateAnnotationsOnDeployment_drops_the_restart_timestamp
              (H := Site.library "0.6.0") Site.quiet
              (Some {[ "team" := "a" ]}) (Site.world Sample.site) Sample.router)
    as (Hres & Hres' & _);
    [vm_compute; reflexivity|reflexivity|reflexivity|vm_compute; reflexivity|].
  split; [exact Hres|exact Hres'].
Defined.

Lemma RouterUpdateAnnotations_answers_for_the_transport_only_witness :
  let w := Site.world
             (setObjs Deployments
                (<["skupper-router" :=
                     annotated (Some ({[ "team" := "a" ]} ∪
                                      Sample.TransportPrometheusAnnotations))
                               Sample.router]> (deployments Sample.site))
                Sample.site) in
  let out := RouterUpdateAnnotations (H := Site.library "0.6.0") Site.quiet
               Sample.SiteConfigInspect Sample.TransportPrometheusAnnotations
               (Sample.settings "" (Some "a")) w in
  out.2 = inl false /\
  exists evs, log out.1 = log w ++ evs /\
    redeployed evs = ["skupper-service-controller"].
Proof.
  cbv zeta.
  destruct (RouterUpdateAnnotations_answers_for_the_transport_only
              (H := Site.library "0.6.0") Site.quiet
              Sample.SiteConfigInspect Sample.TransportPrometheusAnnotations
              (Sample.settings "" (Some "a"))
              (Site.world
                 (setObjs Deployments
                    (<["skupper-router" :=
                         annotated (Some ({[ "team" := "a" ]} ∪
                                          Sample.TransportPrometheusAnnotations))
                                   Sample.router]> (deployments Sample.site))
                    Sample.site))
              (Site.world
                 (setObjs Deployments
                    (<["skupper-router" :=
                         annotated (Some ({[ "team" := "a" ]} ∪
                                          Sample.TransportPrometheusAnnotations))
                                   Sample.router]> (deployments Sample.site))
                    Sample.site))
              {| SpecRouterLogging := ""; SpecAnnotations := Some {[ "team" := "a" ]} |}
              Sample.controller
              (annotated (Some ({[ "team" := "a" ]} ∪
                                Sample.TransportPrometheusAnnotations))
                         Sample.router))
    as (Hres & (evs & Hlog & Hred) & _);
    [vm_compute; reflexivity|vm_compute; reflexivity|vm_compute; reflexivity
    |reflexivity|reflexivity|discriminate|reflexivity|].
  split.
  - rewrite Hres. vm_compute. reflexivity.
  - exists evs. split; [exact Hlog|]. rewrite Hred. vm_compute. reflexivity.
Defined.

Lemma RouterUpdateLogging_unchanged_logging_only_reads_witness :
  let out := RouterUpdateLogging (H := Site.library "0.6.0") Site.quiet
               Sample.SiteConfigInspect Sample.configureRouterLogging
               Sample.WriteToConfigMap (Sample.settings "[]" None) true
               (Site.world Sample.site) in
  out.2 = inl false /\
  deployments (store out.1) = deployments (store (Site.world Sample.site)).
Proof.
  cbv zeta.
  destruct (RouterUpdateLogging_unchanged_logging_only_reads
              (H := Site.library "0.6.0") Site.quiet
              Sample.SiteConfigInspect Sample.configureRouterLogging
              Sample.WriteToConfigMap (Sample.settings "[]" None) true
              (Site.world Sample.site) (Site.world Sample.site)
              {| SpecRouterLogging := "[]"; SpecAnnotations := None |}
              (Site.siteConfig "0.6.0")
              {| rcSiteMetadata := {| siteId := "site-1"; siteVersion := "0.6.0" |};
                 rcRest := "[]" |}
              {| rcSiteMetadata := {| siteId := "site-1"; siteVersion := "0.6.0" |};
                 rcRest := "[]" |})
    as (Hres & _ & Hdeps & _);
    [vm_compute; reflexivity|vm_compute; reflexivity|vm_compute; reflexivity
    |vm_compute; reflexivity|reflexivity|].
  split; [exact Hres|exact Hdeps].
Defined.

Lemma RouterUpdateLogging_restarts_the_router_only_when_forced_witness :
  let out := RouterUpdateLogging (H := Site.library "0.6.0") Site.quiet
               Sample.SiteConfigInspect Sample.configureRouterLogging
               Sample.WriteToConfigMap (Sample.settings "debug" None) false
               (Site.world Sample.site) in
  out.2 = inl true /\
  deployments (store out.1) = deployments (store (Site.world Sample.site)).
Proof.
  cbv zeta.
  destruct (RouterUpdateLogging_restarts_the_router_only_when_forced
              (H := Site.library "0.6.0") Site.quiet
              Sample.SiteConfigInspect Sample.configureRouterLogging
              Sample.WriteToConfigMap (Sample.settings "debug" None) false
              (Site.world Sample.site) (Site.world Sample.site)
              {| SpecRouterLogging := "debug"; SpecAnnotations := None |}
              (Site.siteConfig "0.6.0")
              {| rcSiteMetadata := {| siteId := "site-1"; siteVersion := "0.6.0" |};
                 rcRest := "[]" |}
              {| rcSiteMetadata := {| siteId := "site-1"; siteVersion := "0.6.0" |};
                 rcRest := "debug" |}
              Sample.router)
    as (Hres & _ & Hdeps & _);
    [vm_compute; reflexivity|vm_compute; reflexivity|vm_compute; reflexivity
    |vm_compute; reflexivity|reflexivity|discriminate|reflexivity|].
  split; [exact Hres|exact Hdeps].
Defined.

Section NoRename.
Context `{Deps} (env : Env) (cli : VanClient).

Lemma checkVersion_norename_requests w :
  configmaps (store w) !! marker = None ->
  (forall cm config,
     configmaps (store w) !! TransportConfigMapName = Some cm ->
     GetRouterConfigFromConfigMap cm = inr config ->
     LessRecentThanVersion (siteVersion (GetSiteMetadata config)) "0.5.0" = false) ->
  wp (checkVersion env)
    (fun w1 res =>
       (exists evs, log w1 = log w ++ evs /\
          Forall (fun ev => readOrUpdate ev /\ evKind ev = KConfigMap) evs) /\
       match res with
       | inl (_, rename, inprogress, _) => rename = false /\ inprogress = false
       | inr _ => True
       end) w.
Proof.
  intros Hmarker Hnew. unfold marker in *.
  unfold checkVersion. unfold_kube.
  wp_step. wp_step. wp_step.
  1, 3: split; [|exact I]; wp_log; forall_list; split; unfold readOrUpdate; auto.
  assert (Hcm : configmaps (store w) !! TransportConfigMapName = Some c).
  { by wp_log. }
  wp_step. wp_step. wp_step.
  { split; [|exact I]. wp_log. forall_list; split; unfold readOrUpdate; auto. }
  rewrite (Hnew c r Hcm Hr).
  wp_step.
  { wp_step. split; [|exact I]. wp_log. forall_list; split; unfold readOrUpdate; auto. }
  wp_step. wp_step. wp_step. wp_step. wp_step.
  - cbn [IsNotFound]. wp_step.
    split; [|exact I]. wp_log. forall_list; split; unfold readOrUpdate; cbn; auto.
  - exfalso. wp_log. congruence.
  - cbn [IsNotFound negb andb]. wp_step.
    repeat wp_step.
    all: try (cbn [negb andb] in *; discriminate).
    all: split; [|try exact I; by split].
    all: wp_log; forall_list; split; unfold readOrUpdate; cbn; auto.
Qed.

Lemma renameAndUpdate_norename_requests hup us ns cm w :
  wp (renameAndUpdate env cli hup ns cm false us)
    (fun w1 res =>
       exists evs, log w1 = log w ++ evs /\
         Forall (fun ev => readOrUpdate ev /\ evKind ev = KDeployment) evs) w.
Proof.
  unfold renameAndUpdate.
  apply (wp_bind (ret (false, false, false))). wp_step.
  unfold updateRouterDeployment, updateControllerDeployment. unfold_kube.
  repeat wp_step.
  all: wp_log; forall_list; split; unfold readOrUpdate; cbn; auto.
Qed.

(** X18. Outside a rename nothing is created and nothing is deleted,
    whatever fails: on a site that is not older than 0.5.0 and holds no
    upgrade marker, every request of an invocation is a read or an update
    of a config map or of a deployment. *)
Theorem invocation_without_rename_creates_and_deletes_nothing hup ns w :
  configmaps (store w) !! marker = None ->
  (forall cm config,
     configmaps (store w) !! TransportConfigMapName = Some cm ->
     GetRouterConfigFromConfigMap cm = inr config ->
     LessRecentThanVersion (siteVersion (GetSiteMetadata config)) "0.5.0" = false) ->
  let out := call (RouterUpdateVersionInNamespace env cli hup ns) w in
  exists evs, log out.1 = log w ++ evs /\
    Forall (fun ev => readOrUpdate ev /\
                      (evKind ev = KConfigMap \/ evKind ev = KDeployment)) evs.
Proof.
  intros Hmarker Hnew. cbv zeta.
  apply (call_wp env cli hup ns
           (fun out => exists evs, log out.1 = log w ++ evs /\
              Forall (fun ev => readOrUpdate ev /\
                                (evKind ev = KConfigMap \/ evKind ev = KDeployment))
                     evs)).
  eapply wp_conseq; [apply (checkVersion_norename_requests w Hmarker Hnew)|].
  intros w1 res [(evs & Hlog & Hevs) Hres].
  assert (Hevs' : Forall (fun ev => readOrUpdate ev /\
                                    (evKind ev = KConfigMap \/ evKind ev = KDeployment))
                         evs).
  { eapply Forall_impl; [exact Hevs|]. intros ev [? ?]. auto. }
  destruct res as [[[[cm rename] inprogress] us]|r]; [|by exists evs].
  destruct Hres as [-> ->].
  eapply wp_conseq; [apply renameAndUpdate_norename_requests|].
  intros w2 res (evs2 & Hlog2 & Hevs2).
  assert (exists evs0, log w2 = log w ++ evs0 /\
            Forall (fun ev => readOrUpdate ev /\
                              (evKind ev = KConfigMap \/ evKind ev = KDeployment)) evs0)
    as Hall.
  { exists (evs ++ evs2). rewrite Hlog2, Hlog, <- app_assoc. split; [reflexivity|].
    apply Forall_app. split; [exact Hevs'|].
    eapply Forall_impl; [exact Hevs2|]. intros ev [? ?]. auto. }
  destruct res as [[ur uc]|r]; exact Hall.
Qed.

End NoRename.

Lemma invocation_without_rename_creates_and_deletes_nothing_witness :
  let w := Site.world Sample.site in
  let out := call (RouterUpdateVersionInNamespace (H := Site.library "0.6.1")
                     (Site.failing 4) Site.kube true "ns") w in
  exists evs, log out.1 = log w ++ evs /\
    Forall (fun ev => readOrUpdate ev /\
                      (evKind ev = KConfigMap \/ evKind ev = KDeployment)) evs.
Proof.
  apply (invocation_without_rename_creates_and_deletes_nothing
           (H := Site.library "0.6.1") (Site.failing 4) Site.kube true "ns"
           (Site.world Sample.site)).
  - vm_compute; reflexivity.
  - intros cm config Hcm Hparse. vm_compute in Hcm. injection Hcm as <-.
    vm_compute in Hparse. injection Hparse as <-. vm_compute. reflexivity.
Defined.


(* ===================================================================== *)
(** ** One invocation after another, and what an invocation never does *)
(* ===================================================================== *)

(** The steps of a symbolic execution up to the next request or branch. *)
Ltac wp_seq :=
  repeat lazymatch goal with
         | |- wp (request _ _ _ _ _) _ _ => fail
         | |- wp (liftE _) _ _ => fail
         | |- wp (if _ then _ else _) _ _ => fail
         | |- wp (match _ with _ => _ end) _ _ => fail
         | |- wp _ _ _ => wp_step
         end.

Section SecondInvocation.
Context `{Deps} (env : Env) (cli : VanClient).

Ltac reads_tac :=
  wp_log; split; [forall_list; reflexivity|simpl; lia].

Lemma checkVersion_upToDate w cm :
  configmaps (store w) !! TransportConfigMapName = Some cm ->
  current cm ->
  configmaps (store w) !! marker = None ->
  wp (checkVersion env)
    (fun w1 res =>
       configmaps (store w1) = configmaps (store w) /\
       deployments (store w1) = deployments (store w) /\
       (exists evs, log w1 = log w ++ evs /\
          Forall (fun ev => evVerb ev = VGet) evs /\ length evs <= 2) /\
       match res with
       | inl r => r = (cm, false, false, false) /\ ticks w1 = 2 + ticks w
       | inr r => r.1 = false /\ exists n, n < 2 /\ is_Some (fault env (ticks w + n))
       end) w.
Proof.
  intros Hcm (config & Hparse & Hless & Hbump) Hmarker.
  cbv zeta in *. unfold marker in *.
  unfold checkVersion. unfold_kube.
  wp_step. wp_step. wp_step.
  3: { exfalso. wp_log. congruence. }
  { split; [by wp_log|]. split; [by wp_log|]. split; [reads_tac|].
    split; [reflexivity|]. exists 0. rewrite Nat.add_0_r, Hfault. split; [lia|eauto]. }
  assert (c = cm) as -> by (wp_log; congruence).
  wp_step. wp_step. wp_step.
  all: rewrite Hparse in Hr; simplify_eq.
  rewrite Hless, Hbump.
  wp_step. wp_step. wp_step. wp_step. wp_step.
  - cbn [IsNotFound]. wp_step.
    split; [by wp_log|]. split; [by wp_log|]. split; [reads_tac|].
    split; [reflexivity|]. exists 1.
    rewrite Hticks in Hfault0. replace (ticks w + 1) with (S (ticks w)) by lia.
    rewrite Hfault0. split; [lia|eauto].
  - exfalso. wp_log. congruence.
  - cbn [IsNotFound]. wp_step. wp_step.
    split; [by wp_log|]. split; [by wp_log|]. split; [reads_tac|].
    split; [reflexivity|]. cbn [ticks]. lia.
Qed.

Lemma renameAndUpdate_upToDate ns cm w router controller :
  deployments (store w) !! TransportDeploymentName = Some router ->
  imageOf router = GetRouterImageName ->
  deployments (store w) !! ControllerDeploymentName = Some controller ->
  imageOf controller = GetServiceControllerImageName ->
  wp (renameAndUpdate env cli false ns cm false false)
    (fun w1 res =>
       configmaps (store w1) = configmaps (store w) /\
       deployments (store w1) = deployments (store w) /\
       (exists evs, log w1 = log w ++ evs /\
          Forall (fun ev => evVerb ev = VGet) evs /\ length evs <= 2) /\
       match res with
       | inl r => r = (false, false)
       | inr r => r.1 = false /\ exists n, n < 2 /\ is_Some (fault env (ticks w + n))
       end) w.
Proof.
  intros Hrouter Hrimage Hcontroller Hcimage. unfold imageOf in *.
  unfold renameAndUpdate.
  apply (wp_bind (ret (false, false, false))). wp_step.
  unfold updateRouterDeployment, updateControllerDeployment. unfold_kube.
  wp_step. wp_step. wp_step. wp_step.
  3: { exfalso. wp_log. congruence. }
  { split; [by wp_log|]. split; [by wp_log|]. split; [reads_tac|].
    split; [reflexivity|]. exists 0. rewrite Nat.add_0_r, Hfault. split; [lia|eauto]. }
  assert (d = router) as -> by (wp_log; congruence).
  rewrite Hrimage, String.eqb_refl. cbn [negb orb].
  wp_step. wp_step. wp_step. wp_step. wp_step.
  3: { exfalso. wp_log. congruence. }
  { split; [by wp_log|]. split; [by wp_log|]. split; [reads_tac|].
    split; [reflexivity|]. exists 1.
    rewrite Hticks in Hfault0. replace (ticks w + 1) with (S (ticks w)) by lia.
    rewrite Hfault0. split; [lia|eauto]. }
  assert (d = controller) as -> by (wp_log; congruence).
  rewrite Hcimage, String.eqb_refl. cbn [negb orb].
  repeat wp_step.
  split; [by wp_log|]. split; [by wp_log|]. split; [reads_tac|]. reflexivity.
Qed.

Lemma upToDate_invocation ns w :
  upToDate (store w) ->
  let out := call (RouterUpdateVersionInNamespace env cli false ns) w in
  out.2.1 = false /\
  (exists evs, log out.1 = log w ++ evs /\
     Forall (fun ev => evVerb ev = VGet) evs /\ length evs <= 4) /\
  ((forall n, n < 4 -> fault env (ticks w + n) = None) -> out.2.2 = None) /\
  configmaps (store out.1) = configmaps (store w) /\
  deployments (store out.1) = deployments (store w).
Proof.
  intros ((cm & Hcm & Hcurrent) & Hmarker &
          (router & Hrouter & Hrimage) & (controller & Hcontroller & Hcimage)).
  cbv zeta.
  apply (call_wp env cli false ns
           (fun out =>
              out.2.1 = false /\
              (exists evs, log out.1 = log w ++ evs /\
                 Forall (fun ev => evVerb ev = VGet) evs /\ length evs <= 4) /\
              ((forall n, n < 4 -> fault env (ticks w + n) = None) -> out.2.2 = None) /\
              configmaps (store out.1) = configmaps (store w) /\
              deployments (store out.1) = deployments (store w))).
  eapply wp_conseq; [apply (checkVersion_upToDate w cm Hcm Hcurrent Hmarker)|].
  intros w1 res (Hcms & Hdeps & (evs & Hlog & Hevs & Hlen) & Hres).
  destruct res as [r|r].
  2: { destruct Hres as (Hfalse & n & Hn & Hsome). split; [exact Hfalse|].
       split; [exists evs; split; [exact Hlog|]; split; [exact Hevs|lia]|].
       split; [|by split].
       intros Hf. rewrite Hf in Hsome by lia. by destruct Hsome. }
  destruct Hres as [-> Ht].
  eapply wp_conseq.
  { apply (renameAndUpdate_upToDate ns cm w1 router controller); [|done| |done].
    - by rewrite Hdeps.
    - by rewrite Hdeps. }
  intros w2 res (Hcms' & Hdeps' & (evs' & Hlog' & Hevs' & Hlen') & Hres).
  assert (exists evs0, log w2 = log w ++ evs0 /\
            Forall (fun ev => evVerb ev = VGet) evs0 /\ length evs0 <= 4) as Hall.
  { exists (evs ++ evs'). rewrite Hlog', Hlog, <- app_assoc. split; [reflexivity|].
    split; [by apply Forall_app|]. rewrite length_app. lia. }
  destruct res as [r|r].
  - subst r. cbn [fst snd orb]. split; [reflexivity|]. split; [exact Hall|].
    split; [done|]. split; [by rewrite Hcms', Hcms|by rewrite Hdeps', Hdeps].
  - destruct Hres as (Hfalse & n & Hn & Hsome). cbn [fst snd].
    split; [exact Hfalse|]. split; [exact Hall|].
    split; [|split; [by rewrite Hcms', Hcms|by rewrite Hdeps', Hdeps]].
    intros Hf. rewrite Ht in Hsome.
    replace (2 + ticks w + n) with (ticks w + (2 + n)) in Hsome by lia.
    rewrite Hf in Hsome by lia. by destruct Hsome.
Qed.

(** X19. On a site that is up to date, an invocation without the
    force-restart flag only reads: it sends at most four requests, all of
    them reads, changes no config map and no deployment, answers false
    whatever fails, and returns no error when none of its four requests
    fails. *)
Theorem invocation_on_an_up_to_date_site_only_reads ns w :
  upToDate (store w) ->
  let out := call (RouterUpdateVersionInNamespace env cli false ns) w in
  out.2.1 = false /\
  (exists evs, log out.1 = log w ++ evs /\
     Forall (fun ev => evVerb ev = VGet) evs /\ length evs <= 4) /\
  ((forall n, n < 4 -> fault env (ticks w + n) = None) -> out.2.2 = None) /\
  configmaps (store out.1) = configmaps (store w) /\
  deployments (store out.1) = deployments (store w).
Proof. exact (upToDate_invocation ns w). Qed.

End SecondInvocation.

Section FirstInvocation.
Context `{Deps} (env : Env) (cli : VanClient).

Lemma current_bumped config cm cm' :
  lawful ->
  UpdateConfigMap
    (SetSiteMetadata {| siteId := siteId (GetSiteMetadata config); siteVersion := Version |}
                     config) cm = inr cm' ->
  current cm'.
Proof.
  intros (Hwrite & Hless & Hmore & _) Hupd.
  destruct (Hwrite _ _ _ Hupd) as (_ & config' & Hparse & Hmeta).
  exists config'. split; [exact Hparse|]. cbv zeta. rewrite Hmeta. cbn.
  rewrite Hless, Hmore, String.eqb_refl. cbn. by rewrite andb_false_r.
Qed.

Lemma checkVersion_post w :
  lawful ->
  (forall cm, configmaps (store w) !! TransportConfigMapName = Some cm ->
              Name (cmMeta cm) = TransportConfigMapName) ->
  wp (checkVersion env)
    (fun w1 res =>
       deployments (store w1) = deployments (store w) /\
       match res with
       | inl (_, _, inprogress, _) =>
           (exists cm, configmaps (store w1) !! TransportConfigMapName = Some cm /\
                       current cm) /\
           (inprogress = false -> configmaps (store w1) !! marker = None)
       | inr r => is_Some r.2
       end) w.
Proof.
  intros Hlawful Hwf.
  pose proof Hlawful as (Hwrite & _ & _ & _ & Hnames).
  unfold marker in *.
  unfold checkVersion. unfold_kube.
  wp_seq. wp_step.
  1, 3: split; [by wp_log|eauto].
  assert (Hcm : configmaps (store w) !! TransportConfigMapName = Some c) by (by wp_log).
  pose proof (Hwf c Hcm) as Hcname.
  wp_seq. wp_step; [split; [by wp_log|eauto]|].
  wp_step; [wp_step; split; [by wp_log|eauto]|].
  wp_seq. wp_step.
  - cbn [IsNotFound]. wp_step. split; [by wp_log|eauto].
  - (* an upgrade is in progress *)
    wp_seq. wp_step.
    + cbn [negb andb]. wp_seq. wp_step.
      { split; [by wp_log|eauto]. }
      destruct (Hwrite _ _ _ Hr0) as (Hmeta & _).
      cbn [Name cmMeta nameOf ConfigMaps]. rewrite Hmeta, Hcname.
      wp_seq. wp_step.
      1, 3: split; [by wp_log|eauto].
      wp_seq. split; [by wp_log|]. split; [|discriminate].
      eexists. split; [wp_log; apply lookup_insert_eq|].
      eapply current_bumped; eauto.
    + wp_seq. split; [by wp_log|]. split; [|discriminate].
      exists c. split; [by wp_log|]. exists r. by repeat split.
  - (* no upgrade is in progress *)
    cbn [IsNotFound]. wp_seq. wp_step.
    + cbn [negb andb]. wp_seq. wp_step.
      * (* the site is older than 0.5.0: the marker is created *)
        cbn [Name cmMeta nameOf ConfigMaps].
        wp_seq. wp_step.
        1, 2: split; [by wp_log|eauto].
        wp_seq. wp_step.
        { split; [by wp_log|eauto]. }
        destruct (Hwrite _ _ _ Hr0) as (Hmeta & _).
        cbn [Name cmMeta nameOf ConfigMaps]. rewrite Hmeta, Hcname.
        wp_seq. wp_step.
        1, 3: split; [by wp_log|eauto].
        wp_seq. split; [by wp_log|]. split; [|discriminate].
        eexists. split; [wp_log; apply lookup_insert_eq|].
        eapply current_bumped; eauto.
      * wp_seq. wp_step.
        { split; [by wp_log|eauto]. }
        destruct (Hwrite _ _ _ Hr0) as (Hmeta & _).
        cbn [Name cmMeta nameOf ConfigMaps]. rewrite Hmeta, Hcname.
        wp_seq. wp_step.
        1, 3: split; [by wp_log|eauto].
        wp_seq. split; [by wp_log|]. split.
        -- eexists. split; [wp_log; apply lookup_insert_eq|].
           eapply current_bumped; eauto.
        -- intros _. wp_log. by rewrite lookup_insert_ne.
    + wp_seq. split; [by wp_log|]. split.
      * exists c. split; [by wp_log|]. exists r. by repeat split.
      * intros _. by wp_log.
Qed.

End FirstInvocation.

Section Phases.
Context `{Deps} (env : Env) (cli : VanClient).

(** What a computation that keeps the config maps and the deployments
    does to a world. *)
Lemma wp_frame {R A} (F : R -> Prop) (m : M R A) w :
  (forall (J : Store -> Prop),
     (forall s s', J s -> configmaps s' = configmaps s ->
                   deployments s' = deployments s -> J s') ->
     inv J (fun _ => True) F m) ->
  wp m (fun w1 res =>
          configmaps (store w1) = configmaps (store w) /\
          deployments (store w1) = deployments (store w) /\
          match res with inl _ => True | inr r => F r end) w.
Proof.
  intros Hinv.
  pose (J := fun s => configmaps s = configmaps (store w) /\
                      deployments s = deployments (store w)).
  assert (HJ : forall s s', J s -> configmaps s' = configmaps s ->
                            deployments s' = deployments s -> J s').
  { intros s s' [? ?] ? ?. split; congruence. }
  destruct (Hinv J HJ w) as (evs & _ & _ & Hres); [by split|].
  unfold wp. destruct ((m w).2) as [a|r].
  - destruct Hres. by repeat split.
  - destruct Hres as (? & ? & ?). by repeat split.
Qed.

Lemma pollConsoleHost_frame {R} n i w :
  wp (pollConsoleHost (R := R) env n i)
    (fun w1 res =>
       configmaps (store w1) = configmaps (store w) /\
       deployments (store w1) = deployments (store w) /\
       exists host, res = inl host) w.
Proof.
  revert i w. induction n as [|n IH]; intros i w; cbn [pollConsoleHost].
  - wp_step. eauto.
  - unfold_kube.
    assert (Hskip : forall w0, configmaps (store w0) = configmaps (store w) ->
                      deployments (store w0) = deployments (store w) ->
              wp (bind (catch (request env VGet Services ControllerServiceName
                                 (fun m => match m !! ControllerServiceName with
                                           | Some v => inr (m, v)
                                           | None => inl ErrNotFound
                                           end)))
                    (fun r : Err + Service =>
                       match r with
                       | inl err =>
                           Println ("Could not determine new console url: " +:+
                                    Error err);;
                           ret ""
                       | inr service =>
                           let host := GetLoadBalancerHostOrIP service in
                           if String.eqb host "" then pollConsoleHost env n (S i)
                           else ret host
                       end))
                (fun w1 (res : string + R) =>
                   configmaps (store w1) = configmaps (store w) /\
                   deployments (store w1) = deployments (store w) /\
                   exists host, res = inl host) w0).
    { intros w0 Hcms Hdeps. wp_seq. wp_step.
      - wp_seq. split; [by wp_log|]. split; [by wp_log|eauto].
      - cbv zeta. wp_step.
        + eapply wp_conseq; [apply IH|].
          intros w2 res (Hcms2 & Hdeps2 & Hhost).
          split; [rewrite Hcms2; by wp_log|]. split; [rewrite Hdeps2; by wp_log|done].
        + wp_step. split; [by wp_log|]. split; [by wp_log|eauto].
      - wp_seq. split; [by wp_log|]. split; [by wp_log|eauto]. }
    wp_step. wp_step; wp_step; apply Hskip; reflexivity.
Qed.

Lemma updateRouterDeployment_post hup rename us ip w :
  (forall d, deployments (store w) !! TransportDeploymentName = Some d ->
             Name (depMeta d) = TransportDeploymentName) ->
  wp (updateRouterDeployment env hup rename us ip)
    (fun w1 res =>
       configmaps (store w1) = configmaps (store w) /\
       match res with
       | inl _ =>
           (forall name, name <> TransportDeploymentName ->
              deployments (store w1) !! name = deployments (store w) !! name) /\
           exists d, deployments (store w1) !! TransportDeploymentName = Some d /\
             imageOf d = GetRouterImageName /\
             Name (depMeta d) = TransportDeploymentName
       | inr r => is_Some r.2
       end) w.
Proof.
  intros Hwf. unfold imageOf.
  unfold updateRouterDeployment. unfold_kube.
  wp_seq. wp_step.
  1, 3: split; [by wp_log|eauto].
  assert (Hd : deployments (store w) !! TransportDeploymentName = Some d) by (by wp_log).
  pose proof (Hwf d Hd) as Hname.
  assert (Htail : forall spec,
    wp (let '(router, updateRouter) :=
          if negb (String.eqb (cImage (podContainer0 spec)) GetRouterImageName)
          then (setPodSpec (setImage0 GetRouterImageName spec) d, true)
          else (setPodSpec spec d, rename) in
        if updateRouter || us || hup then
          '(router, updateRouter) ←
            (if negb updateRouter then
               router ← touch env router;
               ret (router, true)
             else ret (router, updateRouter));
          _ ← orReturn false (Update env Deployments router);
          (if ip then
             Println "Sites previously linked to this one will require new tokens"
           else ret tt);;
          ret updateRouter
        else ret updateRouter)
      (fun w1 res =>
         configmaps (store w1) = configmaps (store w) /\
         match res with
         | inl _ =>
             (forall name, name <> TransportDeploymentName ->
                deployments (store w1) !! name = deployments (store w) !! name) /\
             (cImage (podContainer0 spec) = GetRouterImageName ->
              rename = false /\
              deployments (store w1) !! TransportDeploymentName = Some d \/
              exists d0, deployments (store w1) !! TransportDeploymentName = Some d0 /\
                depPodSpec d0 = spec /\ Name (depMeta d0) = TransportDeploymentName) /\
             (cImage (podContainer0 spec) <> GetRouterImageName ->
              exists d0, deployments (store w1) !! TransportDeploymentName = Some d0 /\
                depPodSpec d0 = setImage0 GetRouterImageName spec /\
                Name (depMeta d0) = TransportDeploymentName)
         | inr r => is_Some r.2
         end) w0).
  { intros spec. unfold_kube.
    destruct (String.eqb (cImage (podContainer0 spec)) GetRouterImageName) eqn:Himage;
      cbn [negb].
    - apply String.eqb_eq in Himage.
      cbn [nameOf Deployments Name depMeta setPodSpec]. rewrite ?Hname.
      repeat (wp_step; cbn [nameOf Deployments Name depMeta setPodSpec]; rewrite ?Hname).
      all: try (split; [by wp_log|eauto]; fail).
      all: split; [by wp_log|].
      all: split; [intros name Hne; wp_log; rewrite ?lookup_insert_ne by congruence;
                   reflexivity|].
      all: split; [|congruence].
      all: intros _; wp_log;
        first [ left; split; [by destruct rename|assumption]
              | right; eexists; split; [apply lookup_insert_eq|]; by split ].
    - apply String.eqb_neq in Himage.
      cbn [nameOf Deployments Name depMeta setPodSpec orb]. rewrite ?Hname.
      repeat (wp_step; cbn [nameOf Deployments Name depMeta setPodSpec]; rewrite ?Hname).
      all: try (split; [by wp_log|eauto]; fail).
      all: split; [by wp_log|].
      all: split; [intros name Hne; wp_log; rewrite ?lookup_insert_ne by congruence;
                   reflexivity|].
      all: split; [congruence|].
      all: intros _; wp_log; eexists; split; [apply lookup_insert_eq|]; by split. }
  assert (Himage_set : forall spec,
            cImage (podContainer0 (setImage0 GetRouterImageName spec)) =
            GetRouterImageName) by reflexivity.
  destruct rename.
  - eapply wp_conseq; [apply Htail|].
    intros w1 [updated|r] [Hcms Hres]; (split; [exact Hcms|]); [|exact Hres].
    destruct Hres as (Hframe & Hsame & Hother). split; [exact Hframe|].
    match type of Hsame with
    | ?image = _ -> _ => destruct (decide (image = GetRouterImageName)) as [Heq|Hne]
    end.
    + destruct (Hsame Heq) as [[? _]|(d0 & Hd0 & Hspec & Hname0)]; [discriminate|].
      exists d0. rewrite Hspec. by repeat split.
    + destruct (Hother Hne) as (d0 & Hd0 & Hspec & Hname0).
      exists d0. rewrite Hspec. by repeat split.
  - eapply wp_conseq.
    { pose proof (Htail (depPodSpec d)) as Ht. destruct d. exact Ht. }
    intros w1 [updated|r] [Hcms Hres]; (split; [exact Hcms|]); [|exact Hres].
    destruct Hres as (Hframe & Hsame & Hother). split; [exact Hframe|].
    destruct (decide (cImage (podContainer0 (depPodSpec d)) = GetRouterImageName))
      as [Heq|Hne].
    + destruct (Hsame Heq) as [[_ Hd0]|(d0 & Hd0 & Hspec & Hname0)].
      * exists d. by repeat split.
      * exists d0. rewrite Hspec. by repeat split.
    + destruct (Hother Hne) as (d0 & Hd0 & Hspec & Hname0).
      exists d0. rewrite Hspec. by repeat split.
Qed.

Lemma updateControllerDeployment_post hup rename lb w :
  (forall d, deployments (store w) !! ControllerDeploymentName = Some d ->
             Name (depMeta d) = ControllerDeploymentName) ->
  wp (updateControllerDeployment env hup rename lb)
    (fun w1 res =>
       configmaps (store w1) = configmaps (store w) /\
       match res with
       | inl _ =>
           (forall name, name <> ControllerDeploymentName ->
              deployments (store w1) !! name = deployments (store w) !! name) /\
           exists d, deployments (store w1) !! ControllerDeploymentName = Some d /\
             imageOf d = GetServiceControllerImageName /\
             Name (depMeta d) = ControllerDeploymentName
       | inr r => is_Some r.2
       end) w.
Proof.
  intros Hwf. unfold imageOf.
  unfold updateControllerDeployment. unfold_kube.
  wp_seq. wp_step.
  1, 3: split; [by wp_log|eauto].
  assert (Hd : deployments (store w) !! ControllerDeploymentName = Some d)
    by (by wp_log).
  pose proof (Hwf d Hd) as Hname.
  assert (Hpoll : forall w1 (K : World -> bool + bool * option Err -> Prop)
                         (updated : bool),
            (forall w2, configmaps (store w2) = configmaps (store w1) ->
                        deployments (store w2) = deployments (store w1) ->
                        K w2 (inl updated)) ->
            wp ((if lb then
                   host ← pollConsoleHost env 120 0;
                   if negb (String.eqb host "") then
                     Println ("Console is now at http://" +:+ host +:+ ":8080")
                   else ret tt
                 else ret tt);;
                ret updated) K w1).
  { intros w1 K updated HK. destruct lb.
    - wp_step. wp_step.
      eapply wp_conseq; [apply pollConsoleHost_frame|].
      intros w2 res (Hcms & Hdeps & host & ->).
      repeat wp_step; apply HK; by wp_log.
    - repeat wp_step. by apply HK. }
  assert (Htail : forall spec,
    wp (let '(controller, updateController) :=
          if negb (String.eqb (cImage (podContainer0 spec))
                              GetServiceControllerImageName)
          then (setPodSpec (setImage0 GetServiceControllerImageName spec) d, true)
          else (setPodSpec spec d, rename) in
        if updateController || hup then
          '(controller, updateController) ←
            (if negb updateController then
               controller ← touch env controller;
               ret (controller, true)
             else ret (controller, updateController));
          _ ← orReturn false (Update env Deployments controller);
          (if lb then
             host ← pollConsoleHost env 120 0;
             if negb (String.eqb host "") then
               Println ("Console is now at http://" +:+ host +:+ ":8080")
             else ret tt
           else ret tt);;
          ret updateController
        else ret updateController)
      (fun w1 res =>
         configmaps (store w1) = configmaps (store w) /\
         match res with
         | inl _ =>
             (forall name, name <> ControllerDeploymentName ->
                deployments (store w1) !! name = deployments (store w) !! name) /\
             (cImage (podContainer0 spec) = GetServiceControllerImageName ->
              rename = false /\
              deployments (store w1) !! ControllerDeploymentName = Some d \/
              exists d0, deployments (store w1) !! ControllerDeploymentName = Some d0 /\
                depPodSpec d0 = spec /\ Name (depMeta d0) = ControllerDeploymentName) /\
             (cImage (podContainer0 spec) <> GetServiceControllerImageName ->
              exists d0, deployments (store w1) !! ControllerDeploymentName = Some d0 /\
                depPodSpec d0 = setImage0 GetServiceControllerImageName spec /\
                Name (depMeta d0) = ControllerDeploymentName)
         | inr r => is_Some r.2
         end) w0).
  { intros spec. unfold_kube.
    destruct (String.eqb (cImage (podContainer0 spec)) GetServiceControllerImageName)
      eqn:Himage; cbn [negb].
    - apply String.eqb_eq in Himage.
      cbn [nameOf Deployments Name depMeta setPodSpec]. rewrite ?Hname.
      repeat (first [ apply Hpoll; intros w2 Hcms2 Hdeps2 | wp_step ];
              cbn [nameOf Deployments Name depMeta setPodSpec]; rewrite ?Hname).
      all: try (split; [by wp_log|eauto]; fail).
      all: split; [rewrite ?Hcms2; by wp_log|].
      all: split; [intros name Hne; rewrite ?Hdeps2; wp_log;
                   rewrite ?lookup_insert_ne by congruence; reflexivity|].
      all: split; [|congruence].
      all: intros _; rewrite ?Hdeps2; wp_log;
        first [ left; split; [by destruct rename|assumption]
              | right; eexists; split; [apply lookup_insert_eq|]; by split ].
    - apply String.eqb_neq in Himage.
      cbn [nameOf Deployments Name depMeta setPodSpec orb]. rewrite ?Hname.
      repeat (first [ apply Hpoll; intros w2 Hcms2 Hdeps2 | wp_step ];
              cbn [nameOf Deployments Name depMeta setPodSpec]; rewrite ?Hname).
      all: try (split; [by wp_log|eauto]; fail).
      all: split; [rewrite ?Hcms2; by wp_log|].
      all: split; [intros name Hne; rewrite ?Hdeps2; wp_log;
                   rewrite ?lookup_insert_ne by congruence; reflexivity|].
      all: split; [congruence|].
      all: intros _; rewrite ?Hdeps2; wp_log; eexists;
        split; [apply lookup_insert_eq|]; by split. }
  assert (Himage_set : forall spec,
            cImage (podContainer0 (setImage0 GetServiceControllerImageName spec)) =
            GetServiceControllerImageName) by reflexivity.
  destruct rename.
  - eapply wp_conseq; [apply Htail|].
    intros w1 [updated|r] [Hcms Hres]; (split; [exact Hcms|]); [|exact Hres].
    destruct Hres as (Hframe & Hsame & Hother). split; [exact Hframe|].
    match type of Hsame with
    | ?image = _ -> _ =>
        destruct (decide (image = GetServiceControllerImageName)) as [Heq|Hne]
    end.
    + destruct (Hsame Heq) as [[? _]|(d0 & Hd0 & Hspec & Hname0)]; [discriminate|].
      exists d0. rewrite Hspec. by repeat split.
    + destruct (Hother Hne) as (d0 & Hd0 & Hspec & Hname0).
      exists d0. rewrite Hspec. by repeat split.
  - eapply wp_conseq.
    { pose proof (Htail (depPodSpec d)) as Ht. destruct d. exact Ht. }
    intros w1 [updated|r] [Hcms Hres]; (split; [exact Hcms|]); [|exact Hres].
    destruct Hres as (Hframe & Hsame & Hother). split; [exact Hframe|].
    destruct (decide (cImage (podContainer0 (depPodSpec d)) =
                      GetServiceControllerImageName)) as [Heq|Hne].
    + destruct (Hsame Heq) as [[_ Hd0]|(d0 & Hd0 & Hspec & Hname0)].
      * exists d. by repeat split.
      * exists d0. rewrite Hspec. by repeat split.
    + destruct (Hother Hne) as (d0 & Hd0 & Hspec & Hname0).
      exists d0. rewrite Hspec. by repeat split.
Qed.


Lemma renameAndUpdate_post hup ns cm rename us w :
  TransportDeploymentName <> ControllerDeploymentName ->
  (forall name d, deployments (store w) !! name = Some d -> Name (depMeta d) = name) ->
  wp (renameAndUpdate env cli hup ns cm rename us)
    (fun w1 res =>
       match res with
       | inl _ =>
           configmaps (store w1) = configmaps (store w) /\
           (exists d, deployments (store w1) !! TransportDeploymentName = Some d /\
                      imageOf d = GetRouterImageName) /\
           (exists d, deployments (store w1) !! ControllerDeploymentName = Some d /\
                      imageOf d = GetServiceControllerImageName)
       | inr r => is_Some r.2
       end) w.
Proof.
  intros Hne Hwf. unfold renameAndUpdate.
  wp_step.
  assert (Hphases : forall w1 ur lb ip,
            configmaps (store w1) = configmaps (store w) ->
            deployments (store w1) = deployments (store w) ->
            wp (updateRouter ← updateRouterDeployment env hup rename us ip;
                updateController ← updateControllerDeployment env hup rename lb;
                (if rename then deleteOldResources env cli ur else ret tt);;
                ret (updateRouter, updateController))
              (fun w2 res =>
                 match res with
                 | inl _ =>
                     configmaps (store w2) = configmaps (store w) /\
                     (exists d, deployments (store w2) !! TransportDeploymentName = Some d /\
                                imageOf d = GetRouterImageName) /\
                     (exists d, deployments (store w2) !! ControllerDeploymentName = Some d /\
                                imageOf d = GetServiceControllerImageName)
                 | inr r => is_Some r.2
                 end) w1).
  { intros w1 ur lb ip Hcms1 Hdeps1. wp_step.
    eapply wp_conseq.
    { apply (updateRouterDeployment_post hup rename us ip w1).
      intros d Hd. apply Hwf. by rewrite <- Hdeps1. }
    intros w2 [updated|r] [Hcms2 Hres]; [|exact Hres].
    destruct Hres as (Hframe2 & router & Hrouter & Hrimage & _).
    wp_step. eapply wp_conseq.
    { apply (updateControllerDeployment_post hup rename lb w2).
      intros d Hd. apply Hwf. rewrite <- Hdeps1, <- Hframe2 by congruence. exact Hd. }
    intros w3 [updated'|r] [Hcms3 Hres]; [|exact Hres].
    destruct Hres as (Hframe3 & controller & Hcontroller & Hcimage & _).
    assert (Hrouter3 : deployments (store w3) !! TransportDeploymentName = Some router).
    { by rewrite Hframe3. }
    wp_step. destruct rename.
    - eapply wp_conseq.
      { apply (wp_frame failed). intros J HJ.
        apply deleteOldResources_inv; [exact HJ|done]. }
      intros w4 [[]|r] (Hcms4 & Hdeps4 & Hres); [|by destruct Hres].
      wp_step. split; [congruence|]. rewrite Hdeps4. split; eauto.
    - wp_step. wp_step. split; [congruence|]. split; eauto. }
  destruct rename.
  - eapply wp_conseq.
    { apply (wp_frame failed). intros J HJ.
      apply renameResources_inv; [exact HJ|done]. }
    intros w1 [[[ur lb] ip]|r] (Hcms1 & Hdeps1 & Hres); [|by destruct Hres].
    by apply Hphases.
  - wp_step. by apply Hphases.
Qed.

Lemma successful_invocation_upToDate hup ns w :
  lawful ->
  storedUnderName (store w) ->
  let out := call (RouterUpdateVersionInNamespace env cli hup ns) w in
  out.2.2 = None ->
  upToDate (store out.1).
Proof.
  intros Hlawful [Hwfc Hwfd]. cbv zeta.
  pose proof Hlawful as (_ & _ & _ & Hne & Hnames).
  apply (call_wp env cli hup ns (fun out => out.2.2 = None -> upToDate (store out.1))).
  eapply wp_conseq.
  { apply (checkVersion_post env w Hlawful). intros cm. apply Hwfc. }
  intros w1 [[[[cm rename] inprogress] us]|r] [Hdeps1 Hres].
  2: { intros Hnone. cbn [fst snd] in Hnone. rewrite Hnone in Hres. by destruct Hres. }
  destruct Hres as [(cm1 & Hcm1 & Hcurrent) Hmarker1].
  eapply wp_conseq.
  { apply (renameAndUpdate_post hup ns cm rename us w1 Hne).
    intros name d Hd. apply Hwfd. by rewrite <- Hdeps1. }
  intros w2 [[ur uc]|r] Hres.
  2: { intros Hnone. cbn [fst snd] in Hnone. rewrite Hnone in Hres. by destruct Hres. }
  destruct Hres as (Hcms2 & Hrouter & Hcontroller).
  destruct inprogress.
  - unfold updateCompleted, Delete. wp_step.
    1, 3: discriminate.
    intros _. cbn [fst snd]. unfold upToDate.
    split; [|split; [|split]].
    + exists cm1. split; [|exact Hcurrent]. wp_log.
      rewrite lookup_delete_ne by (intros Heq; apply Hnames; symmetry; exact Heq).
      by rewrite Hcms2.
    + wp_log. apply lookup_delete_eq.
    + wp_log. exact Hrouter.
    + wp_log. exact Hcontroller.
  - intros _. cbn [fst snd]. unfold upToDate.
    split; [|split; [|split]]; try assumption.
    + exists cm1. by rewrite Hcms2.
    + rewrite Hcms2. by apply Hmarker1.
Qed.

(** X20. What a successful invocation leaves behind: when the config
    maps and the deployments are stored under their names and the
    invocation returns no error, the site is up to date. Its config map
    records a version that the library neither refuses nor bumps, there is
    no upgrade marker, and both deployments run the desired images; this
    holds with or without a rename and whatever the force-restart flag. *)
Theorem successful_invocation_leaves_the_site_up_to_date hup ns w :
  lawful ->
  storedUnderName (store w) ->
  let out := call (RouterUpdateVersionInNamespace env cli hup ns) w in
  out.2.2 = None ->
  upToDate (store out.1).
Proof. exact (successful_invocation_upToDate hup ns w). Qed.

(** X21. Invoking twice is invoking once: when the config maps and the
    deployments are stored under their names and an invocation returns no
    error, an invocation that follows it without the force-restart flag
    sends at most four requests, all of them reads, changes no config map
    and no deployment, and answers false; it returns no error unless one
    of its requests fails. *)
Theorem invocation_after_a_successful_one_only_reads hup ns w :
  lawful ->
  storedUnderName (store w) ->
  let first := call (RouterUpdateVersionInNamespace env cli hup ns) w in
  first.2.2 = None ->
  let second := call (RouterUpdateVersionInNamespace env cli false ns) first.1 in
  second.2.1 = false /\
  (exists evs, log second.1 = log first.1 ++ evs /\
     Forall (fun ev => evVerb ev = VGet) evs /\ length evs <= 4) /\
  ((forall n, n < 4 -> fault env (ticks first.1 + n) = None) -> second.2.2 = None) /\
  configmaps (store second.1) = configmaps (store first.1) /\
  deployments (store second.1) = deployments (store first.1).
Proof.
  intros Hlawful Hwf first Hnone.
  apply (upToDate_invocation env cli ns first.1).
  by apply (successful_invocation_upToDate hup ns w).
Qed.

End Phases.

Lemma library_lawful : lawful (H := Site.library "0.6.0").
Proof.
  split; [|split; [|split; [|split]]]; try (vm_compute; reflexivity);
    try discriminate.
  intros config cm cm'. cbn [UpdateConfigMap GetRouterConfigFromConfigMap Site.library].
  unfold Site.writeConfig, Site.readConfig. intros [= <-]. cbn [cmMeta cmData].
  split; [reflexivity|].
  rewrite lookup_insert_eq. eexists. split; [reflexivity|].
  unfold GetSiteMetadata. cbn [rcSiteMetadata].
  rewrite lookup_insert_ne, lookup_insert_eq by discriminate.
  by destruct config as [[id version] rest].
Qed.

Lemma legacy_storedUnderName version type consoleType ingress routes
    routerImage controllerImage :
  storedUnderName
    (Site.legacy version type consoleType ingress routes routerImage controllerImage).
Proof.
  split; cbn [configmaps deployments Site.legacy].
  - intros name cm [<- <-]%lookup_singleton_Some. reflexivity.
  - intros name d [[<- <-]|[_ [<- <-]%lookup_singleton_Some]]%lookup_insert_Some;
      reflexivity.
Qed.

Lemma sample_upToDate : upToDate (H := Site.library "0.6.0") Sample.site.
Proof.
  split; [|split; [|split]].
  - exists (Site.siteConfig "0.6.0"). split; [vm_compute; reflexivity|].
    exists {| rcSiteMetadata := {| siteId := "site-1"; siteVersion := "0.6.0" |};
              rcRest := "[]" |}.
    split; [vm_compute; reflexivity|]. split; vm_compute; reflexivity.
  - vm_compute; reflexivity.
  - exists Sample.router. split; vm_compute; reflexivity.
  - exists Sample.controller. split; vm_compute; reflexivity.
Qed.

Lemma invocation_on_an_up_to_date_site_only_reads_witness :
  let w := Site.world Sample.site in
  let out := call (RouterUpdateVersionInNamespace (H := Site.library "0.6.0")
                     (Site.failing 2) Site.kube false "ns") w in
  out.2.1 = false /\
  (exists evs, log out.1 = log w ++ evs /\
     Forall (fun ev => evVerb ev = VGet) evs /\ length evs <= 4) /\
  ((forall n, n < 4 -> fault (Site.failing 2) (ticks w + n) = None) -> out.2.2 = None) /\
  configmaps (store out.1) = configmaps (store w) /\
  deployments (store out.1) = deployments (store w).
Proof.
  apply (invocation_on_an_up_to_date_site_only_reads
           (H := Site.library "0.6.0") (Site.failing 2) Site.kube "ns"
           (Site.world Sample.site)).
  exact sample_upToDate.
Defined.

Lemma successful_invocation_leaves_the_site_up_to_date_witness :
  let w := Site.world (Site.legacy "0.4.2" ServiceTypeClusterIP ServiceTypeClusterIP ""
                         [] "r:0.4.2" "c:0.4.2") in
  let out := call (RouterUpdateVersionInNamespace (H := Site.library "0.6.0")
                     Site.quiet Site.kube false "ns") w in
  out.2 = (true, None) /\ upToDate (H := Site.library "0.6.0") (store out.1).
Proof.
  cbv zeta. split; [vm_compute; reflexivity|].
  apply (successful_invocation_leaves_the_site_up_to_date
           (H := Site.library "0.6.0") Site.quiet Site.kube false "ns"
           (Site.world (Site.legacy "0.4.2" ServiceTypeClusterIP ServiceTypeClusterIP ""
                          [] "r:0.4.2" "c:0.4.2"))).
  - exact library_lawful.
  - apply legacy_storedUnderName.
  - vm_compute; reflexivity.
Defined.

Lemma invocation_after_a_successful_one_only_reads_witness :
  let w := Site.world (Site.legacy "0.4.2" ServiceTypeClusterIP ServiceTypeClusterIP ""
                         [] "r:0.4.2" "c:0.4.2") in
  let first := call (RouterUpdateVersionInNamespace (H := Site.library "0.6.0")
                       Site.quiet Site.kube true "ns") w in
  let second := call (RouterUpdateVersionInNamespace (H := Site.library "0.6.0")
                        Site.quiet Site.kube false "ns") first.1 in
  first.2 = (true, None) /\
  second.2.1 = false /\
  (exists evs, log second.1 = log first.1 ++ evs /\
     Forall (fun ev => evVerb ev = VGet) evs /\ length evs <= 4).
Proof.
  cbv zeta. split; [vm_compute; reflexivity|].
  destruct (invocation_after_a_successful_one_only_reads
              (H := Site.library "0.6.0") Site.quiet Site.kube true "ns"
              (Site.world (Site.legacy "0.4.2" ServiceTypeClusterIP ServiceTypeClusterIP
                             "" [] "r:0.4.2" "c:0.4.2")))
    as (Hfalse & Hreads & _).
  - exact library_lawful.
  - apply legacy_storedUnderName.
  - vm_compute; reflexivity.
  - split; [exact Hfalse|exact Hreads].
Defined.

Section NoRoutes.
Context `{Deps} (env : Env) (cli : VanClient).

Ltac noroute_side :=
  intros; cbn in *; first [exact I | discriminate | done].

Lemma pollTransportHost_notAboutRoutes n i :
  inv (fun _ => True) notAboutRoutes (fun _ : Err => True) (pollTransportHost env n i).
Proof.
  revert i. induction n as [|n IH]; intros i; simpl.
  - apply inv_ret.
  - unfold_kube. repeat inv_step; try apply IH; unfold notAboutRoutes; noroute_side.
Qed.

Lemma pollConsoleHost_notAboutRoutes {R} n i :
  inv (fun _ => True) notAboutRoutes (fun _ : R => True) (pollConsoleHost env n i).
Proof.
  revert i. induction n as [|n IH]; intros i; simpl.
  - apply inv_ret.
  - unfold_kube. repeat inv_step; try apply IH; unfold notAboutRoutes; noroute_side.
Qed.

Lemma invocation_notAboutRoutes hup ns :
  RouteClient cli = false ->
  inv (fun _ => True) notAboutRoutes (fun _ => True)
      (RouterUpdateVersionInNamespace env cli hup ns).
Proof.
  intros Hrc.
  unfold RouterUpdateVersionInNamespace, checkVersion, renameAndUpdate, renameResources,
    updateRouterDeployment, updateControllerDeployment, deleteOldResources,
    getTransportHosts.
  unfold_kube. rewrite !Hrc. cbv beta iota.
  repeat inv_step.
  all: try apply pollTransportHost_notAboutRoutes.
  all: try apply pollConsoleHost_notAboutRoutes.
  all: unfold notAboutRoutes; noroute_side.
Qed.

(** X22. On a cluster without a route client an invocation sends no
    request about a route, whether it renames or not and whatever fails. *)
Theorem invocation_without_route_client_sends_no_route_request hup ns w :
  RouteClient cli = false ->
  let out := call (RouterUpdateVersionInNamespace env cli hup ns) w in
  exists evs, log out.1 = log w ++ evs /\ Forall notAboutRoutes evs.
Proof.
  intros Hrc. cbv zeta.
  destruct (invocation_notAboutRoutes hup ns Hrc w I) as (evs & Hlog & Hevs & _).
  exists evs. split; [|exact Hevs].
  unfold call. by destruct (RouterUpdateVersionInNamespace env cli hup ns w) as [w1 [b|r]].
Qed.

End NoRoutes.

Lemma invocation_without_route_client_sends_no_route_request_witness :
  let w := Site.world (Site.legacy "0.4.2" ServiceTypeClusterIP ServiceTypeClusterIP ""
                         [] "r:0.4.2" "c:0.4.2") in
  let out := call (RouterUpdateVersionInNamespace (H := Site.library "0.6.0")
                     Site.quiet Site.kube false "ns") w in
  exists evs, log out.1 = log w ++ evs /\ Forall notAboutRoutes evs.
Proof.
  apply (invocation_without_route_client_sends_no_route_request
           (H := Site.library "0.6.0") Site.quiet Site.kube false "ns").
  reflexivity.
Defined.

Section Never.
Context `{Deps} (env : Env) (cli : VanClient).

Ltac never_side :=
  intros; cbn in *;
  first [ exact I
        | by (split; intros; try discriminate; auto)
        | discriminate
        | done ].

Lemma pollTransportHost_keeps n i :
  inv (fun _ => True) keepsWorkloadsAndConfiguration (fun _ : Err => True)
      (pollTransportHost env n i).
Proof.
  revert i. induction n as [|n IH]; intros i; simpl.
  - apply inv_ret.
  - unfold_kube. repeat inv_step; try apply IH;
      unfold keepsWorkloadsAndConfiguration; never_side.
Qed.

Lemma pollConsoleHost_keeps {R} n i :
  inv (fun _ => True) keepsWorkloadsAndConfiguration (fun _ : R => True)
      (pollConsoleHost env n i).
Proof.
  revert i. induction n as [|n IH]; intros i; simpl.
  - apply inv_ret.
  - unfold_kube. repeat inv_step; try apply IH;
      unfold keepsWorkloadsAndConfiguration; never_side.
Qed.

Lemma invocation_keeps hup ns :
  inv (fun _ => True) keepsWorkloadsAndConfiguration (fun _ => True)
      (RouterUpdateVersionInNamespace env cli hup ns).
Proof.
  unfold RouterUpdateVersionInNamespace, checkVersion, renameAndUpdate, renameResources,
    updateRouterDeployment, updateControllerDeployment, deleteOldResources,
    getTransportHosts.
  unfold_kube.
  repeat inv_step.
  all: try apply pollTransportHost_keeps.
  all: try apply pollConsoleHost_keeps.
  all: unfold keepsWorkloadsAndConfiguration, marker; never_side.
Qed.

(** X23. An invocation never creates or deletes a deployment, and the
    only config map that it creates or deletes is the upgrade marker: the
    deployments and the router's config map are only read and updated,
    with or without a rename and whatever fails. *)
Theorem invocation_never_deletes_the_deployments_or_the_configuration hup ns w :
  let out := call (RouterUpdateVersionInNamespace env cli hup ns) w in
  exists evs, log out.1 = log w ++ evs /\
    Forall keepsWorkloadsAndConfiguration evs.
Proof.
  cbv zeta.
  destruct (invocation_keeps hup ns w I) as (evs & Hlog & Hevs & _).
  exists evs. split; [|exact Hevs].
  unfold call. by destruct (RouterUpdateVersionInNamespace env cli hup ns w) as [w1 [b|r]].
Qed.

Ltac legacy_side :=
  intros; cbn in *; unfold deletesLegacyOnly, target, marker; cbn;
  first [ exact I
        | by (intros; discriminate)
        | (intros _;
           repeat match goal with
                  | Hin : _ ∈ _ :: _ |- _ => apply elem_of_cons in Hin as [->|Hin]
                  | Hin : _ ∈ _ ++ _ |- _ => apply elem_of_app in Hin as [Hin|Hin]
                  | Hin : _ ∈ [] |- _ => by apply elem_of_nil in Hin
                  | Hin : _ ∈ (if ?b then _ else _) |- _ => destruct b
                  end;
           rewrite !elem_of_cons; auto 20)
        | done ].

Lemma pollTransportHost_legacy n i :
  inv (fun _ => True) deletesLegacyOnly (fun _ : Err => True) (pollTransportHost env n i).
Proof.
  revert i. induction n as [|n IH]; intros i; simpl.
  - apply inv_ret.
  - unfold_kube. repeat inv_step; try apply IH; legacy_side.
Qed.

Lemma pollConsoleHost_legacy {R} n i :
  inv (fun _ => True) deletesLegacyOnly (fun _ : R => True) (pollConsoleHost env n i).
Proof.
  revert i. induction n as [|n IH]; intros i; simpl.
  - apply inv_ret.
  - unfold_kube. repeat inv_step; try apply IH; legacy_side.
Qed.

Lemma invocation_legacy hup ns :
  inv (fun _ => True) deletesLegacyOnly (fun _ => True)
      (RouterUpdateVersionInNamespace env cli hup ns).
Proof.
  unfold RouterUpdateVersionInNamespace, checkVersion, renameAndUpdate, renameResources,
    updateRouterDeployment, updateControllerDeployment, deleteOldResources,
    getTransportHosts.
  unfold_kube.
  repeat inv_step.
  all: try apply pollTransportHost_legacy.
  all: try apply pollConsoleHost_legacy.
  all: legacy_side.
Qed.

(** X24. Whatever an invocation deletes is the upgrade marker or one of
    the fifteen objects of the legacy naming scheme: nothing else is ever
    deleted, whatever the site holds and whatever fails. *)
Theorem invocation_deletes_legacy_objects_only hup ns w :
  let out := call (RouterUpdateVersionInNamespace env cli hup ns) w in
  exists evs, log out.1 = log w ++ evs /\ Forall deletesLegacyOnly evs.
Proof.
  cbv zeta.
  destruct (invocation_legacy hup ns w I) as (evs & Hlog & Hevs & _).
  exists evs. split; [|exact Hevs].
  unfold call. by destruct (RouterUpdateVersionInNamespace env cli hup ns w) as [w1 [b|r]].
Qed.

End Never.

Section Refused.
Context `{Deps} (env : Env) (cli : VanClient).

(** X25. Without a router configuration there is nothing to upgrade:
    when the router's config map is missing or does not hold a router
    configuration, the invocation answers false with an error after the
    one read of the config map, and changes no object. *)
Theorem invocation_without_router_configuration_is_refused hup ns w :
  (forall cm, configmaps (store w) !! TransportConfigMapName = Some cm ->
              exists e, GetRouterConfigFromConfigMap cm = inl e) ->
  let out := call (RouterUpdateVersionInNamespace env cli hup ns) w in
  out.2.1 = false /\ is_Some out.2.2 /\
  exists ev, log out.1 = log w ++ [ev] /\
    isReq VGet KConfigMap TransportConfigMapName ev /\
    store out.1 = evStore ev.
Proof.
  intros Hnone. cbv zeta.
  apply (call_wp env cli hup ns
           (fun out => out.2.1 = false /\ is_Some out.2.2 /\
              exists ev, log out.1 = log w ++ [ev] /\
                isReq VGet KConfigMap TransportConfigMapName ev /\
                store out.1 = evStore ev)).
  unfold checkVersion. unfold_kube.
  wp_seq. wp_step.
  1, 3: (split; [reflexivity|]; split; [cbn; eauto|]; eexists;
         split; [exact Hlog|]; split; [by repeat split|by subst]).
  assert (Hcm : configmaps (store w) !! TransportConfigMapName = Some c) by (by wp_log).
  destruct (Hnone c Hcm) as [e' He'].
  wp_seq. wp_step; [|congruence].
  split; [reflexivity|]. split; [cbn; eauto|]. eexists.
  split; [exact Hlog|]. split; [by repeat split|].
  subst. cbn. rewrite Hstore. reflexivity.
Qed.

End Refused.

Lemma invocation_without_router_configuration_is_refused_witness :
  let w := Site.world (setObjs ConfigMaps ∅ Sample.site) in
  let out := call (RouterUpdateVersionInNamespace (H := Site.library "0.6.0")
                     Site.quiet Site.kube true "ns") w in
  out.2.1 = false /\ is_Some out.2.2 /\
  exists ev, log out.1 = log w ++ [ev] /\
    isReq VGet KConfigMap "skupper-internal" ev /\
    store out.1 = evStore ev.
Proof.
  apply (invocation_without_router_configuration_is_refused
           (H := Site.library "0.6.0") Site.quiet Site.kube true "ns"
           (Site.world (setObjs ConfigMaps ∅ Sample.site))).
  intros cm Hcm. vm_compute in Hcm. discriminate.
Defined.

Section Quiet.
Context `{Deps} (env : Env) (cli : VanClient).

Lemma checkVersion_quiet w :
  wp (checkVersion env)
    (fun w1 res => stdout w1 = stdout w /\ slept w1 = slept w) w.
Proof.
  unfold checkVersion. unfold_kube.
  repeat wp_step.
  all: split; congruence.
Qed.

Lemma renameAndUpdate_norename_quiet hup us ns cm w :
  wp (renameAndUpdate env cli hup ns cm false us)
    (fun w1 res => stdout w1 = stdout w /\ slept w1 = slept w) w.
Proof.
  unfold renameAndUpdate.
  apply (wp_bind (ret (false, false, false))). wp_step.
  unfold updateRouterDeployment, updateControllerDeployment. unfold_kube.
  repeat wp_step.
  all: split; congruence.
Qed.

(** X26. Outside a rename an invocation prints nothing and never
    sleeps: on a site that is not older than 0.5.0 and holds no upgrade
    marker, the output and the time slept are as they were, whatever
    fails. *)
Theorem invocation_without_rename_prints_nothing hup ns w :
  configmaps (store w) !! marker = None ->
  (forall cm config,
     configmaps (store w) !! TransportConfigMapName = Some cm ->
     GetRouterConfigFromConfigMap cm = inr config ->
     LessRecentThanVersion (siteVersion (GetSiteMetadata config)) "0.5.0" = false) ->
  let out := call (RouterUpdateVersionInNamespace env cli hup ns) w in
  stdout out.1 = stdout w /\ slept out.1 = slept w.
Proof.
  intros Hmarker Hnew. cbv zeta.
  apply (call_wp env cli hup ns
           (fun out => stdout out.1 = stdout w /\ slept out.1 = slept w)).
  pose proof (checkVersion_norename_requests env w Hmarker Hnew) as Hflags.
  pose proof (checkVersion_quiet w) as Hquiet.
  unfold wp in *.
  destruct (checkVersion env w) as [w1 [[[[cm rename] inprogress] us]|r]];
    cbn [fst snd] in *; [|exact Hquiet].
  destruct Hflags as [_ [-> ->]]. destruct Hquiet as [Hout Hslept].
  pose proof (renameAndUpdate_norename_quiet hup us ns cm w1) as Hquiet'.
  unfold wp in *.
  destruct (renameAndUpdate env cli hup ns cm false us w1) as [w2 [[ur uc]|r]];
    cbn [fst snd] in *; split; destruct Hquiet'; congruence.
Qed.

End Quiet.

Lemma invocation_without_rename_prints_nothing_witness :
  let w := Site.world Sample.site in
  let out := call (RouterUpdateVersionInNamespace (H := Site.library "0.6.1")
                     Site.quiet Site.kube true "ns") w in
  stdout out.1 = stdout w /\ slept out.1 = slept w.
Proof.
  apply (invocation_without_rename_prints_nothing
           (H := Site.library "0.6.1") Site.quiet Site.kube true "ns"
           (Site.world Sample.site)).
  - vm_compute; reflexivity.
  - intros cm config Hcm Hparse. vm_compute in Hcm. injection Hcm as <-.
    vm_compute in Hparse. injection Hparse as <-. vm_compute. reflexivity.
Defined.

Section Decisions.
Context `{Deps} (env : Env).

(** X27. How an invocation decides what to do (lines 65-112), whenever
    the checks let it go on. The site version is bumped exactly when the
    library is more recent than the site, or equivalent to it under another
    text. With an upgrade marker the upgrade is in progress and the rename
    is decided by the version recorded in the marker, whatever the site
    version is now, so that an interrupted rename is resumed. Without a
    marker the rename is decided by the site version: it takes place
    exactly when the version is bumped from one older than 0.5.0, and an
    upgrade is in progress exactly then. *)
Theorem upgrade_decisions w cm' rename inprogress updateSite :
  (checkVersion env w).2 = inl (cm', rename, inprogress, updateSite) ->
  exists cm config,
    configmaps (store w) !! TransportConfigMapName = Some cm /\
    GetRouterConfigFromConfigMap cm = inr config /\
    let version := siteVersion (GetSiteMetadata config) in
    LessRecentThanVersion Version version = false /\
    updateSite = MoreRecentThanVersion Version version
                 || EquivalentVersion Version version
                    && negb (String.eqb Version version) /\
    match configmaps (store w) !! marker with
    | Some started =>
        inprogress = true /\
        rename = LessRecentThanVersion (default "" (cmData started !! "from")) "0.5.0"
    | None =>
        rename = updateSite && LessRecentThanVersion version "0.5.0" /\
        inprogress = rename
    end.
Proof.
  change (wp (checkVersion env)
    (fun w1 res =>
       res = inl (cm', rename, inprogress, updateSite) ->
       exists cm config,
         configmaps (store w) !! TransportConfigMapName = Some cm /\
         GetRouterConfigFromConfigMap cm = inr config /\
         let version := siteVersion (GetSiteMetadata config) in
         LessRecentThanVersion Version version = false /\
         updateSite = MoreRecentThanVersion Version version
                      || EquivalentVersion Version version
                         && negb (String.eqb Version version) /\
         match configmaps (store w) !! marker with
         | Some started =>
             inprogress = true /\
             rename = LessRecentThanVersion (default "" (cmData started !! "from"))
                                            "0.5.0"
         | None =>
             rename = updateSite && LessRecentThanVersion version "0.5.0" /\
             inprogress = rename
         end) w).
  unfold marker. unfold checkVersion. unfold_kube.
  wp_seq. wp_step; try discriminate.
  assert (Hcm : configmaps (store w) !! TransportConfigMapName = Some c) by (by wp_log).
  wp_seq. wp_step; [discriminate|].
  wp_step; [wp_step; discriminate|].
  wp_seq. wp_step.
  - cbn [IsNotFound]. wp_step. discriminate.
  - assert (Hmk : configmaps (store w) !! "skupper-update-state" = Some c0)
      by (by wp_log).
    wp_seq. wp_step.
    + cbn [negb andb]. repeat wp_step; try discriminate.
      intros [= <- <- <- <-]. exists c, r. rewrite Hmk, Hb0. by repeat split.
    + wp_seq. intros [= <- <- <- <-]. exists c, r. rewrite Hmk, Hb0. by repeat split.
  - assert (Hmk : configmaps (store w) !! "skupper-update-state" = None)
      by (by wp_log).
    cbn [IsNotFound]. wp_seq. wp_step.
    + cbn [negb andb]. repeat wp_step; try discriminate.
      all: intros [= <- <- <- <-]; exists c, r; rewrite Hmk, Hb0, Hb1; by repeat split.
    + wp_seq. intros [= <- <- <- <-]. exists c, r. rewrite Hmk, Hb0. by repeat split.
Qed.

End Decisions.

Lemma upgrade_decisions_witness :
  let w := Site.world
             (Site.withMarker "0.4.2"
                (Site.legacy "0.6.0" ServiceTypeClusterIP ServiceTypeClusterIP ""
                   [] Site.routerImage Site.controllerImage)) in
  exists cm config,
    configmaps (store w) !! TransportConfigMapName (Deps := Site.library "0.6.0")
      = Some cm /\
    GetRouterConfigFromConfigMap (Deps := Site.library "0.6.0") cm = inr config.
Proof.
  destruct (upgrade_decisions (H := Site.library "0.6.0") Site.quiet
              (Site.world
                 (Site.withMarker "0.4.2"
                    (Site.legacy "0.6.0" ServiceTypeClusterIP ServiceTypeClusterIP ""
                       [] Site.routerImage Site.controllerImage)))
              (Site.siteConfig "0.6.0") true true false)
    as (cm & config & Hcm & Hparse & _); [vm_compute; reflexivity|].
  exists cm, config. split; [exact Hcm|exact Hparse].
Defined.

Section RestartTwice.
Context `{Deps} (env : Env).

(** X28. Restarting twice is restarting once, later: when the transport
    deployment is stored under its name and no request fails, two calls of
    [RouterRestart] in a row leave what a single call at the time of the
    second would leave. The timestamp of the first call is overwritten, and
    nothing accumulates in the annotations. *)
Theorem RouterRestart_twice_keeps_the_second_timestamp w d :
  deployments (store w) !! TransportDeploymentName = Some d ->
  Name (depMeta d) = TransportDeploymentName ->
  (forall n, n < 4 -> fault env (ticks w + n) = None) ->
  let first := RouterRestart env w in
  let second := RouterRestart env first.1 in
  first.2 = inl tt /\ second.2 = inl tt /\
  deployments (store second.1) =
    <[TransportDeploymentName := touched (clock env (3 + ticks w)) d]>
      (deployments (store w)).
Proof.
  intros Hd Hname Hfault. cbv zeta.
  assert (Hf : forall n, n < 4 -> fault env (n + ticks w) = None).
  { intros n Hn. rewrite Nat.add_comm. by apply Hfault. }
  destruct (RouterRestart_wp env w d Hd Hname (Hf 0 ltac:(lia)) (Hf 1 ltac:(lia)))
    as (Hres & Hdeps & _ & _ & Ht).
  split; [exact Hres|].
  set (w1 := (RouterRestart env w).1) in *.
  set (d1 := touched (clock env (S (ticks w))) d) in *.
  assert (Hd1 : deployments (store w1) !! TransportDeploymentName = Some d1).
  { by rewrite Hdeps, lookup_insert_eq. }
  destruct (RouterRestart_wp env w1 d1 Hd1 Hname) as (Hres' & Hdeps' & _).
  { rewrite Ht. apply (Hf 2). lia. }
  { rewrite Ht. apply (Hf 3). lia. }
  split; [exact Hres'|].
  rewrite Hdeps', Hdeps, insert_insert_eq, Ht. f_equal.
  unfold d1, touched. cbn. by rewrite insert_insert_eq.
Qed.

End RestartTwice.

Lemma RouterRestart_twice_keeps_the_second_timestamp_witness :
  let w := Site.world Sample.site in
  let first := RouterRestart (H := Site.library "0.6.0") Site.quiet w in
  let second := RouterRestart (H := Site.library "0.6.0") Site.quiet first.1 in
  first.2 = inl tt /\ second.2 = inl tt /\
  deployments (store second.1) =
    <["skupper-router" := touched (H := Site.library "0.6.0") (clock Site.quiet 3)
                            Sample.router]> (deployments (store w)).
Proof.
  apply (RouterRestart_twice_keeps_the_second_timestamp
           (H := Site.library "0.6.0") Site.quiet (Site.world Sample.site) Sample.router).
  - vm_compute; reflexivity.
  - reflexivity.
  - reflexivity.
Defined.

